(** * AdArbitrage report reconciliation: import, merge, visibility, history

    A shallow embedding of the reconciliation logic of the application
    ([App.tsx]: [handleImportFile], [deleteHistoryItem]; [Dashboard.tsx]:
    [visibleData], [summary], [toggleVisibility], [handleDownloadJson],
    [handleDownloadHtml]; [types.ts]: the record types).

    JavaScript numbers are IEEE 754 binary64 values: they are Rocq's
    primitive floats.  The arithmetic the code uses is collected in the
    class [Number] so that the facts that only hold in exact arithmetic
    can be stated next to the ones that hold on binary64.  The exports
    and the import work on text: [JSON.stringify], [JSON.parse] and the
    regular expression of the import are written out on strings. *)

From Stdlib Require Import List String Ascii ZArith Bool Lia Permutation.
From Stdlib Require Import Floats.
From Stdlib Require Import Sorted Relation_Operators.
Import ListNotations.

(** ** Numbers *)

(** The operations on numbers that occur in the source:
    [+], [-], [*], [/], [<] (and [>] as [<] flipped), the literals [0],
    [100] and [-0.5], the value [NaN] that [undefined] converts to, and
    truthiness (the left operand test of [x || 0]). *)
Class Number (num : Type) := {
  zero : num;
  hundred : num;
  minus_half : num;
  NaN : num;
  add : num -> num -> num;
  sub : num -> num -> num;
  mul : num -> num -> num;
  div : num -> num -> num;
  lt : num -> num -> bool;
  truthy : num -> bool
}.

Definition gt {num} `{Number num} (a b : num) : bool := lt b a.

(** binary64: a number is falsy when it is [+0], [-0] or [NaN]. *)
#[export] Instance float_Number : Number float := {
  zero := 0%float;
  hundred := 100%float;
  minus_half := (-0.5)%float;
  NaN := PrimFloat.nan;
  add := PrimFloat.add;
  sub := PrimFloat.sub;
  mul := PrimFloat.mul;
  div := PrimFloat.div;
  lt := PrimFloat.ltb;
  truthy := fun x => negb (PrimFloat.eqb x 0%float || PrimFloat.is_nan x)
}.

(** Exact arithmetic extended with an absorbing [NaN] ([None]): a
    rational is a numerator over a positive denominator (not reduced),
    compared by cross-multiplication. *)
Definition exact := option (Z * positive).

Definition exact_lift (f : Z * positive -> Z * positive -> option (Z * positive))
  (a b : exact) : exact :=
  match a, b with
  | Some x, Some y => f x y
  | _, _ => None
  end.

Definition exact_add : exact -> exact -> exact :=
  exact_lift (fun x y =>
    Some ((fst x * Zpos (snd y) + fst y * Zpos (snd x))%Z, (snd x * snd y)%positive)).

Definition exact_sub : exact -> exact -> exact :=
  exact_lift (fun x y =>
    Some ((fst x * Zpos (snd y) - fst y * Zpos (snd x))%Z, (snd x * snd y)%positive)).

Definition exact_mul : exact -> exact -> exact :=
  exact_lift (fun x y => Some ((fst x * fst y)%Z, (snd x * snd y)%positive)).

Definition exact_div : exact -> exact -> exact :=
  exact_lift (fun x y =>
    match fst y with
    | Z0 => None
    | Zpos p => Some ((fst x * Zpos (snd y))%Z, (snd x * p)%positive)
    | Zneg p => Some ((- (fst x * Zpos (snd y)))%Z, (snd x * p)%positive)
    end).

Definition exact_lt (a b : exact) : bool :=
  match a, b with
  | Some x, Some y => (fst x * Zpos (snd y) <? fst y * Zpos (snd x))%Z
  | _, _ => false
  end.

Definition exact_of_Z (n : Z) : exact := Some (n, 1%positive).

#[export] Instance exact_Number : Number exact := {
  zero := exact_of_Z 0;
  hundred := exact_of_Z 100;
  minus_half := Some ((-1)%Z, 2%positive);
  NaN := None;
  add := exact_add;
  sub := exact_sub;
  mul := exact_mul;
  div := exact_div;
  lt := exact_lt;
  truthy := fun x => match x with Some (Z0, _) | None => false | _ => true end
}.

(** ** Data model ([types.ts]) *)

(** A property of a JavaScript object may be absent ([undefined]); a
    present property has the type the interface declares.  Reports come
    out of [JSON.parse], so every property is optional here. *)
Section Model.

Context {num : Type} `{Number num}.

Record CountryData := {
  country : option string;
  cost : option num;
  revenue : option num;
  profit : option num;
  roi : option num;
  status : option string
}.

Record Summary := {
  totalCost : num;
  totalRevenue : num;
  netProfit : num;
  totalRoi : num
}.

Record AnalysisResult := {
  summary : option Summary;
  details : option (list CountryData);
  badCountries : option (list string);
  recommendations : option (list string)
}.

Record HistoryItem := {
  id : string;
  timestamp : Z;
  result : AnalysisResult
}.

(** ** Conversions of the language *)

(** [ToNumber] on a property that holds a number or is absent. *)
Definition ToNumber (x : option num) : num :=
  match x with
  | Some v => v
  | None => NaN
  end.

(** [x || 0] *)
Definition or_zero (x : option num) : num :=
  match x with
  | Some v => if truthy v then v else zero
  | None => zero
  end.

Definition key_eqb (a b : option string) : bool :=
  match a, b with
  | Some x, Some y => String.eqb x y
  | None, None => true
  | _, _ => false
  end.

(** [Array.prototype.includes] *)
Fixpoint includes (l : list (option string)) (x : option string) : bool :=
  match l with
  | [] => false
  | y :: l' => key_eqb y x || includes l' x
  end.

(** ** [Map<string, CountryData>] in insertion order *)

Definition Map := list (option string * CountryData).

Fixpoint Map_has (m : Map) (k : option string) : bool :=
  match m with
  | [] => false
  | (k', _) :: m' => key_eqb k' k || Map_has m' k
  end.

Fixpoint Map_get (m : Map) (k : option string) : option CountryData :=
  match m with
  | [] => None
  | (k', v) :: m' => if key_eqb k' k then Some v else Map_get m' k
  end.

(** [set] keeps the position of a key that is already there and appends
    a new one. *)
Fixpoint Map_set (m : Map) (k : option string) (v : CountryData) : Map :=
  match m with
  | [] => [(k, v)]
  | (k', v') :: m' =>
      if key_eqb k' k then (k', v) :: m' else (k', v') :: Map_set m' k v
  end.

Definition Map_values (m : Map) : list CountryData := List.map snd m.

(** [Array.from(new Set(l))]: first occurrences, in order. *)
Definition Set_add (s : list string) (x : string) : list string :=
  if existsb (String.eqb x) s then s else s ++ [x].

Definition Array_from_Set (l : list string) : list string :=
  fold_left Set_add l [].

(** ** The merge of [handleImportFile] *)

Definition PROFITABLE : string := "PROFITABLE".
Definition LOSS : string := "LOSS".
Definition BREAK_EVEN : string := "BREAK_EVEN".

Definition status_of (p : num) : string :=
  if gt p zero then PROFITABLE
  else if lt p minus_half then LOSS
  else BREAK_EVEN.

Definition roi_of (p c : num) : num :=
  if gt c zero then mul (div p c) hundred else zero.

(** The body of the [if (mergedDetailsMap.has(newItem.country))] branch:
    the five assignments to [existing]. *)
Definition merge_existing (existing newItem : CountryData) : CountryData :=
  let c := add (ToNumber (cost existing)) (ToNumber (cost newItem)) in
  let r := add (ToNumber (revenue existing)) (ToNumber (revenue newItem)) in
  let p := sub r c in
  {| country := country existing;
     cost := Some c;
     revenue := Some r;
     profit := Some p;
     roi := Some (roi_of p c);
     status := Some (status_of p) |}.

(** One step of [result.details.forEach]: the copy of the item is set
    under its country. *)
Definition base_step (m : Map) (item : CountryData) : Map :=
  Map_set m (country item) item.

(** One step of [importedData.details.forEach].  The object that [get]
    returns is the one in the map: assigning to its properties is setting
    the changed record under the same key. *)
Definition merge_item (m : Map) (newItem : CountryData) : Map :=
  if Map_has m (country newItem) then
    match Map_get m (country newItem) with
    | Some existing =>
        Map_set m (country newItem) (merge_existing existing newItem)
    | None => m
    end
  else Map_set m (country newItem) newItem.

Definition mergedDetailsMap (base incoming : list CountryData) : Map :=
  fold_left merge_item incoming (fold_left base_step base []).

Definition ratio_of (np tc : num) : num :=
  if gt tc zero then mul (div np tc) hundred else zero.

(** The summary of the merge branch: [reduce((s, i) => s + i.cost, 0)]. *)
Definition merged_summary (d : list CountryData) : Summary :=
  let tc := fold_left (fun s i => add s (ToNumber (cost i))) d zero in
  let tr := fold_left (fun s i => add s (ToNumber (revenue i))) d zero in
  let np := sub tr tc in
  {| totalCost := tc; totalRevenue := tr; netProfit := np;
     totalRoi := ratio_of np tc |}.

(** The summary that is recalculated when it is missing, and the one the
    dashboard derives: [reduce((acc, curr) => acc + (curr.cost || 0), 0)]. *)
Definition aggregate (d : list CountryData) : Summary :=
  let tc := fold_left (fun acc curr => add acc (or_zero (cost curr))) d zero in
  let tr := fold_left (fun acc curr => add acc (or_zero (revenue curr))) d zero in
  let np := sub tr tc in
  {| totalCost := tc; totalRevenue := tr; netProfit := np;
     totalRoi := ratio_of np tc |}.

(** [l || []] *)
Definition or_nil {A} (l : option (list A)) : list A :=
  match l with
  | Some x => x
  | None => []
  end.

(** What an import does to the session. *)
Inductive Outcome :=
| Merged (r : AnalysisResult)      (* setResult(mergedResult) *)
| Loaded (r : AnalysisResult)      (* setResult(importedData), RESULTS *)
| InvalidFormat                    (* the alert of an invalid file format;
                                      the result stays *)
| LoadFailed.                      (* an exception reached the catch; the
                                      result stays *)

(** The repairs applied to the parsed document before it is merged or
    loaded: optional lists and the summary. *)
Definition repair (importedData : AnalysisResult) (d : list CountryData)
  : AnalysisResult :=
  {| summary := match summary importedData with
                | Some s => Some s
                | None => Some (aggregate d)
                end;
     details := Some d;
     badCountries := Some (or_nil (badCountries importedData));
     recommendations := Some (or_nil (recommendations importedData)) |}.

Definition merge_results (base_details : list CountryData)
  (base_bad base_rec : list string) (imported : AnalysisResult)
  (d : list CountryData) : AnalysisResult :=
  let mergedDetails := Map_values (mergedDetailsMap base_details d) in
  {| summary := Some (merged_summary mergedDetails);
     details := Some mergedDetails;
     badCountries := Some (Array_from_Set
                             (base_bad ++ or_nil (badCountries imported)));
     recommendations := Some (Array_from_Set
                             (base_rec ++ or_nil (recommendations imported))) |}.

(** [handleImportFile] from the parsed document on.  [importedData] is
    [None] when no document was extracted from the file. *)
Definition import_document (current : option AnalysisResult)
  (importedData : option AnalysisResult) : Outcome :=
  match importedData with
  | None => InvalidFormat
  | Some imp =>
      match details imp with
      | None => InvalidFormat
      | Some d =>
          let imp' := repair imp d in
          match current with
          | Some base =>
              (* [result.details.forEach] and the spreads of
                 [result.badCountries] and [result.recommendations] throw
                 a TypeError on [undefined] *)
              match details base, badCountries base, recommendations base with
              | Some bd, Some bb, Some br =>
                  Merged (merge_results bd bb br imp' d)
              | _, _, _ => LoadFailed
              end
          | None => Loaded imp'
          end
      end
  end.

(** The merge of two reports, as the merge branch performs it. *)
Definition merge (base incoming : AnalysisResult) : option AnalysisResult :=
  match import_document (Some base) (Some incoming) with
  | Merged r => Some r
  | _ => None
  end.

(** ** The dashboard's visibility filter ([Dashboard.tsx]) *)

Record Dashboard := {
  data : AnalysisResult;
  hiddenCountries : list (option string)
}.

Definition zero_summary : Summary :=
  {| totalCost := zero; totalRevenue := zero; netProfit := zero;
     totalRoi := zero |}.

Definition visibleData (s : Dashboard) : list CountryData :=
  filter (fun d => negb (includes (hiddenCountries s) (country d)))
         (or_nil (details (data s))).

Definition dashboard_summary (s : Dashboard) : Summary :=
  let rawSummary := match summary (data s) with
                    | Some x => x
                    | None => zero_summary
                    end in
  match hiddenCountries s with
  | [] => rawSummary
  | _ :: _ => aggregate (visibleData s)
  end.

Definition visibleBadCountries (s : Dashboard) : list string :=
  filter (fun c => negb (includes (hiddenCountries s) (Some c)))
         (or_nil (badCountries (data s))).

Definition toggleVisibility (s : Dashboard) (c : option string) : Dashboard :=
  {| data := data s;
     hiddenCountries :=
       if includes (hiddenCountries s) c
       then filter (fun x => negb (key_eqb x c)) (hiddenCountries s)
       else hiddenCountries s ++ [c] |}.

Definition showAll (s : Dashboard) : Dashboard :=
  {| data := data s; hiddenCountries := [] |}.

(** ** History ([App.tsx]) *)

(** The session's history and the value stored under
    ['ad_arbitrage_history'], which is the serialised list. *)
Record HistoryState := {
  history : list HistoryItem;
  localStorage : option (list HistoryItem)
}.

Definition deleteHistoryItem (st : HistoryState) (i : string) : HistoryState :=
  let updatedHistory :=
    filter (fun item => negb (String.eqb (id item) i)) (history st) in
  {| history := updatedHistory; localStorage := Some updatedHistory |}.

Definition saveToHistory (st : HistoryState) (newItem : HistoryItem)
  : HistoryState :=
  let updatedHistory := newItem :: history st in
  {| history := updatedHistory; localStorage := Some updatedHistory |}.

End Model.

Arguments CountryData num : clear implicits.
Arguments Summary num : clear implicits.
Arguments AnalysisResult num : clear implicits.
Arguments HistoryItem num : clear implicits.
Arguments Outcome num : clear implicits.
Arguments Dashboard num : clear implicits.
Arguments HistoryState num : clear implicits.
Arguments Map num : clear implicits.

(** * Export and import of reports as text *)

(** The platform's [JSON.stringify], [JSON.parse], [Number::toString]
    and [String.prototype.match] are written out after ECMAScript, on
    strings of bytes: the text of a file is its UTF-8 encoding. *)

Module JSON.

#[local] Open Scope string_scope.

(** ** Numbers as text *)

Definition digit_char (d : Z) : ascii := ascii_of_nat (48 + Z.to_nat d).

(** Decimal digits of a non-negative integer, most significant first. *)
Fixpoint digits_fuel (fuel : nat) (z : Z) (acc : string) : string :=
  match fuel with
  | O => acc
  | S f =>
      let acc' := String (digit_char (z mod 10)) acc in
      if (z <? 10)%Z then acc' else digits_fuel f (z / 10) acc'
  end.

Definition digits_of (z : Z) : string :=
  digits_fuel (S (Z.to_nat (Z.log2 z))) z EmptyString.

Fixpoint zeros (n : nat) : string :=
  match n with
  | O => EmptyString
  | S k => String "0" (zeros k)
  end.

(** The binary64 number nearest to [n / d] ([n >= 0], [d > 0]), ties to
    even: the quotient is taken with at least 66 bits and one more bit
    records whether anything is left. *)
Definition round_ratio (n d : Z) : float :=
  if (n =? 0)%Z then 0%float
  else
    let k := Z.max 0 (Z.log2 d - Z.log2 n + 66) in
    let q := (n * 2 ^ k / d)%Z in
    let r := ((n * 2 ^ k) mod d)%Z in
    let m := if (r =? 0)%Z then (2 * q)%Z else (2 * q + 1)%Z in
    SF2Prim (binary_normalize prec emax m (- k - 1) false).

(** The binary64 number nearest to [s * 10 ^ t]. *)
Definition round_decimal (s t : Z) : float :=
  if (0 <=? t)%Z then round_ratio (s * 10 ^ t) 1
  else round_ratio s (10 ^ (- t)).

(** [N / D] divided by [10 ^ t], as a fraction. *)
Definition scaled (N D t : Z) : Z * Z :=
  if (0 <=? t)%Z then (N, D * 10 ^ t)%Z else (N * 10 ^ (- t), D)%Z.

(** [Number::toString], step 5, for [x = N / D] with
    [10 ^ (n - 1) <= x < 10 ^ n]: the integers [s] of [k] digits next to
    [x / 10 ^ (n - k)] for which [s * 10 ^ (n - k)] is [x] again, the
    closest one first, ties to the even one. *)
Definition candidate (x : float) (N D n : Z) (k : Z) : option (Z * Z) :=
  let '(N', D') := scaled N D (n - k) in
  let lo := (N' / D')%Z in
  let rem := (N' mod D')%Z in
  let hi := (lo + 1)%Z in
  let ok_lo := PrimFloat.Leibniz.eqb (round_decimal lo (n - k)) x in
  let ok_hi := PrimFloat.Leibniz.eqb (round_decimal hi (n - k)) x in
  let hi' := if (hi =? 10 ^ k)%Z then (10 ^ (k - 1), n + 1)%Z else (hi, n) in
  let prefer_lo :=
    match (2 * rem ?= D')%Z with
    | Lt => true
    | Gt => false
    | Eq => Z.even lo
    end in
  match ok_lo, ok_hi with
  | true, true => Some (if prefer_lo then (lo, n) else hi')
  | true, false => Some (lo, n)
  | false, true => Some hi'
  | false, false => None
  end.

(** The least [k] that has a candidate. *)
Fixpoint shortest (fuel : nat) (x : float) (N D n : Z) (k : Z) : Z * Z :=
  match fuel with
  | O => (let '(N', D') := scaled N D (n - k) in (N' / D')%Z, n)
  | S f =>
      match candidate x N D n k with
      | Some r => r
      | None => shortest f x N D n (k + 1)
      end
  end.

Definition count_digits (z : Z) : Z := Z.of_nat (String.length (digits_of z)).

(** [n] with [10 ^ (n - 1) <= N / D < 10 ^ n] *)
Definition magnitude (N D : Z) : Z :=
  let c := (count_digits N - count_digits D)%Z in
  let '(N', D') := scaled N D c in
  if (D' <=? N')%Z then (c + 1)%Z else c.

Definition substring_from (n : nat) (s : string) : string :=
  String.substring n (String.length s - n) s.

Definition exponent_text (e : Z) : string :=
  "e" ++ (if (0 <=? e)%Z then "+" else "-") ++ digits_of (Z.abs e).

(** [Number::toString], steps 6 to 10: the digits of [s] placed by [n]. *)
Definition format_decimal (s n : Z) : string :=
  let ds := digits_of s in
  let k := Z.of_nat (String.length ds) in
  if ((k <=? n) && (n <=? 21))%Z then ds ++ zeros (Z.to_nat (n - k))
  else if ((0 <? n) && (n <=? 21))%Z then
    String.substring 0 (Z.to_nat n) ds ++ "." ++ substring_from (Z.to_nat n) ds
  else if ((-6 <? n) && (n <=? 0))%Z then
    "0." ++ zeros (Z.to_nat (- n)) ++ ds
  else if (k =? 1)%Z then ds ++ exponent_text (n - 1)
  else String.substring 0 1 ds ++ "." ++ substring_from 1 ds
       ++ exponent_text (n - 1).

Definition Number_toString (x : float) : string :=
  match Prim2SF x with
  | S754_nan => "NaN"
  | S754_zero _ => "0"
  | S754_infinity s => if s then "-Infinity" else "Infinity"
  | S754_finite sg m e =>
      let N := if (0 <=? e)%Z then (Zpos m * 2 ^ e)%Z else Zpos m in
      let D := if (0 <=? e)%Z then 1%Z else (2 ^ (- e))%Z in
      let n := magnitude N D in
      let '(s, n') := shortest 17 (PrimFloat.abs x) N D n 1 in
      (if sg then "-" else EmptyString) ++ format_decimal s n'
  end.

(** The number of a JSON numeric literal: an optional minus, an integer
    part without a leading zero, an optional fraction and an optional
    exponent. *)
Definition is_digit (c : ascii) : bool :=
  let n := nat_of_ascii c in (48 <=? n)%nat && (n <=? 57)%nat.

Fixpoint take_digits (s : string) : string * string :=
  match s with
  | String c t =>
      if is_digit c then let '(d, r) := take_digits t in (String c d, r)
      else (EmptyString, s)
  | EmptyString => (EmptyString, EmptyString)
  end.

Fixpoint Z_of_digits (s : string) (acc : Z) : Z :=
  match s with
  | String c t => Z_of_digits t (10 * acc + Z.of_nat (nat_of_ascii c - 48))%Z
  | EmptyString => acc
  end.

Definition int_part_ok (d : string) : bool :=
  match d with
  | EmptyString => false
  | String "0" (String _ _) => false
  | _ => true
  end.

Definition parse_exponent (s : string) : option (Z * string) :=
  match s with
  | String c t =>
      if (Ascii.eqb c "e" || Ascii.eqb c "E")%bool then
        let '(neg, t') :=
          match t with
          | String "+" u => (false, u)
          | String "-" u => (true, u)
          | _ => (false, t)
          end in
        let '(d, r) := take_digits t' in
        match d with
        | EmptyString => None
        | _ => Some (if neg then (- Z_of_digits d 0)%Z else Z_of_digits d 0, r)
        end
      else Some (0%Z, s)
  | EmptyString => Some (0%Z, EmptyString)
  end.

Definition parse_fraction (s : string) : option (string * string) :=
  match s with
  | String "." t =>
      let '(d, r) := take_digits t in
      match d with
      | EmptyString => None
      | _ => Some (d, r)
      end
  | _ => Some (EmptyString, s)
  end.

(** Exponents beyond the range of binary64 are not expanded: the value
    is 0 or infinite whatever the digits are. *)
Definition decimal_value (neg : bool) (mant : Z) (e : Z) : float :=
  let v :=
    if (mant =? 0)%Z then 0%float
    else if (400 <? e + count_digits mant)%Z then infinity
    else if (e + count_digits mant <? -400)%Z then 0%float
    else round_decimal mant e in
  if neg then (- v)%float else v.

Definition parse_number (tok : string) : option float :=
  let '(neg, s) :=
    match tok with
    | String "-" t => (true, t)
    | _ => (false, tok)
    end in
  let '(ip, s1) := take_digits s in
  if int_part_ok ip then
    match parse_fraction s1 with
    | Some (fp, s2) =>
        match parse_exponent s2 with
        | Some (e, EmptyString) =>
            Some (decimal_value neg (Z_of_digits (ip ++ fp) 0)
                    (e - Z.of_nat (String.length fp)))
        | _ => None
        end
    | None => None
    end
  else None.

(** ** Documents *)

#[local] Set Warnings "-register-all".

Inductive value :=
| JNull
| JBool (b : bool)
| JNumber (x : float)
| JString (s : string)
| JArray (l : list value)
| JObject (m : list (string * value)).

Definition dquote : ascii := Ascii false true false false false true false false.
Definition backslash : ascii := Ascii false false true true true false true false.
Definition dq : string := String dquote EmptyString.

Definition hex_digit (n : nat) : ascii :=
  if (n <? 10)%nat then ascii_of_nat (48 + n) else ascii_of_nat (87 + n).

(** [QuoteJSONString] *)
Definition escape_char (c : ascii) : string :=
  let n := nat_of_ascii c in
  if Ascii.eqb c dquote then String backslash dq
  else if Ascii.eqb c backslash then String backslash (String backslash EmptyString)
  else if (n =? 8)%nat then String backslash "b"
  else if (n =? 9)%nat then String backslash "t"
  else if (n =? 10)%nat then String backslash "n"
  else if (n =? 12)%nat then String backslash "f"
  else if (n =? 13)%nat then String backslash "r"
  else if (n <? 32)%nat then
    String backslash
      ("u00" ++ String (hex_digit (n / 16))
                  (String (hex_digit (n mod 16)) EmptyString))
  else String c EmptyString.

Fixpoint escape (s : string) : string :=
  match s with
  | EmptyString => EmptyString
  | String c t => escape_char c ++ escape t
  end.

Definition QuoteJSONString (s : string) : string := dq ++ escape s ++ dq.

Definition newline : string := String (ascii_of_nat 10) EmptyString.

Definition is_empty (s : string) : bool :=
  match s with
  | EmptyString => true
  | _ => false
  end.

(** What [SerializeJSONObject] and [SerializeJSONArray] put after the
    opening bracket, between two items, before the closing bracket and
    after a key. *)
Definition opening (gap indent : string) : string :=
  if is_empty gap then EmptyString else newline ++ indent.

Definition separator (gap indent : string) : string :=
  "," ++ opening gap indent.

Definition closing (gap stepback : string) : string :=
  if is_empty gap then EmptyString else newline ++ stepback.

Definition colon (gap : string) : string :=
  if is_empty gap then ":" else ": ".

(** [JSON.stringify(v, null, gap)] at the indentation [indent]; a number
    that is not finite is written [null]. *)
Fixpoint serialize (gap indent : string) (v : value) {struct v} : string :=
  match v with
  | JNull => "null"
  | JBool b => if b then "true" else "false"
  | JNumber x => if is_finite x then Number_toString x else "null"
  | JString s => QuoteJSONString s
  | JArray l =>
      match l with
      | [] => "[]"
      | _ :: _ =>
          "[" ++ opening gap (indent ++ gap)
          ++ String.concat (separator gap (indent ++ gap))
               (List.map (serialize gap (indent ++ gap)) l)
          ++ closing gap indent ++ "]"
      end
  | JObject m =>
      match m with
      | [] => "{}"
      | _ :: _ =>
          "{" ++ opening gap (indent ++ gap)
          ++ String.concat (separator gap (indent ++ gap))
               (List.map (fun kv => let '(k, x) := kv in
                            QuoteJSONString k ++ colon gap
                            ++ serialize gap (indent ++ gap) x) m)
          ++ closing gap indent ++ "}"
      end
  end.

Definition stringify (gap : string) (v : value) : string :=
  serialize gap EmptyString v.

(** ** [JSON.parse] *)

Definition is_ws (c : ascii) : bool :=
  let n := nat_of_ascii c in
  ((n =? 32) || (n =? 9) || (n =? 10) || (n =? 13))%nat.

Fixpoint skip_ws (s : string) : string :=
  match s with
  | String c t => if is_ws c then skip_ws t else s
  | EmptyString => EmptyString
  end.

Definition is_number_start (c : ascii) : bool :=
  Ascii.eqb c "-" || is_digit c.

Definition is_number_char (c : ascii) : bool :=
  is_digit c || Ascii.eqb c "-" || Ascii.eqb c "+" || Ascii.eqb c "."
  || Ascii.eqb c "e" || Ascii.eqb c "E".

Fixpoint span_number (s : string) : string * string :=
  match s with
  | String c t =>
      if is_number_char c
      then let '(tok, r) := span_number t in (String c tok, r)
      else (EmptyString, s)
  | EmptyString => (EmptyString, EmptyString)
  end.

Definition hex_value (c : ascii) : option nat :=
  let n := nat_of_ascii c in
  if ((48 <=? n) && (n <=? 57))%nat then Some (n - 48)
  else if ((97 <=? n) && (n <=? 102))%nat then Some (n - 87)
  else if ((65 <=? n) && (n <=? 70))%nat then Some (n - 55)
  else None.

(** The code unit of a [\uXXXX] escape as bytes: itself below 128, its
    two or three bytes of UTF-8 above. *)
Definition unit_bytes (n : nat) : string :=
  if (n <? 128)%nat then String (ascii_of_nat n) EmptyString
  else if (n <? 2048)%nat then
    String (ascii_of_nat (192 + n / 64))
      (String (ascii_of_nat (128 + n mod 64)) EmptyString)
  else
    String (ascii_of_nat (224 + n / 4096))
      (String (ascii_of_nat (128 + (n / 64) mod 64))
         (String (ascii_of_nat (128 + n mod 64)) EmptyString)).

Definition prepend (p : string) (r : option (string * string))
  : option (string * string) :=
  match r with
  | Some (s, rest) => Some (p ++ s, rest)
  | None => None
  end.

(** The characters of a string literal after its opening quote, and what
    follows the closing quote. *)
Fixpoint parse_chars (s : string) : option (string * string) :=
  match s with
  | EmptyString => None
  | String c t =>
      if Ascii.eqb c dquote then Some (EmptyString, t)
      else if Ascii.eqb c backslash then
        match t with
        | String e t' =>
            if Ascii.eqb e dquote then prepend dq (parse_chars t')
            else if Ascii.eqb e backslash then
              prepend (String backslash EmptyString) (parse_chars t')
            else if Ascii.eqb e "/" then prepend "/" (parse_chars t')
            else if Ascii.eqb e "b" then
              prepend (String (ascii_of_nat 8) EmptyString) (parse_chars t')
            else if Ascii.eqb e "f" then
              prepend (String (ascii_of_nat 12) EmptyString) (parse_chars t')
            else if Ascii.eqb e "n" then
              prepend (String (ascii_of_nat 10) EmptyString) (parse_chars t')
            else if Ascii.eqb e "r" then
              prepend (String (ascii_of_nat 13) EmptyString) (parse_chars t')
            else if Ascii.eqb e "t" then
              prepend (String (ascii_of_nat 9) EmptyString) (parse_chars t')
            else if Ascii.eqb e "u" then
              match t' with
              | String h1 (String h2 (String h3 (String h4 t''))) =>
                  match hex_value h1, hex_value h2, hex_value h3, hex_value h4 with
                  | Some a, Some b, Some c', Some d =>
                      prepend (unit_bytes (((a * 16 + b) * 16 + c') * 16 + d))
                              (parse_chars t'')
                  | _, _, _, _ => None
                  end
              | _ => None
              end
            else None
        | EmptyString => None
        end
      else if (nat_of_ascii c <? 32)%nat then None
      else prepend (String c EmptyString) (parse_chars t)
  end.

Fixpoint strip_prefix (p s : string) : option string :=
  match p, s with
  | EmptyString, _ => Some s
  | String a p', String b s' => if Ascii.eqb a b then strip_prefix p' s' else None
  | String _ _, EmptyString => None
  end.

Definition literal (word : string) (v : value) (s : string)
  : option (value * string) :=
  match strip_prefix word s with
  | Some rest => Some (v, rest)
  | None => None
  end.

(** A value at the head of [s], and the text after it. *)
Fixpoint parse_value (fuel : nat) (s : string) {struct fuel}
  : option (value * string) :=
  match fuel with
  | O => None
  | S f =>
      match skip_ws s with
      | EmptyString => None
      | String c t =>
          if is_number_start c then
            let '(tok, rest) := span_number (String c t) in
            match parse_number tok with
            | Some x => Some (JNumber x, rest)
            | None => None
            end
          else if Ascii.eqb c dquote then
            match parse_chars t with
            | Some (str, rest) => Some (JString str, rest)
            | None => None
            end
          else if Ascii.eqb c "[" then
            match skip_ws t with
            | EmptyString => None
            | String c' rest =>
                if Ascii.eqb c' "]" then Some (JArray [], rest)
                else parse_elements f (String c' rest) []
            end
          else if Ascii.eqb c "{" then
            match skip_ws t with
            | EmptyString => None
            | String c' rest =>
                if Ascii.eqb c' "}" then Some (JObject [], rest)
                else parse_members f (String c' rest) []
            end
          else if Ascii.eqb c "t" then literal "true" (JBool true) (String c t)
          else if Ascii.eqb c "f" then literal "false" (JBool false) (String c t)
          else if Ascii.eqb c "n" then literal "null" JNull (String c t)
          else None
      end
  end
with parse_elements (fuel : nat) (s : string) (acc : list value) {struct fuel}
  : option (value * string) :=
  match fuel with
  | O => None
  | S f =>
      match parse_value f s with
      | Some (v, r) =>
          match skip_ws r with
          | EmptyString => None
          | String c r' =>
              if Ascii.eqb c "," then parse_elements f r' (v :: acc)
              else if Ascii.eqb c "]" then Some (JArray (rev (v :: acc)), r')
              else None
          end
      | None => None
      end
  end
with parse_members (fuel : nat) (s : string) (acc : list (string * value))
  {struct fuel} : option (value * string) :=
  match fuel with
  | O => None
  | S f =>
      match skip_ws s with
      | String c t =>
          if Ascii.eqb c dquote then
            match parse_chars t with
            | Some (k, r) =>
                match skip_ws r with
                | EmptyString => None
                | String c1 r' =>
                    if Ascii.eqb c1 ":" then
                      match parse_value f r' with
                      | Some (v, r'') =>
                          match skip_ws r'' with
                          | EmptyString => None
                          | String c2 r3 =>
                              if Ascii.eqb c2 ","
                              then parse_members f r3 ((k, v) :: acc)
                              else if Ascii.eqb c2 "}"
                              then Some (JObject (rev ((k, v) :: acc)), r3)
                              else None
                          end
                      | None => None
                      end
                    else None
                end
            | None => None
            end
          else None
      | EmptyString => None
      end
  end.

(** [JSON.parse]: [None] is the SyntaxError. *)
Definition parse (s : string) : option value :=
  match parse_value (String.length s) s with
  | Some (v, rest) => if is_empty (skip_ws rest) then Some v else None
  | None => None
  end.

(** Property access: the last member with the key. *)
Fixpoint get (m : list (string * value)) (k : string) : option value :=
  match m with
  | [] => None
  | (k', v) :: m' =>
      match get m' k with
      | Some x => Some x
      | None => if String.eqb k' k then Some v else None
      end
  end.

(** [!v] *)
Definition falsy (v : value) : bool :=
  match v with
  | JNull => true
  | JBool b => negb b
  | JNumber x => negb (truthy x)
  | JString s => is_empty s
  | JArray _ | JObject _ => false
  end.

(** ** Vocabulary of the round trip *)

Fixpoint all_chars (p : ascii -> bool) (s : string) : bool :=
  match s with
  | EmptyString => true
  | String c t => p c && all_chars p t
  end.

Definition starts_with (p : ascii -> bool) (s : string) : bool :=
  match s with
  | EmptyString => false
  | String c _ => p c
  end.

(** A number that [JSON.stringify] writes as a numeric token which
    [JSON.parse] reads back as the same number.  ECMAScript promises it
    of every finite number but [-0]; here it is checked by evaluation. *)
Definition number_ok (x : float) : bool :=
  is_finite x
  && starts_with is_number_start (Number_toString x)
  && all_chars is_number_char (Number_toString x)
  && match parse_number (Number_toString x) with
     | Some y => PrimFloat.Leibniz.eqb y x
     | None => false
     end.

(** A document all of whose numbers are such. *)
Fixpoint clean (v : value) : bool :=
  match v with
  | JNumber x => number_ok x
  | JArray l => forallb clean l
  | JObject m => forallb (fun kv => let '(_, x) := kv in clean x) m
  | _ => true
  end.

(** The text after a number does not go on as a number. *)
Definition stops_number (rest : string) : bool :=
  negb (starts_with is_number_char rest).

(** The characters a serialized value can start with. *)
Definition value_start (c : ascii) : bool :=
  is_number_start c || Ascii.eqb c dquote || Ascii.eqb c "[" || Ascii.eqb c "{"
  || Ascii.eqb c "t" || Ascii.eqb c "f" || Ascii.eqb c "n".

Definition colon_space (gap : string) : string :=
  if is_empty gap then EmptyString else " ".

(** A document whose text is read back, wherever it stands. *)
Definition reads_back (v : value) : Prop :=
  forall gap indent w rest fuel,
    all_chars is_ws gap = true -> all_chars is_ws indent = true ->
    all_chars is_ws w = true -> stops_number rest = true ->
    String.length (serialize gap indent v) <= fuel ->
    parse_value fuel (w ++ serialize gap indent v ++ rest) = Some (v, rest).

Definition elements_text (gap indent : string) (l : list value) : string :=
  String.concat (separator gap indent) (List.map (serialize gap indent) l).

Definition member_text (gap indent : string) (kv : string * value) : string :=
  let '(k, x) := kv in
  QuoteJSONString k ++ colon gap ++ serialize gap indent x.

Definition members_text (gap indent : string) (m : list (string * value))
  : string :=
  String.concat (separator gap indent) (List.map (member_text gap indent) m).

End JSON.

(** ** Reports as documents *)

Section Documents.

#[local] Open Scope string_scope.

Definition present {A : Type} (k : string) (f : A -> JSON.value) (o : option A)
  : list (string * JSON.value) :=
  match o with
  | Some x => [(k, f x)]
  | None => []
  end.

(** The object of a record: the properties that are not [undefined], in
    the order of the interface. *)
Definition encode_record (r : CountryData float) : JSON.value :=
  JSON.JObject
    (present "country" JSON.JString (country r)
     ++ present "cost" JSON.JNumber (cost r)
     ++ present "revenue" JSON.JNumber (revenue r)
     ++ present "profit" JSON.JNumber (profit r)
     ++ present "roi" JSON.JNumber (roi r)
     ++ present "status" JSON.JString (status r))%list.

Definition encode_summary (s : Summary float) : JSON.value :=
  JSON.JObject
    [("totalCost", JSON.JNumber (totalCost s));
     ("totalRevenue", JSON.JNumber (totalRevenue s));
     ("netProfit", JSON.JNumber (netProfit s));
     ("totalRoi", JSON.JNumber (totalRoi s))].

Definition encode_details (d : list (CountryData float)) : JSON.value :=
  JSON.JArray (List.map encode_record d).

Definition encode_strings (l : list string) : JSON.value :=
  JSON.JArray (List.map JSON.JString l).

Definition encode_result (R : AnalysisResult float) : JSON.value :=
  JSON.JObject
    (present "summary" encode_summary (summary R)
     ++ present "details" encode_details (details R)
     ++ present "badCountries" encode_strings (badCountries R)
     ++ present "recommendations" encode_strings (recommendations R))%list.

(** Reading a document at the types of the interfaces.  The outer
    [None] of a reading says that a property holds a value of another
    type than the declared one: such documents are outside this model. *)
Definition number_property (m : list (string * JSON.value)) (k : string)
  : option (option float) :=
  match JSON.get m k with
  | None => Some None
  | Some (JSON.JNumber x) => Some (Some x)
  | Some _ => None
  end.

Definition string_property (m : list (string * JSON.value)) (k : string)
  : option (option string) :=
  match JSON.get m k with
  | None => Some None
  | Some (JSON.JString s) => Some (Some s)
  | Some _ => None
  end.

Definition decode_record (v : JSON.value) : option (CountryData float) :=
  match v with
  | JSON.JObject m =>
      match string_property m "country", number_property m "cost",
            number_property m "revenue", number_property m "profit",
            number_property m "roi", string_property m "status" with
      | Some c, Some co, Some re, Some p, Some ro, Some st =>
          Some {| country := c; cost := co; revenue := re; profit := p;
                  roi := ro; status := st |}
      | _, _, _, _, _, _ => None
      end
  | _ => None
  end.

Definition decode_string (v : JSON.value) : option string :=
  match v with
  | JSON.JString s => Some s
  | _ => None
  end.

Fixpoint decode_list {A : Type} (f : JSON.value -> option A)
  (l : list JSON.value) : option (list A) :=
  match l with
  | [] => Some []
  | v :: l' =>
      match f v, decode_list f l' with
      | Some a, Some r => Some (a :: r)
      | _, _ => None
      end
  end.

Definition decode_array {A : Type} (f : JSON.value -> option A)
  (v : JSON.value) : option (list A) :=
  match v with
  | JSON.JArray l => decode_list f l
  | _ => None
  end.

(** A summary without one of its four numbers is outside the model as
    well. *)
Definition decode_summary (v : JSON.value) : option (Summary float) :=
  match v with
  | JSON.JObject m =>
      match number_property m "totalCost", number_property m "totalRevenue",
            number_property m "netProfit", number_property m "totalRoi" with
      | Some (Some tc), Some (Some tr), Some (Some np), Some (Some ro) =>
          Some {| totalCost := tc; totalRevenue := tr; netProfit := np;
                  totalRoi := ro |}
      | _, _, _, _ => None
      end
  | _ => None
  end.

(** A property of the document that the import tests with [!]: a falsy
    value is as good as none. *)
Definition tested_property {A : Type} (f : JSON.value -> option A)
  (m : list (string * JSON.value)) (k : string) : option (option A) :=
  match JSON.get m k with
  | None => Some None
  | Some v =>
      if JSON.falsy v then Some None
      else match f v with
           | Some a => Some (Some a)
           | None => None
           end
  end.

(** [importedData] after [JSON.parse]: [Some None] stands for a value
    without a [details] property (a primitive, [null], an array). *)
Definition decode_document (v : JSON.value)
  : option (option (AnalysisResult float)) :=
  match v with
  | JSON.JObject m =>
      match tested_property decode_summary m "summary",
            tested_property (decode_array decode_record) m "details",
            tested_property (decode_array decode_string) m "badCountries",
            tested_property (decode_array decode_string) m "recommendations" with
      | Some s, Some d, Some b, Some r =>
          Some (Some {| summary := s; details := d; badCountries := b;
                        recommendations := r |})
      | _, _, _, _ => None
      end
  | _ => Some None
  end.

(** ** [handleDownloadJson] and [handleDownloadHtml] ([Dashboard.tsx]) *)

Definition two_spaces : string := "  ".

(** [JSON.stringify(data, null, 2)] *)
Definition handleDownloadJson (data : AnalysisResult float) : string :=
  JSON.stringify two_spaces (encode_result data).

(** The object literal of [handleDownloadHtml]; [generatedAt] is the
    text of [new Date().toLocaleString()]. *)
Definition html_payload (data : AnalysisResult float) (generatedAt : string)
  : JSON.value :=
  JSON.JObject
    [("details", encode_details (or_nil (details data)));
     ("badCountries", encode_strings (or_nil (badCountries data)));
     ("recommendations", encode_strings (or_nil (recommendations data)));
     ("summary", encode_summary (match summary data with
                                 | Some s => s
                                 | None => zero_summary
                                 end));
     ("generatedAt", JSON.JString generatedAt)].

(** The template of [handleDownloadHtml] up to the interpolated payload;
    the pieces are the text between two double quotes. *)
Definition html_head : string :=
  String.concat JSON.dq
    [ "<!DOCTYPE html>
<html lang=";
      "en";
      ">
<head>
    <meta charset=";
      "UTF-8";
      ">
    <meta name=";
      "viewport";
      " content=";
      "width=device-width, initial-scale=1.0";
      ">
    <title>AdArbitrage Interactive Report</title>
    <script src=";
      "https://cdn.tailwindcss.com";
      "></script>
    <link href=";
      "https://fonts.googleapis.com/css2?family=Inter:wght@300;400;500;600;700&display=swap";
      " rel=";
      "stylesheet";
      ">
    <style>
        body { background-color: #0f172a; color: #e2e8f0; font-family: 'Inter', sans-serif; }
        .profit-pos { color: #10b981; }
        .profit-neg { color: #ef4444; }
        .hidden { display: none !important; }
        ::-webkit-scrollbar { width: 8px; height: 8px; }
        ::-webkit-scrollbar-track { background: #1e293b; }
        ::-webkit-scrollbar-thumb { background: #475569; border-radius: 4px; }
    </style>
</head>
<body class=";
      "p-8 max-w-6xl mx-auto";
      ">
    <div class=";
      "mb-8 border-b border-slate-700 pb-4 flex justify-between items-end";
      ">
        <div>
            <h1 class=";
      "text-3xl font-bold text-white";
      ">Analysis Report</h1>
            <p class=";
      "text-slate-400 mt-1";
      " id=";
      "date-label";
      ">Generated on...</p>
        </div>
        <div class=";
      "text-right text-xs text-slate-500";
      ">AdArbitrage AI (Offline Mode)</div>
    </div>
    <div id=";
      "hidden-banner";
      " class=";
      "hidden mb-6 bg-slate-800 border border-slate-600 rounded-lg p-3 flex flex-wrap items-center gap-2";
      ">
        <span class=";
      "text-slate-400 text-sm mr-2";
      ">Hidden Countries:</span>
        <div id=";
      "hidden-chips";
      " class=";
      "flex flex-wrap gap-2";
      "></div>
        <button onclick=";
      "app.showAll()";
      " class=";
      "text-xs text-indigo-400 hover:text-indigo-300 ml-auto font-medium cursor-pointer";
      ">Show All</button>
    </div>
    <div class=";
      "grid grid-cols-2 md:grid-cols-4 gap-4 mb-8";
      ">
        <div class=";
      "bg-slate-800 p-6 rounded-xl border border-slate-700";
      ">
            <p class=";
      "text-slate-400 text-xs uppercase tracking-wider";
      ">Total Cost</p>
            <p class=";
      "text-2xl font-bold text-red-400";
      " id=";
      "sum-cost";
      ">...</p>
        </div>
        <div class=";
      "bg-slate-800 p-6 rounded-xl border border-slate-700";
      ">
            <p class=";
      "text-slate-400 text-xs uppercase tracking-wider";
      ">Total Revenue</p>
            <p class=";
      "text-2xl font-bold text-emerald-400";
      " id=";
      "sum-rev";
      ">...</p>
        </div>
        <div class=";
      "bg-slate-800 p-6 rounded-xl border border-slate-700";
      ">
            <p class=";
      "text-slate-400 text-xs uppercase tracking-wider";
      ">Net Profit</p>
            <p class=";
      "text-2xl font-bold";
      " id=";
      "sum-profit";
      ">...</p>
        </div>
        <div class=";
      "bg-slate-800 p-6 rounded-xl border border-slate-700";
      ">
            <p class=";
      "text-slate-400 text-xs uppercase tracking-wider";
      ">Total ROI</p>
            <p class=";
      "text-2xl font-bold";
      " id=";
      "sum-roi";
      ">...</p>
        </div>
    </div>
    <div class=";
      "grid md:grid-cols-2 gap-6 mb-8";
      ">
        <div class=";
      "bg-slate-800 p-6 rounded-xl border border-slate-700";
      ">
            <h3 class=";
      "font-bold text-white mb-4 flex items-center gap-2 text-lg";
      ">
                <span class=";
      "text-red-500";
      ">⚠</span> Bad Countries (Block List)
            </h3>
            <div id=";
      "bad-countries-list";
      " class=";
      "flex flex-wrap gap-2";
      "></div>
        </div>
        <div class=";
      "bg-slate-800 p-6 rounded-xl border border-slate-700";
      ">
            <h3 class=";
      "font-bold text-white mb-4 text-lg";
      ">Recommendations</h3>
            <ul id=";
      "rec-list";
      " class=";
      "list-disc list-inside text-sm text-slate-300 space-y-2";
      "></ul>
        </div>
    </div>
    <div class=";
      "bg-slate-800 rounded-xl border border-slate-700 overflow-hidden";
      ">
        <div class=";
      "p-4 border-b border-slate-700 bg-slate-900/50 flex justify-between";
      ">
            <h3 class=";
      "font-semibold text-white";
      ">Detailed Breakdown</h3>
            <span class=";
      "text-xs text-slate-400";
      " id=";
      "row-count";
      "></span>
        </div>
        <table class=";
      "w-full text-left text-sm text-slate-400";
      ">
            <thead class=";
      "bg-slate-900 text-slate-200 uppercase font-medium";
      ">
                <tr>
                    <th class=";
      "px-6 py-3";
      ">Country</th>
                    <th class=";
      "px-6 py-3";
      ">Cost</th>
                    <th class=";
      "px-6 py-3";
      ">Revenue</th>
                    <th class=";
      "px-6 py-3";
      ">Profit</th>
                    <th class=";
      "px-6 py-3";
      ">ROI</th>
                    <th class=";
      "px-6 py-3";
      ">Status</th>
                    <th class=";
      "px-6 py-3 text-right";
      ">Actions</th>
                </tr>
            </thead>
            <tbody id=";
      "table-body";
      " class=";
      "divide-y divide-slate-700";
      "></tbody>
        </table>
    </div>
    <script>
        const DATA = " ].

(** The template after the payload. *)
Definition html_tail : string :=
  String.concat JSON.dq
    [ ";
        const app = {
            hidden: [],
            init: function() {
                document.getElementById('date-label').textContent = 'Generated on ' + DATA.generatedAt;
                const recList = document.getElementById('rec-list');
                (DATA.recommendations || []).forEach(r => {
                    const li = document.createElement('li');
                    li.textContent = r;
                    recList.appendChild(li);
                });
                this.render();
            },
            formatMoney: function(n) { return '$' + (n || 0).toFixed(2); },
            render: function() {
                const visible = (DATA.details || []).filter(d => !this.hidden.includes(d.country));
                const tCost = visible.reduce((s, i) => s + (i.cost || 0), 0);
                const tRev = visible.reduce((s, i) => s + (i.revenue || 0), 0);
                const profit = tRev - tCost;
                const roi = tCost > 0 ? (profit / tCost) * 100 : 0;
                document.getElementById('sum-cost').textContent = this.formatMoney(tCost);
                document.getElementById('sum-rev').textContent = this.formatMoney(tRev);
                const pEl = document.getElementById('sum-profit');
                pEl.textContent = this.formatMoney(profit);
                pEl.className = 'text-2xl font-bold ' + (profit >= 0 ? 'profit-pos' : 'profit-neg');
                const rEl = document.getElementById('sum-roi');
                rEl.textContent = roi.toFixed(1) + '%';
                rEl.className = 'text-2xl font-bold ' + (roi >= 0 ? 'profit-pos' : 'profit-neg');
                const banner = document.getElementById('hidden-banner');
                const chips = document.getElementById('hidden-chips');
                chips.innerHTML = '';
                if (this.hidden.length > 0) {
                    banner.classList.remove('hidden');
                    this.hidden.forEach(c => {
                        const btn = document.createElement('button');
                        btn.className = 'bg-slate-700 hover:bg-slate-600 text-white text-xs px-2 py-1 rounded flex items-center gap-1 transition-colors cursor-pointer';
                        btn.innerHTML = c + ' &times;';
                        btn.onclick = () => this.toggle(c);
                        chips.appendChild(btn);
                    });
                } else {
                    banner.classList.add('hidden');
                }
                const badContainer = document.getElementById('bad-countries-list');
                badContainer.innerHTML = '';
                const visibleBad = (DATA.badCountries || []).filter(c => !this.hidden.includes(c));
                if (visibleBad.length) {
                    visibleBad.forEach(c => {
                        const s = document.createElement('span');
                        s.className = 'px-2 py-1 bg-red-900/50 border border-red-500/30 text-red-200 text-sm font-bold rounded';
                        s.textContent = c;
                        badContainer.appendChild(s);
                    });
                } else {
                    badContainer.innerHTML = '<span class=";
      "text-slate-500 text-sm";
      ">No significant losses in visible data.</span>';
                }
                document.getElementById('row-count').textContent = 'Showing ' + visible.length + ' entries';
                const tbody = document.getElementById('table-body');
                tbody.innerHTML = visible.map(row => {
                    const statusClass = row.status === 'PROFITABLE' ? 'bg-emerald-900 text-emerald-300' :
                                      row.status === 'LOSS' ? 'bg-red-900 text-red-300' : 'bg-yellow-900 text-yellow-300';
                    const profitClass = row.profit >= 0 ? 'profit-pos' : 'profit-neg';
                    const roiClass = row.roi >= 0 ? 'profit-pos' : 'profit-neg';
                    return `
                    <tr class=";
      "hover:bg-slate-700/50";
      ">
                        <td class=";
      "px-6 py-4 font-medium text-white";
      ">${row.country}</td>
                        <td class=";
      "px-6 py-4";
      ">${this.formatMoney(row.cost)}</td>
                        <td class=";
      "px-6 py-4";
      ">${this.formatMoney(row.revenue)}</td>
                        <td class=";
      "px-6 py-4 font-bold ${profitClass}";
      ">${this.formatMoney(row.profit)}</td>
                        <td class=";
      "px-6 py-4 ${roiClass}";
      ">${(row.roi || 0).toFixed(1)}%</td>
                        <td class=";
      "px-6 py-4";
      "><span class=";
      "px-2 py-1 rounded text-xs font-bold ${statusClass}";
      ">${row.status}</span></td>
                        <td class=";
      "px-6 py-4 text-right";
      ">
                             <button onclick=";
      "app.toggle('${row.country}')";
      " class=";
      "text-slate-500 hover:text-red-400 cursor-pointer";
      " title=";
      "Hide";
      ">
                                <svg class=";
      "w-5 h-5";
      " fill=";
      "none";
      " stroke=";
      "currentColor";
      " viewBox=";
      "0 0 24 24";
      "><path stroke-linecap=";
      "round";
      " stroke-linejoin=";
      "round";
      " stroke-width=";
      "2";
      " d=";
      "M13.875 18.825A10.05 10.05 0 0112 19c-4.478 0-8.268-2.943-9.543-7a9.97 9.97 0 011.563-3.029m5.858.908a3 3 0 114.243 4.243M9.878 9.878l4.242 4.242M9.88 9.88l-3.29-3.29m7.532 7.532l3.29 3.29M3 3l3.59 3.59m0 0A9.953 9.953 0 0112 5c4.478 0 8.268 2.943 9.543 7a10.025 10.025 0 01-4.132 5.411m0 0L21 21";
      " /></svg>
                             </button>
                        </td>
                    </tr>`;
                }).join('');
            },
            toggle: function(country) {
                if (this.hidden.includes(country)) {
                    this.hidden = this.hidden.filter(c => c !== country);
                } else {
                    this.hidden.push(country);
                }
                this.render();
            },
            showAll: function() {
                this.hidden = [];
                this.render();
            }
        };
        app.init();
    </script>
</body>
</html>" ].

Definition handleDownloadHtml (data : AnalysisResult float)
  (generatedAt : string) : string :=
  html_head ++ JSON.stringify EmptyString (html_payload data generatedAt)
  ++ html_tail.

(** ** Reading a file ([handleImportFile], first part) *)

(** [String.prototype.endsWith] *)
Definition endsWith (s suffix : string) : bool :=
  String.eqb
    (String.substring (String.length s - String.length suffix)
                      (String.length suffix) s)
    suffix
  && (String.length suffix <=? String.length s)%nat.

(** The text before the first occurrence of a closing brace followed by
    a semicolon. *)
Fixpoint until_close (s : string) : option string :=
  match s with
  | EmptyString => None
  | String c t =>
      match JSON.strip_prefix "};" s with
      | Some _ => Some EmptyString
      | None =>
          match until_close t with
          | Some body => Some (String c body)
          | None => None
          end
      end
  end.

(** The first group of the leftmost match of the regular expression
    [const DATA = ({.*?});] with the flag [s]: from the opening brace
    after the first [const DATA = ] that is followed by one, as far as
    the next closing brace that has a semicolon after it. *)
Fixpoint match_DATA (text : string) : option string :=
  match text with
  | EmptyString => None
  | String _ t =>
      match JSON.strip_prefix "const DATA = {" text with
      | Some after =>
          match until_close after with
          | Some body => Some ("{" ++ body ++ "}")
          | None => match_DATA t
          end
      | None => match_DATA t
      end
  end.

(** The first closing brace with a semicolon after it closes the text. *)
Definition closes_only_at_end (J : string) : bool :=
  match J with
  | String _ body =>
      match until_close (body ++ ";") with
      | Some b => String.eqb (b ++ "}") body
      | None => false
      end
  | EmptyString => false
  end.

(** What the [if]/[else if] on the file name leaves in [importedData]. *)
Inductive Reading :=
| Threw                              (* [JSON.parse] raised a SyntaxError *)
| Parsed (v : option JSON.value).    (* [None] is [null] *)

Definition read_file (name text : string) : Reading :=
  if endsWith name ".json" then
    match JSON.parse text with
    | Some v => Parsed (Some v)
    | None => Threw
    end
  else if endsWith name ".html" then
    match match_DATA text with
    | Some group =>
        match JSON.parse group with
        | Some v => Parsed (Some v)
        | None => Threw
        end
    | None => Parsed None
    end
  else Parsed None.

(** [handleImportFile] on the name and the text of the chosen file.  The
    answer is [None] for a document outside the model (see
    [decode_document]). *)
Definition handleImportFile (current : option (AnalysisResult float))
  (name text : string) : option (Outcome float) :=
  match read_file name text with
  | Threw => Some LoadFailed
  | Parsed None => Some InvalidFormat
  | Parsed (Some v) =>
      match decode_document v with
      | Some importedData => Some (import_document current importedData)
      | None => None
      end
  end.

End Documents.

(** ** Vocabulary of the statements *)

(** [l1] is [l2] with some elements left out, the others in their order. *)
Inductive subsequence {A : Type} : list A -> list A -> Prop :=
| subsequence_nil : subsequence [] []
| subsequence_skip x l1 l2 : subsequence l1 l2 -> subsequence l1 (x :: l2)
| subsequence_keep x l1 l2 : subsequence l1 l2 -> subsequence (x :: l1) (x :: l2).

Section Vocabulary.

Context {num : Type} `{Number num}.

(** A map is well keyed when every entry sits under the country of its
    record and no key occurs twice. *)
Definition well_keyed (m : Map num) : Prop :=
  Forall (fun kv => fst kv = country (snd kv)) m /\ NoDup (List.map fst m).

(** The record of a country in a list of records (the first one). *)
Definition find_country (l : list (CountryData num)) (k : option string)
  : option (CountryData num) :=
  find (fun d => key_eqb (country d) k) l.

(** What the second loop leaves under a key. *)
Definition merged_with (acc : option (CountryData num)) (y : CountryData num)
  : CountryData num :=
  match acc with
  | Some e => merge_existing e y
  | None => y
  end.

(** The record the merge leaves for a country, from the records the two
    inputs have for it. *)
Definition merged_record (a b : option (CountryData num))
  : option (CountryData num) :=
  match a, b with
  | Some x, Some y => Some (merge_existing x y)
  | Some x, None => Some x
  | None, Some y => Some y
  | None, None => None
  end.

Definition merged_details (bd d : list (CountryData num))
  : list (CountryData num) :=
  Map_values (mergedDetailsMap bd d).

(** A report the merge branch accepts as its base, with the uniqueness of
    countries the data model asks of [details]. *)
Definition mergeable (R : AnalysisResult num) : Prop :=
  exists d bb br,
    details R = Some d /\ badCountries R = Some bb /\
    recommendations R = Some br /\ NoDup (List.map country d).

(** [details] viewed as a mapping keyed by country. *)
Definition record_for (R : AnalysisResult num) (k : option string)
  : option (CountryData num) :=
  find_country (or_nil (details R)) k.

Definition same_fields (R1 R2 : AnalysisResult num) : Prop :=
  (forall k, record_for R1 k = record_for R2 k) /\ summary R1 = summary R2.

End Vocabulary.

(** A record in which an absent cost or revenue has been written as [0]. *)
Definition with_defaults {num} `{Number num} (r : CountryData num)
  : CountryData num :=
  {| country := country r;
     cost := match cost r with Some c => Some c | None => Some zero end;
     revenue := match revenue r with Some v => Some v | None => Some zero end;
     profit := profit r;
     roi := roi r;
     status := status r |}.

(** ** Reports used as examples *)

#[local] Set Warnings "-inexact-float".

Definition record (c : string) (co re p ro : float) (st : string)
  : CountryData float :=
  {| country := Some c; cost := Some co; revenue := Some re;
     profit := Some p; roi := Some ro; status := Some st |}.

Definition report (s : option (Summary float)) (d : list (CountryData float))
  : AnalysisResult float :=
  {| summary := s; details := Some d;
     badCountries := Some []; recommendations := Some [] |}.

Definition totals (tc tr np ro : float) : Summary float :=
  {| totalCost := tc; totalRevenue := tr; netProfit := np; totalRoi := ro |}.

(** The merge example of the specification. *)
Definition example_base : AnalysisResult float :=
  report (Some (totals 100 150 50 50))
         [record "India" 100 150 50 50 PROFITABLE].

Definition example_incoming : AnalysisResult float :=
  report (Some (totals 60 25 (-35) (-58.333333333333336)))
         [record "India" 50 20 (-30) (-60) LOSS;
          record "Brazil" 10 5 (-5) (-50) LOSS].

Definition example_merged : AnalysisResult float :=
  report (Some (totals 160 175 15 9.375))
         [record "India" 150 170 20 13.333333333333334 PROFITABLE;
          record "Brazil" 10 5 (-5) (-50) LOSS].

(** A legacy document: records with a cost and a revenue only, no summary. *)
Definition legacy_record (c : string) (co re : float) : CountryData float :=
  {| country := Some c; cost := Some co; revenue := Some re;
     profit := None; roi := None; status := None |}.

Definition legacy_payload : AnalysisResult float :=
  {| summary := None;
     details := Some [legacy_record "India" 100 150];
     badCountries := Some []; recommendations := Some [] |}.

(** A document whose summary does not match its records. *)
Definition stale_payload : AnalysisResult float :=
  report (Some (totals 999 0 (-999) (-100)))
         [record "India" 100 150 50 50 PROFITABLE].

(** A document with a record whose country is empty and one without. *)
Definition nameless_payload : AnalysisResult float :=
  report None
         [record EmptyString 1 2 1 100 PROFITABLE;
          {| country := None; cost := Some 3%float; revenue := Some 4%float;
             profit := None; roi := None; status := None |}].

(** A document with a negative cost. *)
Definition negative_payload : AnalysisResult float :=
  {| summary := None;
     details := Some [legacy_record "India" (-5) 3];
     badCountries := None; recommendations := None |}.

(** Three reports on one country, and three on three countries, with
    costs [0.1], [0.2] and [0.3]. *)
Definition tenth (c : string) (co : float) : AnalysisResult float :=
  report None [legacy_record c co 0].

Definition two_tenths : AnalysisResult float :=
  report None [legacy_record "Y" 0.2 0; legacy_record "Z" 0.3 0].

(** The same three reports over exact arithmetic: 1/10, 2/10 and 3/10. *)
Definition exact_tenth (c : string) (n : Z) : AnalysisResult exact :=
  {| summary := None;
     details := Some [ {| country := Some c; cost := Some (Some (n, 10%positive));
                          revenue := Some (exact_of_Z 0);
                          profit := None; roi := None; status := None |} ];
     badCountries := Some []; recommendations := Some [] |}.

Section BraceExample.

#[local] Open Scope string_scope.

(** A report with a recommendation that holds a closing brace followed
    by a semicolon, and what the regular expression of the import takes
    out of its HTML export. *)
Definition braces_report : AnalysisResult float :=
  {| summary := Some (totals 100 150 50 50);
     details := Some [record "India" 100 150 50 50 PROFITABLE];
     badCountries := Some [];
     recommendations := Some ["Track zones with {zoneid}; block the losing ones"] |}.

Definition braces_group : string :=
  String.concat JSON.dq
    [ "{"; "details"; ":[{"; "country"; ":"; "India"; ","; "cost";
      ":100,"; "revenue"; ":150,"; "profit"; ":50,"; "roi"; ":50,";
      "status"; ":"; "PROFITABLE"; "}],"; "badCountries"; ":[],";
      "recommendations"; ":["; "Track zones with {zoneid}" ].

End BraceExample.

(** * More of the application *)

(** ** Vocabulary of the merge for arbitrary details *)

(** The elements of a list in the order of their first occurrence. *)
Fixpoint distinct {A : Type} (eqb : A -> A -> bool) (l : list A) : list A :=
  match l with
  | [] => []
  | x :: l' => x :: filter (fun y => negb (eqb y x)) (distinct eqb l')
  end.

(** A key added at the end of a list of keys that does not have it. *)
Definition add_key (ks : list (option string)) (k : option string)
  : list (option string) :=
  if existsb (key_eqb k) ks then ks else ks ++ [k].

Section MergeVocabulary.

Context {num : Type} `{Number num}.

(** The records of a country, in their order. *)
Definition records_of (l : list (CountryData num)) (k : option string)
  : list (CountryData num) :=
  filter (fun y => key_eqb (country y) k) l.

(** The last record of a country. *)
Definition last_record (l : list (CountryData num)) (k : option string)
  : option (CountryData num) :=
  find_country (rev l) k.

(** The records of the import for a country, added one after the other
    to what the session has for it. *)
Definition accumulate (start : option (CountryData num))
  (l : list (CountryData num)) : option (CountryData num) :=
  fold_left (fun acc y => Some (merged_with acc y)) l start.

(** The dashboard after the countries [cs] were toggled one after the
    other, from the state in which nothing is hidden. *)
Definition toggled (d : AnalysisResult num) (cs : list (option string))
  : Dashboard num :=
  fold_left toggleVisibility cs {| data := d; hiddenCountries := [] |}.

End MergeVocabulary.

(** How many times a country occurs in a list of toggles. *)
Definition toggles_of (cs : list (option string)) (c : option string) : nat :=
  List.length (filter (fun x => key_eqb x c) cs).

(** ** The history screen ([HistoryList.tsx]) *)

Module HistoryList.

Inductive SortOrder := newest | oldest.

(** The comparator handed to [sort]. *)
Definition compare_items (sortOrder : SortOrder) (a b : HistoryItem float) : Z :=
  match sortOrder with
  | newest => (timestamp b - timestamp a)%Z
  | oldest => (timestamp a - timestamp b)%Z
  end.

(** [Array.prototype.sort] with a comparator: the sort is stable, an
    element goes behind another one only when the comparator is positive
    on the two. *)
Fixpoint insert {A : Type} (comparefn : A -> A -> Z) (x : A) (l : list A)
  : list A :=
  match l with
  | [] => [x]
  | y :: l' =>
      if (0 <? comparefn x y)%Z then y :: insert comparefn x l'
      else x :: y :: l'
  end.

Definition sort {A : Type} (comparefn : A -> A -> Z) (l : list A) : list A :=
  fold_right (insert comparefn) [] l.

(** [[...history].sort(...)] *)
Definition sortedHistory (sortOrder : SortOrder)
  (history : list (HistoryItem float)) : list (HistoryItem float) :=
  sort (compare_items sortOrder) history.

End HistoryList.

(** ** The analysis service ([services/gemini.ts]) *)

Module Gemini.

#[local] Open Scope string_scope.

(** *** Operations on strings *)

(** [s.replace(/pat/g, '')] for a pattern of literal characters: the
    occurrences are taken from the left and do not overlap.  [skip]
    counts the characters of an occurrence that are still to be left
    out. *)
Fixpoint remove_all (pat : string) (skip : nat) (s : string) : string :=
  match s with
  | EmptyString => EmptyString
  | String c t =>
      match skip with
      | S k => remove_all pat k t
      | O =>
          match JSON.strip_prefix pat s with
          | Some _ => remove_all pat (String.length pat - 1) t
          | None => String c (remove_all pat O t)
          end
      end
  end.

Definition bytes (l : list nat) : string :=
  fold_right (fun n s => String (ascii_of_nat n) s) EmptyString l.

(** The code points that [trim] removes (WhiteSpace and LineTerminator
    of ECMAScript), in UTF-8: U+0009 to U+000D, U+0020, U+00A0, U+1680,
    U+2000 to U+200A, U+2028, U+2029, U+202F, U+205F, U+3000, U+FEFF. *)
Definition white_space : list string :=
  List.map bytes
    ([[9]; [10]; [11]; [12]; [13]; [32]; [194; 160]; [225; 154; 128]]
     ++ List.map (fun k => [226; 128; k]) (seq 128 11)
     ++ [[226; 128; 168]; [226; 128; 169]; [226; 128; 175]; [226; 129; 159];
         [227; 128; 128]; [239; 187; 191]])%list.

(** The length of the first of the patterns that [s] starts with. *)
Fixpoint matched (pats : list string) (s : string) : option nat :=
  match pats with
  | [] => None
  | p :: pats' =>
      match JSON.strip_prefix p s with
      | Some _ => Some (String.length p)
      | None => matched pats' s
      end
  end.

Fixpoint trimStart_from (skip : nat) (s : string) : string :=
  match s with
  | EmptyString => EmptyString
  | String c t =>
      match skip with
      | S k => trimStart_from k t
      | O =>
          match matched white_space s with
          | Some n => trimStart_from (n - 1) t
          | None => s
          end
      end
  end.

Definition trimStart (s : string) : string := trimStart_from 0 s.

(** The text up to the white space that ends it: a character is kept
    when what starts at it is not white space only. *)
Fixpoint trimEnd (s : string) : string :=
  match s with
  | EmptyString => EmptyString
  | String c t =>
      if JSON.is_empty (trimStart s) then EmptyString
      else String c (trimEnd t)
  end.

Definition trim (s : string) : string := trimEnd (trimStart s).

(** [indexOf] and [lastIndexOf] of a character; [None] is [-1].
    Positions count bytes: the text between two positions is the same
    as with the code units of the language. *)
Fixpoint indexOf (c : ascii) (s : string) : option nat :=
  match s with
  | EmptyString => None
  | String a t =>
      if Ascii.eqb a c then Some 0
      else match indexOf c t with
           | Some n => Some (S n)
           | None => None
           end
  end.

Fixpoint lastIndexOf (c : ascii) (s : string) : option nat :=
  match s with
  | EmptyString => None
  | String a t =>
      match lastIndexOf c t with
      | Some n => Some (S n)
      | None => if Ascii.eqb a c then Some 0 else None
      end
  end.

(** [s.substring(start, end)]: the larger of the two is the end. *)
Definition substring (s : string) (start finish : nat) : string :=
  String.substring (Nat.min start finish)
                   (Nat.max start finish - Nat.min start finish) s.

(** [s.includes(pat)] *)
Fixpoint includes (s pat : string) : bool :=
  match JSON.strip_prefix pat s with
  | Some _ => true
  | None =>
      match s with
      | String _ t => includes t pat
      | EmptyString => false
      end
  end.

(** *** [analyzeArbitrageImages] *)

(** What [ai.models.generateContent] gives: a response with its [text]
    ([None] when it has none), or an exception.  The handler looks at
    nothing but the text that [JSON.stringify] makes of the exception,
    which stands for it here; the exceptions of the request are objects,
    for which [JSON.stringify] gives a text. *)
Inductive Response :=
| Reply (text : option string)
| Fault (stringified : string).

(** What is thrown inside the [try] block: an [Error] object (the one
    the function makes, or the SyntaxError of [JSON.parse]), or the
    exception of the request. *)
Inductive Thrown :=
| Error (message : string)
| RequestError (stringified : string).

(** How the promise is settled; a rejection is one with
    [new Error(message)]. *)
Inductive Settled :=
| Fulfilled (value : JSON.value)
| Rejected (message : string).

Definition missing_key : string := "API Key is missing.".

Definition invalid_format : string :=
  "Invalid JSON response format from Gemini".

Definition connection_failed : string :=
  "Connection failed. The images might be too large or the analysis took too long. Please try again with clearer or cropped screenshots.".

Definition analysis_failed : string :=
  "Failed to analyze images. Please ensure screenshots are clear and try again.".

(** [JSON.stringify(error)]: the properties of an [Error] object are not
    enumerable. *)
Definition stringify_error (e : Thrown) : string :=
  match e with
  | Error _ => "{}"
  | RequestError s => s
  end.

(** The [catch] block. *)
Definition catch (error : Thrown) : Settled :=
  if includes (stringify_error error) "code: 6"
     || includes (stringify_error error) "xhr error"
  then Rejected connection_failed
  else Rejected analysis_failed.

(** The two [replace] and the [trim]. *)
Definition clean_up (text : string) : string :=
  trim (remove_all "```" 0 (remove_all "```json" 0 text)).

(** From [indexOf] to the [else] branch: [None] is the [throw]. *)
Definition locate (text : string) : option string :=
  match indexOf "{" text, lastIndexOf "}" text with
  | Some start, Some finish => Some (substring text start (finish + 1))
  | _, _ => None
  end.

Definition syntax_error : string := "SyntaxError".

(** The function, given the key of the build and what the request
    gives.  The four arguments go into the request and nowhere else. *)
Definition analyzeArbitrageImages (API_KEY : string)
  (propellerImgBase64 kadamImgBase64 propellerMime kadamMime : string)
  (response : Response) : Settled :=
  if JSON.is_empty API_KEY then Rejected missing_key
  else
    match response with
    | Fault e => catch (RequestError e)
    | Reply t =>
        let text := match t with
                    | Some s => if JSON.is_empty s then "{}" else s
                    | None => "{}"
                    end in
        match locate (clean_up text) with
        | Some text' =>
            match JSON.parse text' with
            | Some v => Fulfilled v
            | None => catch (Error syntax_error)
            end
        | None => catch (Error invalid_format)
        end
    end.

End Gemini.

(** The characters of [s] are not [c]. *)
Definition free_of (c : ascii) (s : string) : bool :=
  JSON.all_chars (fun a => negb (Ascii.eqb a c)) s.

(** ** Values used as reports without a test *)

Section PlainReading.

#[local] Open Scope string_scope.

(** A property read at its declared type. *)
Definition property {A : Type} (f : JSON.value -> option A)
  (m : list (string * JSON.value)) (k : string) : option (option A) :=
  match JSON.get m k with
  | None => Some None
  | Some v =>
      match f v with
      | Some a => Some (Some a)
      | None => None
      end
  end.

(** A value used as an [AnalysisResult] ([as AnalysisResult], the
    entries of the stored history): [None] for a value outside the
    model. *)
Definition decode_result (v : JSON.value) : option (AnalysisResult float) :=
  match v with
  | JSON.JObject m =>
      match property decode_summary m "summary",
            property (decode_array decode_record) m "details",
            property (decode_array decode_string) m "badCountries",
            property (decode_array decode_string) m "recommendations" with
      | Some s, Some d, Some b, Some r =>
          Some {| summary := s; details := d; badCountries := b;
                  recommendations := r |}
      | _, _, _, _ => None
      end
  | _ => None
  end.

End PlainReading.

(** ** The stored history as text ([App.tsx]) *)

Section StoredHistory.

#[local] Open Scope string_scope.

(** The number of an integer, as [Date.now()] gives it, and the integer
    of a number that is one. *)
Definition number_of_Z (z : Z) : float :=
  if (z <? 0)%Z then (- JSON.round_ratio (- z) 1)%float
  else JSON.round_ratio z 1.

Definition Z_of_number (x : float) : option Z :=
  match Prim2SF x with
  | S754_zero _ => Some 0%Z
  | S754_finite s m e =>
      let magnitude :=
        if (0 <=? e)%Z then Some (Zpos m * 2 ^ e)%Z
        else if (Zpos m mod 2 ^ (- e) =? 0)%Z then Some (Zpos m / 2 ^ (- e))%Z
        else None in
      match magnitude with
      | Some n => Some (if s then (- n)%Z else n)
      | None => None
      end
  | _ => None
  end.

(** The object of an entry: [id], [timestamp], [result]. *)
Definition encode_item (i : HistoryItem float) : JSON.value :=
  JSON.JObject
    [("id", JSON.JString (id i));
     ("timestamp", JSON.JNumber (number_of_Z (timestamp i)));
     ("result", encode_result (result i))].

Definition encode_history (h : list (HistoryItem float)) : JSON.value :=
  JSON.JArray (List.map encode_item h).

(** [JSON.stringify(updatedHistory)], the text that [saveToHistory] and
    [deleteHistoryItem] store. *)
Definition stored_text (h : list (HistoryItem float)) : string :=
  JSON.stringify EmptyString (encode_history h).

(** Reading a stored entry at the types of [HistoryItem]; [None] for a
    value outside the model. *)
Definition decode_item (v : JSON.value) : option (HistoryItem float) :=
  match v with
  | JSON.JObject m =>
      match JSON.get m "id", JSON.get m "timestamp", JSON.get m "result" with
      | Some (JSON.JString i), Some (JSON.JNumber t), Some r =>
          match Z_of_number t, decode_result r with
          | Some ts, Some R => Some {| id := i; timestamp := ts; result := R |}
          | _, _ => None
          end
      | _, _, _ => None
      end
  | _ => None
  end.

(** The effect that runs when the component is mounted: the history it
    leaves, given the stored item ([None] when there is none).  The
    history stays empty when there is no item, when the item is the
    empty text and when [JSON.parse] throws. *)
Definition load_history (savedHistory : option string)
  : option (list (HistoryItem float)) :=
  match savedHistory with
  | None => Some []
  | Some text =>
      if JSON.is_empty text then Some []
      else
        match JSON.parse text with
        | Some v => decode_array decode_item v
        | None => Some []
        end
  end.

(** The time stamps that a number carries exactly. *)
Definition exact_timestamp (i : HistoryItem float) : bool :=
  match Z_of_number (number_of_Z (timestamp i)) with
  | Some z => (z =? timestamp i)%Z
  | None => false
  end.

End StoredHistory.

(** ** The component ([App.tsx]) *)

(** The [newItem] of [saveToHistory]: [uuid] and [now] are what
    [crypto.randomUUID()] and [Date.now()] give. *)
Definition newItem (uuid : string) (now : Z) (data : AnalysisResult float)
  : HistoryItem float :=
  {| id := uuid; timestamp := now; result := data |}.

Module App.

#[local] Open Scope string_scope.

(** [item.result] *)
Definition report_of (item : HistoryItem float) : AnalysisResult float :=
  result item.

Inductive AppState := UPLOAD | ANALYZING | RESULTS | ERROR | HISTORY.

Record UploadedFile := {
  file : string;            (* the File object, by its name *)
  previewUrl : string;
  base64 : string;
  mimeType : string;
  label : string
}.

(** The state of the component, and the item [ad_arbitrage_history] of
    the local storage: its text, [None] when there is none. *)
Record state := {
  appState : AppState;
  propellerFile : option UploadedFile;
  kadamFile : option UploadedFile;
  result : option (AnalysisResult float);
  errorMsg : string;
  history : list (HistoryItem float);
  ad_arbitrage_history : option string
}.

Definition setAppState (v : AppState) (st : state) : state :=
  {| appState := v; propellerFile := propellerFile st;
     kadamFile := kadamFile st; result := result st;
     errorMsg := errorMsg st; history := history st;
     ad_arbitrage_history := ad_arbitrage_history st |}.

Definition setPropellerFile (v : option UploadedFile) (st : state) : state :=
  {| appState := appState st; propellerFile := v;
     kadamFile := kadamFile st; result := result st;
     errorMsg := errorMsg st; history := history st;
     ad_arbitrage_history := ad_arbitrage_history st |}.

Definition setKadamFile (v : option UploadedFile) (st : state) : state :=
  {| appState := appState st; propellerFile := propellerFile st;
     kadamFile := v; result := result st;
     errorMsg := errorMsg st; history := history st;
     ad_arbitrage_history := ad_arbitrage_history st |}.

Definition setResult (v : option (AnalysisResult float)) (st : state) : state :=
  {| appState := appState st; propellerFile := propellerFile st;
     kadamFile := kadamFile st; result := v;
     errorMsg := errorMsg st; history := history st;
     ad_arbitrage_history := ad_arbitrage_history st |}.

Definition setErrorMsg (v : string) (st : state) : state :=
  {| appState := appState st; propellerFile := propellerFile st;
     kadamFile := kadamFile st; result := result st;
     errorMsg := v; history := history st;
     ad_arbitrage_history := ad_arbitrage_history st |}.

Definition setHistory (v : list (HistoryItem float)) (st : state) : state :=
  {| appState := appState st; propellerFile := propellerFile st;
     kadamFile := kadamFile st; result := result st;
     errorMsg := errorMsg st; history := v;
     ad_arbitrage_history := ad_arbitrage_history st |}.

(** [localStorage.setItem('ad_arbitrage_history', text)] when it
    returns. *)
Definition setItem (text : string) (st : state) : state :=
  {| appState := appState st; propellerFile := propellerFile st;
     kadamFile := kadamFile st; result := result st;
     errorMsg := errorMsg st; history := history st;
     ad_arbitrage_history := Some text |}.

(** The state of the first render, with the history that the effect
    puts into it. *)
Definition initial (h : list (HistoryItem float))
  (savedHistory : option string) : state :=
  {| appState := UPLOAD; propellerFile := None; kadamFile := None;
     result := None; errorMsg := EmptyString;
     history := h; ad_arbitrage_history := savedHistory |}.

(** The first render and the effect that loads the history, given the
    stored item: [JSON.parse] reads its text.  The answer is [None] for
    a stored text whose value is outside the model (see
    [load_history]). *)
Definition mounted (savedHistory : option string) : option state :=
  match load_history savedHistory with
  | Some h => Some (initial h savedHistory)
  | None => None
  end.

Definition loadHistoryItem (item : HistoryItem float) (st : state) : state :=
  setAppState RESULTS (setResult (Some (report_of item)) st).

Definition resetApp (st : state) : state :=
  setErrorMsg EmptyString
    (setResult None
       (setKadamFile None (setPropellerFile None (setAppState UPLOAD st)))).

(** What a call into the browser does: it returns, or it throws an
    [Error] object, given by its message ([crypto.randomUUID] is not
    there outside a secure context; [localStorage.setItem] throws when
    the quota is exceeded or the storage is refused). *)
Inductive Call (A : Type) :=
| Returns (a : A)
| Throws (message : string).

Arguments Returns {A} a.
Arguments Throws {A} message.

(** [saveToHistory], with the history of the render it belongs to.  The
    answer is the state, and the message of the exception when one was
    thrown: by [crypto.randomUUID], before anything is changed, or by
    [localStorage.setItem], after [setHistory]. *)
Definition saveToHistory (captured : list (HistoryItem float))
  (data : AnalysisResult float) (randomUUID : Call string) (now : Z)
  (localStorage_setItem : Call unit) (st : state) : state * option string :=
  match randomUUID with
  | Throws message => (st, Some message)
  | Returns uuid =>
      let updatedHistory := newItem uuid now data :: captured in
      let st' := setHistory updatedHistory st in
      match localStorage_setItem with
      | Throws message => (st', Some message)
      | Returns _ => (setItem (stored_text updatedHistory) st', None)
      end
  end.

(** [deleteHistoryItem]: an exception of [localStorage.setItem] leaves
    the handler after [setHistory]. *)
Definition deleteHistoryItem (id' : string)
  (localStorage_setItem : Call unit) (st : state) : state :=
  let updatedHistory :=
    filter (fun item => negb (String.eqb (id item) id')) (history st) in
  let st' := setHistory updatedHistory st in
  match localStorage_setItem with
  | Throws _ => st'
  | Returns _ => setItem (stored_text updatedHistory) st'
  end.

Definition upload_both : string := "Please upload both screenshots first.".

Definition unknown_error : string := "An unknown error occurred".

(** The arguments of a call of [analyzeArbitrageImages]. *)
Record Request := {
  propellerImgBase64 : string;
  kadamImgBase64 : string;
  propellerMime : string;
  kadamMime : string
}.

(** [handleAnalyze] as far as its [await]: the state, and the request
    when one is made. *)
Definition handleAnalyze_begin (st : state) : state * option Request :=
  match propellerFile st, kadamFile st with
  | Some p, Some k =>
      (setErrorMsg EmptyString (setAppState ANALYZING st),
       Some {| propellerImgBase64 := base64 p; kadamImgBase64 := base64 k;
               propellerMime := mimeType p; kadamMime := mimeType k |})
  | _, _ => (setErrorMsg upload_both st, None)
  end.

(** What the [catch] of [handleAnalyze] gets: an [Error] object with
    its message, or another value. *)
Inductive Caught :=
| IsError (message : string)
| Other.

(** What [await] gives. *)
Inductive Awaited :=
| Value (analysisData : JSON.value)
| Exception (err : Caught).

Definition await (s : Gemini.Settled) : Awaited :=
  match s with
  | Gemini.Fulfilled v => Value v
  | Gemini.Rejected message => Exception (IsError message)
  end.

(** The [catch] block of [handleAnalyze]. *)
Definition handleAnalyze_catch (err : Caught) (st : state) : state :=
  setAppState ERROR
    (setErrorMsg (match err with
                  | IsError message => message
                  | Other => unknown_error
                  end) st).

(** The rest of [handleAnalyze], run when the promise is settled.
    [saveToHistory] belongs to the render in which the handler was
    called: [captured] is the history of that render.  It is called
    inside the [try] block: its exception goes to the [catch] block,
    after [setResult].  The answer is [None] for a value outside the
    model (see [decode_result]). *)
Definition handleAnalyze_settled (captured : list (HistoryItem float))
  (awaited : Awaited) (randomUUID : Call string) (now : Z)
  (localStorage_setItem : Call unit) (st : state) : option state :=
  match awaited with
  | Value v =>
      match decode_result v with
      | Some analysisData =>
          match saveToHistory captured analysisData randomUUID now
                  localStorage_setItem (setResult (Some analysisData) st) with
          | (st', None) => Some (setAppState RESULTS st')
          | (st', Some message) =>
              Some (handleAnalyze_catch (IsError message) st')
          end
      | None => None
      end
  | Exception err => Some (handleAnalyze_catch err st)
  end.

(** What [handleImportFile] does to the state for each outcome. *)
Definition install (o : Outcome float) (st : state) : state :=
  match o with
  | Merged r => setResult (Some r) st
  | Loaded r => setAppState RESULTS (setResult (Some r) st)
  | InvalidFormat | LoadFailed => st
  end.

(** [handleImportFile] once the text of the file is there; [captured]
    is the result of the render in which the file was chosen. *)
Definition handleImportFile_settled
  (captured : option (AnalysisResult float)) (name text : string)
  (st : state) : option state :=
  match handleImportFile captured name text with
  | Some o => Some (install o st)
  | None => None
  end.

(** The handlers that wait for a promise, with what they have captured. *)
Inductive Pending :=
| PendingAnalysis (captured : list (HistoryItem float)) (request : Request)
| PendingImport (captured : option (AnalysisResult float)) (name : string).

(** Where the component runs: the key of the build, and the messages of
    the exceptions that [crypto.randomUUID] and [localStorage.setItem]
    can throw there. *)
Record Environment := {
  API_KEY : string;
  thrown : string -> Prop
}.

(** A call that returns, or throws one of the exceptions of the
    environment. *)
Definition possible {A : Type} (env : Environment) (c : Call A) : Prop :=
  match c with
  | Returns _ => True
  | Throws message => thrown env message
  end.

(** One event: a click, a chosen file, or a promise that is settled.
    A control is there on the screen that renders it; a screenshot is
    handed over when its processing is done, whatever the screen is
    then. *)
Inductive step (env : Environment)
  : state * list Pending -> state * list Pending -> Prop :=
| click_logo st ps :
    step env (st, ps) (setAppState UPLOAD st, ps)
| click_history st ps :
    step env (st, ps) (setAppState HISTORY st, ps)
| close_history st ps :
    appState st = HISTORY ->
    step env (st, ps) (setAppState UPLOAD st, ps)
| select_propeller st ps f :
    step env (st, ps) (setPropellerFile (Some f) st, ps)
| select_kadam st ps f :
    step env (st, ps) (setKadamFile (Some f) st, ps)
| click_analyze st ps request :
    appState st = UPLOAD ->
    snd (handleAnalyze_begin st) = Some request ->
    step env (st, ps)
      (fst (handleAnalyze_begin st),
       PendingAnalysis (history st) request :: ps)
| analysis_settled st ps1 ps2 captured request response randomUUID now
    localStorage_setItem st' :
    possible env randomUUID -> possible env localStorage_setItem ->
    handleAnalyze_settled captured
      (await (Gemini.analyzeArbitrageImages (API_KEY env)
                (propellerImgBase64 request) (kadamImgBase64 request)
                (propellerMime request) (kadamMime request) response))
      randomUUID now localStorage_setItem st = Some st' ->
    step env (st, (ps1 ++ PendingAnalysis captured request :: ps2)%list)
      (st', (ps1 ++ ps2)%list)
| choose_file st ps name :
    step env (st, ps) (st, PendingImport (result st) name :: ps)
| file_read st ps1 ps2 captured name text st' :
    handleImportFile_settled captured name text st = Some st' ->
    step env (st, (ps1 ++ PendingImport captured name :: ps2)%list)
      (st', (ps1 ++ ps2)%list)
| click_reset st ps :
    (appState st = RESULTS /\ result st <> None) \/ appState st = ERROR ->
    step env (st, ps) (resetApp st, ps)
| select_item st ps item :
    appState st = HISTORY -> In item (history st) ->
    step env (st, ps) (loadHistoryItem item st, ps)
| delete_item st ps item localStorage_setItem :
    appState st = HISTORY -> In item (history st) ->
    possible env localStorage_setItem ->
    step env (st, ps) (deleteHistoryItem (id item) localStorage_setItem st, ps).

(** The states the component can be in, with the handlers that wait,
    when it was mounted on the stored item [savedHistory]. *)
Definition reachable (env : Environment) (savedHistory : option string)
  (c : state * list Pending) : Prop :=
  exists st0,
    mounted savedHistory = Some st0 /\
    clos_refl_trans_n1 _ (step env) (st0, []) c.

(** What is stored is the text of the history, or it is what was stored
    when the component was mounted, the history being the one that was
    read from it. *)
Definition in_step (savedHistory : option string) (st : state) : Prop :=
  ad_arbitrage_history st = Some (stored_text (history st))
  \/ (ad_arbitrage_history st = savedHistory /\
      load_history savedHistory = Some (history st)).

End App.

(** ** What the screens print ([Dashboard.tsx], [HistoryList.tsx]) *)

Module View.

#[local] Open Scope string_scope.

(** [Number.prototype.toFixed], step 11.c: the digits [m] of the
    integer with [f] of them behind the point. *)
Definition place_point (f : nat) (m : string) : string :=
  match f with
  | O => m
  | S _ =>
      let k := String.length m in
      let m' := if (k <=? f)%nat then JSON.zeros (f + 1 - k) ++ m else m in
      let k' := if (k <=? f)%nat then (f + 1)%nat else k in
      String.substring 0 (k' - f) m' ++ "." ++ String.substring (k' - f) f m'
  end.

(** [x.toFixed(f)] for [f] from 0 to 100: a number that is not finite is
    written by [Number::toString]; so is one from [10 ^ 21] on;
    otherwise the integer [n] nearest to [x * 10 ^ f], the larger one of
    two, is written with the point [f] digits from its end. *)
Definition toFixed (f : nat) (x : float) : string :=
  match Prim2SF x with
  | S754_nan | S754_infinity _ => JSON.Number_toString x
  | S754_zero _ => place_point f "0"
  | S754_finite sg m e =>
      let N := if (0 <=? e)%Z then (Zpos m * 2 ^ e)%Z else Zpos m in
      let D := if (0 <=? e)%Z then 1%Z else (2 ^ (- e))%Z in
      let s := if sg then "-" else EmptyString in
      if (10 ^ 21 * D <=? N)%Z then s ++ JSON.Number_toString (PrimFloat.abs x)
      else
        let n := ((2 * N * 10 ^ Z.of_nat f + D) / (2 * D))%Z in
        s ++ place_point f (if (n =? 0)%Z then "0" else JSON.digits_of n)
  end.

(** [formatCurrency] of the two screens, and [formatMoney] of the
    exported page: the amount is [val || 0]. *)
Definition formatCurrency (val : option float) : string :=
  "$" ++ toFixed 2 (or_zero val).

(** [v >= 0] on a property: [undefined >= 0] is false. *)
Definition ge_zero (v : option float) : bool :=
  match v with
  | Some x => (0 <=? x)%float
  | None => false
  end.

(** The class of the status badge, on the dashboard and on the page. *)
Definition status_class (st : option string) : string :=
  match st with
  | Some x =>
      if String.eqb x PROFITABLE then "bg-emerald-900 text-emerald-300"
      else if String.eqb x LOSS then "bg-red-900 text-red-300"
      else "bg-yellow-900 text-yellow-300"
  | None => "bg-yellow-900 text-yellow-300"
  end.

(** The cells of a row of the table. *)
Record Row := {
  country_cell : string;
  cost_cell : string;
  revenue_cell : string;
  profit_cell : string;
  profit_class : string;
  roi_cell : string;
  roi_class : string;
  status_badge : string;
  status_cell : string
}.

(** A row of the table of the dashboard.  A child that is [undefined]
    renders as nothing; [row.roi.toFixed(1)] throws a TypeError when the
    record has no [roi]: [None]. *)
Definition table_row (row : CountryData float) : option Row :=
  match roi row with
  | Some r =>
      Some {| country_cell := match country row with
                              | Some c => c
                              | None => EmptyString
                              end;
              cost_cell := formatCurrency (cost row);
              revenue_cell := formatCurrency (revenue row);
              profit_cell := formatCurrency (profit row);
              profit_class := if ge_zero (profit row) then "text-emerald-400"
                              else "text-red-400";
              roi_cell := toFixed 1 r ++ "%";
              roi_class := if ge_zero (roi row) then "text-emerald-400"
                           else "text-red-400";
              status_badge := status_class (status row);
              status_cell := match status row with
                             | Some x => x
                             | None => EmptyString
                             end |}
  | None => None
  end.

(** [visibleData.map(...)] in the table: the render throws when one of
    the rows does. *)
Fixpoint table_body (rows : list (CountryData float)) : option (list Row) :=
  match rows with
  | [] => Some []
  | row :: rows' =>
      match table_row row, table_body rows' with
      | Some r, Some rs => Some (r :: rs)
      | _, _ => None
      end
  end.

(** A row of the table of the exported page (the template literal of
    [render]): [undefined] is written out, and the roi is
    [(row.roi || 0).toFixed(1)]. *)
Definition page_row (row : CountryData float) : Row :=
  {| country_cell := match country row with
                     | Some c => c
                     | None => "undefined"
                     end;
     cost_cell := formatCurrency (cost row);
     revenue_cell := formatCurrency (revenue row);
     profit_cell := formatCurrency (profit row);
     profit_class := if ge_zero (profit row) then "profit-pos"
                     else "profit-neg";
     roi_cell := toFixed 1 (or_zero (roi row)) ++ "%";
     roi_class := if ge_zero (roi row) then "profit-pos" else "profit-neg";
     status_badge := status_class (status row);
     status_cell := match status row with
                    | Some x => x
                    | None => "undefined"
                    end |}.

(** A number whose size is below [10 ^ 21]. *)
Definition below_1e21 (x : float) : bool :=
  match Prim2SF x with
  | S754_zero _ => true
  | S754_finite _ m e =>
      let N := if (0 <=? e)%Z then (Zpos m * 2 ^ e)%Z else Zpos m in
      let D := if (0 <=? e)%Z then 1%Z else (2 ^ (- e))%Z in
      negb (10 ^ 21 * D <=? N)%Z
  | _ => false
  end.

(** The size of a number as a fraction: [|x| = N / D]. *)
Definition fraction (x : float) : option (Z * Z) :=
  match Prim2SF x with
  | S754_zero _ => Some (0, 1)%Z
  | S754_finite _ m e =>
      Some (if (0 <=? e)%Z then (Zpos m * 2 ^ e, 1)%Z
            else (Zpos m, 2 ^ (- e))%Z)
  | _ => None
  end.

End View.

(** ** The script of the exported page ([Dashboard.tsx]) *)

Module Page.

#[local] Open Scope string_scope.

(** [DATA]: what the object literal of the script denotes, used as a
    report.  The literal is the text that [JSON.stringify] made of the
    payload, and such a text denotes what [JSON.parse] reads from it. *)
Definition DATA (data : AnalysisResult float) (generatedAt : string)
  : option (AnalysisResult float) :=
  match JSON.parse (JSON.stringify EmptyString (html_payload data generatedAt))
  with
  | Some v => decode_result v
  | None => None
  end.

(** [this.hidden.includes(d.country)]: the hidden countries are the
    strings that [toggle] was called with. *)
Definition includes (hidden : list string) (country : option string) : bool :=
  match country with
  | Some c => existsb (String.eqb c) hidden
  | None => false
  end.

(** [visible] of [render] *)
Definition visible (DATA : AnalysisResult float) (hidden : list string)
  : list (CountryData float) :=
  filter (fun d => negb (includes hidden (country d))) (or_nil (details DATA)).

(** [tCost], [tRev], [profit] and [roi] of [render] *)
Definition totals (DATA : AnalysisResult float) (hidden : list string)
  : Summary float :=
  let tCost := fold_left (fun s i => (s + or_zero (cost i))%float)
                 (visible DATA hidden) 0%float in
  let tRev := fold_left (fun s i => (s + or_zero (revenue i))%float)
                (visible DATA hidden) 0%float in
  let profit := (tRev - tCost)%float in
  let roi := if (0 <? tCost)%float then (profit / tCost * 100)%float
             else 0%float in
  {| totalCost := tCost; totalRevenue := tRev; netProfit := profit;
     totalRoi := roi |}.


Definition showAll (hidden : list string) : list string := [].

End Page.

(** ** The files of the downloads ([Dashboard.tsx]) *)

Section FileNames.

#[local] Open Scope string_scope.

(** The names that the downloads give their files; [date] is
    [new Date().toISOString().split('T')[0]]. *)
Definition json_file_name (date : string) : string :=
  "AdArbitrage-Data-" ++ date ++ ".json".

Definition html_file_name (date : string) : string :=
  "AdArbitrage-Interactive-" ++ date ++ ".html".

Definition image_file_name (date : string) : string :=
  "AdArbitrage-Report-" ++ date ++ ".png".


End FileNames.

(** ** More examples *)

Section MoreExamples.

#[local] Open Scope string_scope.

(** Reports in which a country occurs more than once. *)
Definition repeated_base : AnalysisResult float :=
  report None [record "India" 1 2 1 100 PROFITABLE;
               record "India" 100 150 50 50 PROFITABLE].

Definition repeated_incoming : AnalysisResult float :=
  report None [record "India" 50 20 (-30) (-60) LOSS;
               record "Brazil" 10 5 (-5) (-50) LOSS;
               record "Brazil" 10 5 (-5) (-50) LOSS;
               record "India" 1 1 0 0 BREAK_EVEN].

(** Reports with lists. *)
Definition blocklist_base : AnalysisResult float :=
  {| summary := None; details := Some [];
     badCountries := Some ["Brazil"; "Chad"];
     recommendations := Some ["Pause Brazil"] |}.

Definition blocklist_incoming : AnalysisResult float :=
  {| summary := None; details := Some [];
     badCountries := Some ["Chad"; "Peru"; "Chad"];
     recommendations := None |}.

Definition empty_report : AnalysisResult float :=
  {| summary := None; details := Some [];
     badCountries := None; recommendations := None |}.

(** The report of an empty reply: no field is there. *)
Definition empty_document : AnalysisResult float :=
  {| summary := None; details := None;
     badCountries := None; recommendations := None |}.

(** A record without a cost. *)
Definition costless_record : CountryData float :=
  {| country := Some "India"; cost := None; revenue := Some 150%float;
     profit := None; roi := None; status := None |}.

(** Two entries of the history. *)
Definition first_item : HistoryItem float :=
  newItem "3f0c1c9e-5d46-4a8e-9a57-0d2b6f1c7e11" 1793700000000 example_base.

Definition second_item : HistoryItem float :=
  newItem "9b2d7a40-1c3e-4f5a-8d6b-2e1f0a9c8b7d" 1793700600000 example_merged.

Definition screenshot (name : string) : App.UploadedFile :=
  {| App.file := name; App.previewUrl := "blob:preview";
     App.base64 := "/9j/4AAQ"; App.mimeType := "image/jpeg";
     App.label := name |}.

(** The component with both screenshots chosen on the first screen. *)
Definition ready (h : list (HistoryItem float)) (savedHistory : option string)
  : App.state :=
  App.setKadamFile (Some (screenshot "Kadam (Revenue)"))
    (App.setPropellerFile (Some (screenshot "PropellerAds (Cost)"))
       (App.initial h savedHistory)).

Definition ready_request : App.Request :=
  {| App.propellerImgBase64 := "/9j/4AAQ"; App.kadamImgBase64 := "/9j/4AAQ";
     App.propellerMime := "image/jpeg"; App.kadamMime := "image/jpeg" |}.

(** A browser in which nothing throws, and one without
    [crypto.randomUUID]. *)
Definition quiet (API_KEY : string) : App.Environment :=
  {| App.API_KEY := API_KEY; App.thrown := fun _ => False |}.

Definition not_a_function : string := "crypto.randomUUID is not a function".

Definition insecure (API_KEY : string) : App.Environment :=
  {| App.API_KEY := API_KEY;
     App.thrown := fun message => message = not_a_function |}.

(** The visibility example of the specification: three countries, of
    which India is hidden. *)
Definition three_countries : AnalysisResult float :=
  {| summary := Some (totals 150 125 (-25) (-16.666666666666664));
     details := Some [record "India" 100 50 (-50) (-50) LOSS;
                      record "Brazil" 40 60 20 50 PROFITABLE;
                      record "Chad" 10 15 5 50 PROFITABLE];
     badCountries := Some ["India"; "Chad"];
     recommendations := Some ["Pause India"] |}.

Definition india_hidden : Dashboard float :=
  toggleVisibility {| data := three_countries; hiddenCountries := [] |}
                   (Some "India").

End MoreExamples.

(** * Facts about the model *)

Section MapFacts.

Context {num : Type} `{Number num}.

Lemma key_eqb_eq (a b : option string) : key_eqb a b = true <-> a = b.
Proof.
  destruct a as [x|], b as [y|]; simpl; split; intro E;
    try discriminate; try reflexivity.
  - apply String.eqb_eq in E. now subst.
  - injection E as ->. apply String.eqb_refl.
Qed.

Lemma key_eqb_refl (a : option string) : key_eqb a a = true.
Proof. now apply key_eqb_eq. Qed.

Lemma key_eqb_neq (a b : option string) : key_eqb a b = false <-> a <> b.
Proof.
  rewrite <- key_eqb_eq. destruct (key_eqb a b); split; congruence.
Qed.

Lemma key_eqb_sym (a b : option string) : key_eqb a b = key_eqb b a.
Proof.
  destruct (key_eqb b a) eqn:E.
  - apply key_eqb_eq in E. subst. apply key_eqb_refl.
  - apply key_eqb_neq. apply key_eqb_neq in E. congruence.
Qed.

Lemma includes_In (l : list (option string)) (x : option string) :
  includes l x = true <-> In x l.
Proof.
  induction l as [|y l IH]; simpl.
  - split; [discriminate | tauto].
  - rewrite orb_true_iff, IH, key_eqb_eq. tauto.
Qed.

(** [get] after [set] *)
Lemma Map_get_set (m : Map num) (k k' : option string) (v : CountryData num) :
  Map_get (Map_set m k v) k' = if key_eqb k k' then Some v else Map_get m k'.
Proof.
  induction m as [|[k0 v0] m IH]; simpl.
  - reflexivity.
  - destruct (key_eqb k0 k) eqn:E; simpl.
    + apply key_eqb_eq in E. subst k0.
      destruct (key_eqb k k'); reflexivity.
    + rewrite IH. destruct (key_eqb k0 k') eqn:E'; [|reflexivity].
      apply key_eqb_eq in E'. subst k0. now rewrite key_eqb_sym, E.
Qed.

Lemma Map_has_get (m : Map num) (k : option string) :
  Map_has m k = match Map_get m k with Some _ => true | None => false end.
Proof.
  induction m as [|[k0 v0] m IH]; simpl; [reflexivity|].
  destruct (key_eqb k0 k); simpl; [reflexivity | exact IH].
Qed.

Lemma Map_set_keys_in (m : Map num) k v x :
  In x (List.map fst (Map_set m k v)) <-> x = k \/ In x (List.map fst m).
Proof.
  induction m as [|[k0 v0] m IH]; simpl.
  - intuition congruence.
  - destruct (key_eqb k0 k) eqn:E; simpl.
    + apply key_eqb_eq in E. subst. intuition congruence.
    + rewrite IH. intuition congruence.
Qed.

Lemma Map_set_well_keyed (m : Map num) (v : CountryData num) :
  well_keyed m -> well_keyed (Map_set m (country v) v).
Proof.
  intros [Hk Hn]. induction m as [|[k0 v0] m IH]; simpl.
  - split; repeat constructor. simpl. tauto.
  - inversion Hk as [|? ? Hk0 Hk']; subst.
    inversion Hn as [|? ? Hn0 Hn']; subst. simpl in *.
    destruct (key_eqb k0 (country v)) eqn:E.
    + apply key_eqb_eq in E. split.
      * constructor; [exact E | exact Hk'].
      * simpl. constructor; assumption.
    + destruct (IH Hk' Hn') as [IHk IHn]. split.
      * constructor; [exact Hk0 | exact IHk].
      * simpl. constructor; [|exact IHn].
        rewrite Map_set_keys_in. intros [->|Hin]; [|tauto].
        now rewrite key_eqb_refl in E.
Qed.

Lemma well_keyed_nil : well_keyed (@nil (option string * CountryData num)).
Proof. split; constructor. Qed.

Lemma find_country_values (m : Map num) (k : option string) :
  well_keyed m -> find_country (Map_values m) k = Map_get m k.
Proof.
  intros [Hk _]. unfold find_country, Map_values.
  induction Hk as [|[k0 v0] m E _ IH]; simpl; [reflexivity|].
  simpl in E. subst k0. now rewrite IH.
Qed.

Lemma values_countries (m : Map num) :
  well_keyed m -> List.map country (Map_values m) = List.map fst m.
Proof.
  intros [Hk _]. unfold Map_values. rewrite map_map.
  induction Hk as [|[k0 v0] m E _ IH]; simpl; [reflexivity|].
  simpl in E. now rewrite IH, E.
Qed.

Lemma find_country_none (l : list (CountryData num)) k :
  find_country l k = None <-> ~ In k (List.map country l).
Proof.
  unfold find_country. induction l as [|x l IH]; simpl; [tauto|].
  destruct (key_eqb (country x) k) eqn:E.
  - apply key_eqb_eq in E. split; [discriminate | tauto].
  - apply key_eqb_neq in E. rewrite IH. tauto.
Qed.

Lemma find_country_some (l : list (CountryData num)) k x :
  find_country l k = Some x -> In x l /\ country x = k.
Proof.
  intro E. apply find_some in E as [Hin Hk].
  now apply key_eqb_eq in Hk.
Qed.

Lemma find_country_In (l : list (CountryData num)) x :
  NoDup (List.map country l) ->
  In x l -> find_country l (country x) = Some x.
Proof.
  unfold find_country. induction l as [|y l IH]; simpl; [tauto|].
  intros Hn [->|Hin].
  - now rewrite key_eqb_refl.
  - inversion Hn as [|? ? Hy Hn']; subst.
    destruct (key_eqb (country y) (country x)) eqn:E; [|now apply IH].
    apply key_eqb_eq in E. exfalso. apply Hy. rewrite E. now apply in_map.
Qed.

(** ** The two loops over the map *)

Lemma base_step_well_keyed (l : list (CountryData num)) (m : Map num) :
  well_keyed m -> well_keyed (fold_left base_step l m).
Proof.
  revert m. induction l as [|x l IH]; simpl; intros m Hm; [exact Hm|].
  apply IH. now apply Map_set_well_keyed.
Qed.

Lemma Map_get_key (m : Map num) k v :
  well_keyed m -> Map_get m k = Some v -> country v = k.
Proof.
  intros Hm E. rewrite <- find_country_values in E by exact Hm.
  now apply find_country_some in E.
Qed.

(** [has] and [get] agree, so a step of the second loop is decided by
    [get] alone. *)
Lemma merge_item_get (m : Map num) (y : CountryData num) :
  merge_item m y =
  match Map_get m (country y) with
  | Some existing => Map_set m (country y) (merge_existing existing y)
  | None => Map_set m (country y) y
  end.
Proof.
  unfold merge_item. rewrite Map_has_get.
  destruct (Map_get m (country y)); reflexivity.
Qed.

Lemma merge_item_well_keyed (m : Map num) (y : CountryData num) :
  well_keyed m -> well_keyed (merge_item m y).
Proof.
  intro Hm. rewrite merge_item_get.
  destruct (Map_get m (country y)) as [e|] eqn:E.
  - pose proof (Map_get_key m _ _ Hm E) as Hc.
    rewrite <- Hc.
    change (country e) with (country (merge_existing e y)).
    now apply Map_set_well_keyed.
  - now apply Map_set_well_keyed.
Qed.

Lemma merge_items_well_keyed (l : list (CountryData num)) (m : Map num) :
  well_keyed m -> well_keyed (fold_left merge_item l m).
Proof.
  revert m. induction l as [|x l IH]; simpl; intros m Hm; [exact Hm|].
  apply IH. now apply merge_item_well_keyed.
Qed.

Lemma mergedDetailsMap_well_keyed (bd d : list (CountryData num)) :
  well_keyed (mergedDetailsMap bd d).
Proof.
  apply merge_items_well_keyed, base_step_well_keyed, well_keyed_nil.
Qed.

Lemma Map_get_merge_item (m : Map num) (y : CountryData num) k :
  Map_get (merge_item m y) k =
  if key_eqb (country y) k then Some (merged_with (Map_get m (country y)) y)
  else Map_get m k.
Proof.
  rewrite merge_item_get. unfold merged_with.
  destruct (Map_get m (country y)); now rewrite Map_get_set.
Qed.

Lemma Map_get_base (l : list (CountryData num)) (m : Map num) k :
  NoDup (List.map country l) ->
  Map_get (fold_left base_step l m) k =
  match find_country l k with
  | Some x => Some x
  | None => Map_get m k
  end.
Proof.
  revert m. induction l as [|x l IH]; simpl; intros m Hn; [reflexivity|].
  inversion Hn as [|? ? Hx Hn']; subst.
  rewrite IH by exact Hn'. unfold base_step at 1. rewrite Map_get_set.
  unfold find_country. simpl.
  destruct (key_eqb (country x) k) eqn:E.
  - apply key_eqb_eq in E. subst k.
    apply find_country_none in Hx. unfold find_country in Hx. now rewrite Hx.
  - reflexivity.
Qed.

Lemma Map_get_merged (l : list (CountryData num)) (m : Map num) k :
  NoDup (List.map country l) ->
  Map_get (fold_left merge_item l m) k =
  match find_country l k with
  | Some y => Some (merged_with (Map_get m k) y)
  | None => Map_get m k
  end.
Proof.
  revert m. induction l as [|y l IH]; simpl; intros m Hn; [reflexivity|].
  inversion Hn as [|? ? Hy Hn']; subst.
  rewrite IH by exact Hn'. rewrite Map_get_merge_item.
  unfold find_country. simpl.
  destruct (key_eqb (country y) k) eqn:E.
  - apply key_eqb_eq in E. subst k.
    apply find_country_none in Hy. unfold find_country in Hy. now rewrite Hy.
  - reflexivity.
Qed.

Lemma merged_details_find (bd d : list (CountryData num)) k :
  NoDup (List.map country bd) -> NoDup (List.map country d) ->
  find_country (merged_details bd d) k =
  merged_record (find_country bd k) (find_country d k).
Proof.
  intros Hb Hd. unfold merged_details.
  rewrite find_country_values by apply mergedDetailsMap_well_keyed.
  unfold mergedDetailsMap.
  rewrite Map_get_merged by exact Hd. rewrite Map_get_base by exact Hb.
  simpl. unfold merged_record, merged_with.
  destruct (find_country bd k), (find_country d k); reflexivity.
Qed.

Lemma merged_details_NoDup (bd d : list (CountryData num)) :
  NoDup (List.map country (merged_details bd d)).
Proof.
  unfold merged_details.
  rewrite values_countries by apply mergedDetailsMap_well_keyed.
  apply mergedDetailsMap_well_keyed.
Qed.

End MapFacts.

Section ImportFacts.

Context {num : Type} `{Number num}.

(** The merge branch, when the session's result has its three lists. *)
Lemma import_document_merged (base imp : AnalysisResult num) bd bb br d :
  details base = Some bd -> badCountries base = Some bb ->
  recommendations base = Some br -> details imp = Some d ->
  import_document (Some base) (Some imp) =
  Merged {| summary := Some (merged_summary (merged_details bd d));
            details := Some (merged_details bd d);
            badCountries :=
              Some (Array_from_Set (bb ++ or_nil (badCountries imp)));
            recommendations :=
              Some (Array_from_Set (br ++ or_nil (recommendations imp))) |}.
Proof.
  intros Hd Hb Hr Hi. unfold import_document.
  rewrite Hi, Hd, Hb, Hr. reflexivity.
Qed.

(** The load branch. *)
Lemma import_document_loaded (imp : AnalysisResult num) d :
  details imp = Some d ->
  import_document None (Some imp) = Loaded (repair imp d).
Proof. intro Hi. unfold import_document. now rewrite Hi. Qed.

Lemma merged_details_both (bd d : list (CountryData num)) x y :
  NoDup (List.map country bd) -> NoDup (List.map country d) ->
  In x bd -> In y d -> country x = country y ->
  In (merge_existing x y) (merged_details bd d).
Proof.
  intros Hb Hd Hx Hy E.
  pose proof (merged_details_find bd d (country x) Hb Hd) as F.
  rewrite (find_country_In bd x Hb Hx) in F.
  rewrite E in F at 2. rewrite (find_country_In d y Hd Hy) in F.
  now apply find_country_some in F.
Qed.

Lemma merged_details_base_only (bd d : list (CountryData num)) x :
  NoDup (List.map country bd) -> NoDup (List.map country d) ->
  In x bd -> ~ In (country x) (List.map country d) ->
  In x (merged_details bd d).
Proof.
  intros Hb Hd Hx Hn.
  pose proof (merged_details_find bd d (country x) Hb Hd) as F.
  rewrite (find_country_In bd x Hb Hx) in F.
  apply find_country_none in Hn. rewrite Hn in F.
  now apply find_country_some in F.
Qed.

Lemma merged_details_incoming_only (bd d : list (CountryData num)) y :
  NoDup (List.map country bd) -> NoDup (List.map country d) ->
  In y d -> ~ In (country y) (List.map country bd) ->
  In y (merged_details bd d).
Proof.
  intros Hb Hd Hy Hn.
  pose proof (merged_details_find bd d (country y) Hb Hd) as F.
  rewrite (find_country_In d y Hd Hy) in F.
  apply find_country_none in Hn. rewrite Hn in F.
  now apply find_country_some in F.
Qed.

End ImportFacts.

(** ** Merge as an operation on reports *)

Section MergeAlgebra.

Context {num : Type} `{Number num}.

Lemma merge_mergeable (A B : AnalysisResult num) dA bA rA dB :
  details A = Some dA -> badCountries A = Some bA ->
  recommendations A = Some rA -> details B = Some dB ->
  exists AB, merge A B = Some AB /\ mergeable AB /\
             details AB = Some (merged_details dA dB) /\
             summary AB = Some (merged_summary (merged_details dA dB)).
Proof.
  intros HdA HbA HrA HdB. unfold merge.
  rewrite (import_document_merged A B dA bA rA dB HdA HbA HrA HdB).
  eexists. split; [reflexivity|]. split; [|split; reflexivity].
  do 3 eexists. simpl. repeat split; try reflexivity.
  apply merged_details_NoDup.
Qed.

Lemma find_country_ext_perm (l1 l2 : list (CountryData num)) :
  NoDup (List.map country l1) -> NoDup (List.map country l2) ->
  (forall k, find_country l1 k = find_country l2 k) ->
  Permutation l1 l2.
Proof.
  intros H1 H2 E. apply NoDup_Permutation.
  - now apply NoDup_map_inv in H1.
  - now apply NoDup_map_inv in H2.
  - intro x. split; intro Hin.
    + apply (find_country_In _ _ H1) in Hin. rewrite E in Hin.
      now apply find_country_some in Hin.
    + apply (find_country_In _ _ H2) in Hin. rewrite <- E in Hin.
      now apply find_country_some in Hin.
Qed.

Hypothesis add_comm : forall a b : num, add a b = add b a.
Hypothesis add_assoc : forall a b c : num, add (add a b) c = add a (add b c).

Lemma sum_perm (f : CountryData num -> num) (l l' : list (CountryData num)) :
  Permutation l l' ->
  forall z, fold_left (fun s i => add s (f i)) l z =
            fold_left (fun s i => add s (f i)) l' z.
Proof.
  induction 1 as [|x l l' _ IH|x y l|l l' l'' _ IH1 _ IH2]; intro z; simpl.
  - reflexivity.
  - apply IH.
  - f_equal. rewrite !add_assoc. f_equal. apply add_comm.
  - now rewrite IH1.
Qed.

Lemma merged_summary_perm (l l' : list (CountryData num)) :
  Permutation l l' -> merged_summary l = merged_summary l'.
Proof.
  intro P. unfold merged_summary.
  rewrite (sum_perm (fun i => ToNumber (cost i)) l l' P).
  rewrite (sum_perm (fun i => ToNumber (revenue i)) l l' P).
  reflexivity.
Qed.

Lemma merge_existing_comm (x y : CountryData num) :
  country x = country y -> merge_existing x y = merge_existing y x.
Proof.
  intro E. unfold merge_existing. rewrite E.
  rewrite (add_comm (ToNumber (cost x))), (add_comm (ToNumber (revenue x))).
  reflexivity.
Qed.

Lemma merge_existing_assoc (x y z : CountryData num) :
  merge_existing (merge_existing x y) z = merge_existing x (merge_existing y z).
Proof.
  unfold merge_existing. simpl. rewrite !add_assoc. reflexivity.
Qed.

Lemma merged_record_comm (l1 l2 : list (CountryData num)) k :
  merged_record (find_country l1 k) (find_country l2 k) =
  merged_record (find_country l2 k) (find_country l1 k).
Proof.
  destruct (find_country l1 k) as [x|] eqn:E1,
           (find_country l2 k) as [y|] eqn:E2; simpl; try reflexivity.
  apply find_country_some in E1 as [_ E1], E2 as [_ E2].
  f_equal. apply merge_existing_comm. congruence.
Qed.

Lemma merged_record_assoc (a b c : option (CountryData num)) :
  merged_record (merged_record a b) c = merged_record a (merged_record b c).
Proof.
  destruct a, b, c; simpl; try reflexivity.
  f_equal. apply merge_existing_assoc.
Qed.

Lemma merged_details_comm (dA dB : list (CountryData num)) :
  NoDup (List.map country dA) -> NoDup (List.map country dB) ->
  (forall k, find_country (merged_details dA dB) k =
             find_country (merged_details dB dA) k) /\
  merged_summary (merged_details dA dB) = merged_summary (merged_details dB dA).
Proof.
  intros HA HB.
  assert (E : forall k, find_country (merged_details dA dB) k =
                        find_country (merged_details dB dA) k).
  { intro k. rewrite !merged_details_find by assumption.
    apply merged_record_comm. }
  split; [exact E|].
  apply merged_summary_perm, find_country_ext_perm;
    [apply merged_details_NoDup | apply merged_details_NoDup | exact E].
Qed.

Lemma merged_details_assoc (dA dB dC : list (CountryData num)) :
  NoDup (List.map country dA) -> NoDup (List.map country dB) ->
  NoDup (List.map country dC) ->
  (forall k, find_country (merged_details (merged_details dA dB) dC) k =
             find_country (merged_details dA (merged_details dB dC)) k) /\
  merged_summary (merged_details (merged_details dA dB) dC) =
  merged_summary (merged_details dA (merged_details dB dC)).
Proof.
  intros HA HB HC.
  pose proof (merged_details_NoDup dA dB) as HAB.
  pose proof (merged_details_NoDup dB dC) as HBC.
  assert (E : forall k,
    find_country (merged_details (merged_details dA dB) dC) k =
    find_country (merged_details dA (merged_details dB dC)) k).
  { intro k. rewrite !merged_details_find by assumption.
    apply merged_record_assoc. }
  split; [exact E|].
  apply merged_summary_perm, find_country_ext_perm;
    [apply merged_details_NoDup | apply merged_details_NoDup | exact E].
Qed.

End MergeAlgebra.

(** ** Filters and sums *)

Section FilterFacts.

Context {A : Type}.

Lemma filter_subsequence (f : A -> bool) (l : list A) :
  subsequence (filter f l) l.
Proof.
  induction l as [|x l IH]; simpl; [constructor|].
  destruct (f x); now constructor.
Qed.

Lemma filter_all (f : A -> bool) (l : list A) :
  (forall x, In x l -> f x = true) -> filter f l = l.
Proof.
  induction l as [|x l IH]; simpl; intro Hall; [reflexivity|].
  rewrite (Hall x) by now left. f_equal. apply IH. intros. apply Hall. now right.
Qed.

End FilterFacts.

Section AggregateFacts.

Context {num : Type} `{Number num}.

Lemma or_zero_with_defaults (r : CountryData num) :
  or_zero (cost (with_defaults r)) = or_zero (cost r) /\
  or_zero (revenue (with_defaults r)) = or_zero (revenue r).
Proof.
  unfold with_defaults; simpl.
  destruct (cost r), (revenue r); simpl; split; try reflexivity;
    destruct (truthy zero); reflexivity.
Qed.

Lemma sum_with_defaults (f g : CountryData num -> num) (d : list (CountryData num)) :
  (forall r, f (with_defaults r) = g r) ->
  forall z, fold_left (fun acc curr => add acc (f curr)) (List.map with_defaults d) z =
            fold_left (fun acc curr => add acc (g curr)) d z.
Proof.
  intro E. induction d as [|r d IH]; intro z; simpl; [reflexivity|].
  now rewrite IH, E.
Qed.

Lemma aggregate_with_defaults (d : list (CountryData num)) :
  aggregate (List.map with_defaults d) = aggregate d.
Proof.
  unfold aggregate.
  rewrite (sum_with_defaults (fun c => or_zero (cost c)) (fun c => or_zero (cost c)))
    by (intro r; apply or_zero_with_defaults).
  rewrite (sum_with_defaults (fun c => or_zero (revenue c)) (fun c => or_zero (revenue c)))
    by (intro r; apply or_zero_with_defaults).
  reflexivity.
Qed.

(** Every key of either loop ends up in the map. *)
Lemma merge_item_keys (m : Map num) (y : CountryData num) k :
  In k (List.map fst (merge_item m y)) <->
  k = country y \/ In k (List.map fst m).
Proof.
  rewrite merge_item_get.
  destruct (Map_get m (country y)); apply Map_set_keys_in.
Qed.

Lemma merge_items_keys (l : list (CountryData num)) (m : Map num) k :
  In k (List.map fst (fold_left merge_item l m)) <->
  In k (List.map fst m) \/ In k (List.map country l).
Proof.
  revert m. induction l as [|y l IH]; intro m; simpl; [tauto|].
  rewrite IH, merge_item_keys. intuition congruence.
Qed.

Lemma base_keys (l : list (CountryData num)) (m : Map num) k :
  In k (List.map fst (fold_left base_step l m)) <->
  In k (List.map fst m) \/ In k (List.map country l).
Proof.
  revert m. induction l as [|y l IH]; intro m; simpl; [tauto|].
  rewrite IH. unfold base_step. rewrite Map_set_keys_in.
  intuition congruence.
Qed.

Lemma merged_details_countries (bd d : list (CountryData num)) k :
  In k (List.map country (merged_details bd d)) <->
  In k (List.map country bd) \/ In k (List.map country d).
Proof.
  unfold merged_details.
  rewrite values_countries by apply mergedDetailsMap_well_keyed.
  unfold mergedDetailsMap.
  rewrite merge_items_keys, base_keys. simpl. tauto.
Qed.

End AggregateFacts.

(** * The merge *)

(** C1.  With countries unique in each report, a merge answers with a
    report in which countries are unique again; a country of both inputs
    has one record whose cost and revenue are the sums of the two, whose
    profit is revenue minus cost, whose roi is (profit / cost) * 100 when
    the cost is positive and 0 otherwise, and whose status follows the
    thresholds 0 and -0.5; a country of one input only keeps its record.
    The example of the specification gives India 150, 170, 20,
    13.333333333333334 (13.33 with two decimals), PROFITABLE, Brazil as it
    was, and the totals 160 and 175. *)
Theorem merge_sums_matching_countries :
  (forall (base incoming : AnalysisResult float) bd bb br d,
     details base = Some bd -> badCountries base = Some bb ->
     recommendations base = Some br -> details incoming = Some d ->
     NoDup (List.map country bd) -> NoDup (List.map country d) ->
     exists r md,
       import_document (Some base) (Some incoming) = Merged r /\
       details r = Some md /\ NoDup (List.map country md) /\
       (forall x y, In x bd -> In y d -> country x = country y ->
          exists z c rv p,
            In z md /\ country z = country x /\
            c = (ToNumber (cost x) + ToNumber (cost y))%float /\
            rv = (ToNumber (revenue x) + ToNumber (revenue y))%float /\
            p = (rv - c)%float /\
            cost z = Some c /\ revenue z = Some rv /\ profit z = Some p /\
            roi z = Some (if (0 <? c)%float then (p / c * 100)%float
                          else 0%float) /\
            status z = Some (if (0 <? p)%float then "PROFITABLE"%string
                             else if (p <? -0.5)%float then "LOSS"%string
                             else "BREAK_EVEN"%string)) /\
       (forall x, In x bd -> ~ In (country x) (List.map country d) -> In x md) /\
       (forall y, In y d -> ~ In (country y) (List.map country bd) -> In y md))
  /\ import_document (Some example_base) (Some example_incoming)
     = Merged example_merged.
Proof.
  split; [|vm_compute; reflexivity].
  intros base incoming bd bb br d Hd Hb Hr Hi Nb Nd.
  rewrite (import_document_merged base incoming bd bb br d Hd Hb Hr Hi).
  do 2 eexists. split; [reflexivity|]. split; [reflexivity|].
  split; [apply merged_details_NoDup|]. split; [|split].
  - intros x y Hx Hy E.
    exists (merge_existing x y). do 3 eexists.
    split; [now apply merged_details_both|].
    repeat split; reflexivity.
  - intros x Hx Hn. now apply merged_details_base_only.
  - intros y Hy Hn. now apply merged_details_incoming_only.
Qed.

Lemma merge_sums_matching_countries_witness :
  exists r md,
    import_document (Some example_base) (Some example_incoming) = Merged r /\
    details r = Some md /\
    In (record "India" 150 170 20 13.333333333333334 PROFITABLE) md /\
    In (record "Brazil" 10 5 (-5) (-50) LOSS) md.
Proof.
  destruct (proj1 merge_sums_matching_countries example_base example_incoming
              [record "India" 100 150 50 50 PROFITABLE] [] []
              [record "India" 50 20 (-30) (-60) LOSS;
               record "Brazil" 10 5 (-5) (-50) LOSS]
              eq_refl eq_refl eq_refl eq_refl)
    as (r & md & Hr & Hmd & _ & Hboth & _ & Hinc).
  - repeat constructor; simpl; tauto.
  - repeat constructor; simpl; intuition discriminate.
  - exists r, md. split; [exact Hr|]. split; [exact Hmd|]. split.
    + destruct (Hboth (record "India" 100 150 50 50 PROFITABLE)
                      (record "India" 50 20 (-30) (-60) LOSS))
        as (z & c & rv & p & Hz & Hc & -> & -> & -> & Hco & Hre & Hp & Hro & Hst);
        [simpl; tauto | simpl; tauto | reflexivity |].
      destruct z as [zc zco zre zp zro zst]; simpl in *.
      subst. exact Hz.
    + apply Hinc; [simpl; tauto|].
      simpl. intuition discriminate.
Defined.

(** ** Commutativity and associativity *)

Lemma SFadd_comm (prec emax : Z) (x y : spec_float) :
  SFadd prec emax x y = SFadd prec emax y x.
Proof.
  destruct x as [sx|sx| |sx mx ex], y as [sy|sy| |sy my ey]; simpl;
    try reflexivity.
  - destruct sx, sy; reflexivity.
  - destruct sx, sy; reflexivity.
  - rewrite (Z.min_comm ey ex). f_equal. apply Z.add_comm.
Qed.

(** Addition of binary64 numbers is commutative (it is not associative). *)
Lemma float_add_comm (x y : float) : (x + y = y + x)%float.
Proof. apply Prim2SF_inj. rewrite !add_spec. apply SFadd_comm. Qed.

(** On binary64 the records of [merge A B] and [merge B A] agree. *)
Lemma float_merged_details_comm (dA dB : list (CountryData float)) k :
  NoDup (List.map country dA) -> NoDup (List.map country dB) ->
  find_country (merged_details dA dB) k = find_country (merged_details dB dA) k.
Proof.
  intros HA HB. rewrite !merged_details_find by assumption.
  apply merged_record_comm. exact float_add_comm.
Qed.

Lemma exact_add_comm (a b : exact) : exact_add a b = exact_add b a.
Proof.
  destruct a as [[a1 a2]|], b as [[b1 b2]|]; simpl; try reflexivity.
  f_equal. f_equal; [apply Z.add_comm | apply Pos.mul_comm].
Qed.

Lemma exact_add_assoc (a b c : exact) :
  exact_add (exact_add a b) c = exact_add a (exact_add b c).
Proof.
  destruct a as [[a1 a2]|], b as [[b1 b2]|], c as [[c1 c2]|]; simpl;
    try reflexivity.
  f_equal. f_equal; [|symmetry; apply Pos.mul_assoc].
  rewrite !Pos2Z.inj_mul. ring.
Qed.

(** In an arithmetic whose addition is commutative and associative
    (exact arithmetic), merging reports with unique countries is
    commutative and associative on the details, viewed as a mapping from
    country to record, and on the summary. *)
Theorem merge_commutative_associative_exact :
  forall (num : Type) (N : Number num),
    (forall a b : num, add a b = add b a) ->
    (forall a b c : num, add (add a b) c = add a (add b c)) ->
    forall A B C : AnalysisResult num,
      mergeable A -> mergeable B -> mergeable C ->
      exists AB BA BC AB_C A_BC,
        merge A B = Some AB /\ merge B A = Some BA /\ merge B C = Some BC /\
        merge AB C = Some AB_C /\ merge A BC = Some A_BC /\
        same_fields AB BA /\ same_fields AB_C A_BC.
Proof.
  intros num N Hcomm Hassoc A B C
    (dA & bA & rA & HdA & HbA & HrA & NA)
    (dB & bB & rB & HdB & HbB & HrB & NB)
    (dC & bC & rC & HdC & HbC & HrC & NC).
  destruct (merge_mergeable A B dA bA rA dB HdA HbA HrA HdB)
    as (AB & HAB & (dAB & bAB & rAB & HdAB & HbAB & HrAB & NAB) & EAB & SAB).
  destruct (merge_mergeable B A dB bB rB dA HdB HbB HrB HdA)
    as (BA & HBA & _ & EBA & SBA).
  destruct (merge_mergeable B C dB bB rB dC HdB HbB HrB HdC)
    as (BC & HBC & (dBC & bBC & rBC & HdBC & HbBC & HrBC & NBC) & EBC & SBC).
  destruct (merge_mergeable AB C dAB bAB rAB dC HdAB HbAB HrAB HdC)
    as (AB_C & HAB_C & _ & EAB_C & SAB_C).
  destruct (merge_mergeable A BC dA bA rA dBC HdA HbA HrA HdBC)
    as (A_BC & HA_BC & _ & EA_BC & SA_BC).
  exists AB, BA, BC, AB_C, A_BC. repeat (split; [assumption|]).
  assert (dAB = merged_details dA dB) as -> by congruence.
  assert (dBC = merged_details dB dC) as -> by congruence.
  destruct (merged_details_comm Hcomm Hassoc dA dB NA NB) as [Ec Sc].
  destruct (merged_details_assoc Hcomm Hassoc dA dB dC NA NB NC) as [Ea Sa].
  unfold same_fields, record_for.
  rewrite EAB, EBA, SAB, SBA, EAB_C, EA_BC, SAB_C, SA_BC. simpl.
  repeat split; try assumption; now f_equal.
Qed.

Lemma merge_commutative_associative_exact_witness :
  exists AB BA BC AB_C A_BC,
    merge (exact_tenth "India" 1) (exact_tenth "India" 2) = Some AB /\
    merge (exact_tenth "India" 2) (exact_tenth "India" 1) = Some BA /\
    merge (exact_tenth "India" 2) (exact_tenth "India" 3) = Some BC /\
    merge AB (exact_tenth "India" 3) = Some AB_C /\
    merge (exact_tenth "India" 1) BC = Some A_BC /\
    same_fields AB BA /\ same_fields AB_C A_BC.
Proof.
  apply (merge_commutative_associative_exact exact exact_Number
           exact_add_comm exact_add_assoc);
    (do 3 eexists; simpl; repeat split; try reflexivity;
     repeat constructor; simpl; tauto).
Defined.

(** C5, as amended.  On JavaScript numbers, for reports with unique
    countries: [merge A B] and [merge B A] assign every country the same
    record, and their details are the same records, in an order that may
    differ, each summary being the sums of its details in their order;
    [merge (merge A B) C] and [merge A (merge B C)] have the same
    countries, and the same record for every country that at most two of
    the three reports have. *)
Theorem merge_commutes_on_binary64 :
  forall A B C : AnalysisResult float,
    mergeable A -> mergeable B -> mergeable C ->
    exists AB BA BC AB_C A_BC dAB dBA sAB sBA,
      merge A B = Some AB /\ merge B A = Some BA /\ merge B C = Some BC /\
      merge AB C = Some AB_C /\ merge A BC = Some A_BC /\
      (forall k, record_for AB k = record_for BA k) /\
      details AB = Some dAB /\ details BA = Some dBA /\ Permutation dAB dBA /\
      summary AB = Some sAB /\ summary BA = Some sBA /\
      totalCost sAB
        = fold_left (fun s i => (s + ToNumber (cost i))%float) dAB 0%float /\
      totalCost sBA
        = fold_left (fun s i => (s + ToNumber (cost i))%float) dBA 0%float /\
      totalRevenue sAB
        = fold_left (fun s i => (s + ToNumber (revenue i))%float) dAB 0%float /\
      totalRevenue sBA
        = fold_left (fun s i => (s + ToNumber (revenue i))%float) dBA 0%float /\
      (forall k, record_for AB_C k = None <-> record_for A_BC k = None) /\
      (forall k,
         record_for A k = None \/ record_for B k = None \/ record_for C k = None ->
         record_for AB_C k = record_for A_BC k).
Proof.
  intros A B C
    (dA & bA & rA & HdA & HbA & HrA & NA)
    (dB & bB & rB & HdB & HbB & HrB & NB)
    (dC & bC & rC & HdC & HbC & HrC & NC).
  destruct (merge_mergeable A B dA bA rA dB HdA HbA HrA HdB)
    as (AB & HAB & (dAB & bAB & rAB & HdAB & HbAB & HrAB & NAB) & EAB & SAB).
  destruct (merge_mergeable B A dB bB rB dA HdB HbB HrB HdA)
    as (BA & HBA & _ & EBA & SBA).
  destruct (merge_mergeable B C dB bB rB dC HdB HbB HrB HdC)
    as (BC & HBC & (dBC & bBC & rBC & HdBC & HbBC & HrBC & NBC) & EBC & SBC).
  destruct (merge_mergeable AB C dAB bAB rAB dC HdAB HbAB HrAB HdC)
    as (AB_C & HAB_C & _ & EAB_C & SAB_C).
  destruct (merge_mergeable A BC dA bA rA dBC HdA HbA HrA HdBC)
    as (A_BC & HA_BC & _ & EA_BC & SA_BC).
  assert (dAB = merged_details dA dB) as -> by congruence.
  assert (dBC = merged_details dB dC) as -> by congruence.
  exists AB, BA, BC, AB_C, A_BC, (merged_details dA dB), (merged_details dB dA).
  exists (merged_summary (merged_details dA dB)),
         (merged_summary (merged_details dB dA)).
  repeat (split; [assumption|]).
  assert (Ec : forall k, find_country (merged_details dA dB) k
                         = find_country (merged_details dB dA) k)
    by (intro k; now apply float_merged_details_comm).
  unfold record_for. rewrite EAB, EBA, EAB_C, EA_BC, HdA, HdB, HdC. simpl.
  split; [exact Ec|]. split; [reflexivity|]. split; [reflexivity|].
  split.
  { apply find_country_ext_perm;
      [apply merged_details_NoDup | apply merged_details_NoDup | exact Ec]. }
  split; [assumption|]. split; [assumption|].
  do 4 (split; [reflexivity|]).
  assert (F : forall k,
    find_country (merged_details (merged_details dA dB) dC) k
      = merged_record (merged_record (find_country dA k) (find_country dB k))
                      (find_country dC k) /\
    find_country (merged_details dA (merged_details dB dC)) k
      = merged_record (find_country dA k)
                      (merged_record (find_country dB k) (find_country dC k))).
  { intro k. now rewrite !merged_details_find by assumption. }
  split; intro k; destruct (F k) as [-> ->].
  - destruct (find_country dA k), (find_country dB k), (find_country dC k);
      simpl; split; intro E; (discriminate E || reflexivity).
  - intros [E|[E|E]]; rewrite E;
      destruct (find_country dA k), (find_country dB k), (find_country dC k);
      try discriminate E; reflexivity.
Qed.

Lemma merge_commutes_on_binary64_witness :
  exists AB BA dAB dBA,
    merge example_base example_incoming = Some AB /\
    merge example_incoming example_base = Some BA /\
    (forall k, record_for AB k = record_for BA k) /\
    details AB = Some dAB /\ details BA = Some dBA /\ Permutation dAB dBA.
Proof.
  destruct (merge_commutes_on_binary64 example_base example_incoming two_tenths)
    as (AB & BA & BC & AB_C & A_BC & dAB & dBA & sAB & sBA
        & HAB & HBA & _ & _ & _ & Hk & HdAB & HdBA & HP & _).
  - do 3 eexists. simpl. split; [reflexivity|]. split; [reflexivity|].
    split; [reflexivity|]. repeat constructor. simpl. tauto.
  - do 3 eexists. simpl. split; [reflexivity|]. split; [reflexivity|].
    split; [reflexivity|]. repeat constructor; simpl; intuition discriminate.
  - do 3 eexists. simpl. split; [reflexivity|]. split; [reflexivity|].
    split; [reflexivity|]. repeat constructor; simpl; intuition discriminate.
  - exists AB, BA, dAB, dBA. repeat (split; [assumption|]). exact HP.
Defined.

(** C5 on binary64: the cost of a country of three reports depends on
    the grouping (0.1 + 0.2 + 0.3), and the total of [merge A B] differs
    from the total of [merge B A] because the records are summed in the
    order of the merged details. *)
Lemma merge_not_associative_binary64 :
  exists AB BC AB_C A_BC r1 r2 XY YX s1 s2,
    merge (tenth "India" 0.1) (tenth "India" 0.2) = Some AB /\
    merge AB (tenth "India" 0.3) = Some AB_C /\
    merge (tenth "India" 0.2) (tenth "India" 0.3) = Some BC /\
    merge (tenth "India" 0.1) BC = Some A_BC /\
    record_for AB_C (Some "India"%string) = Some r1 /\
    record_for A_BC (Some "India"%string) = Some r2 /\
    cost r1 = Some 0.6000000000000001%float /\
    cost r2 = Some 0.6%float /\
    summary AB_C <> summary A_BC /\
    merge (tenth "X" 0.1) two_tenths = Some XY /\
    merge two_tenths (tenth "X" 0.1) = Some YX /\
    summary XY = Some s1 /\ summary YX = Some s2 /\
    totalCost s1 = 0.6000000000000001%float /\
    totalCost s2 = 0.6%float.
Proof.
  do 10 eexists.
  repeat (split; [vm_compute; reflexivity|]).
  split; [|repeat (split; [vm_compute; reflexivity|]); vm_compute; reflexivity].
  intro E.
  apply (f_equal (fun s => match s with
                           | Some t => PrimFloat.eqb (totalCost t) 0.6%float
                           | None => false
                           end)) in E.
  vm_compute in E. discriminate E.
Qed.

(** * Summaries *)

(** C2, as stated, fails on a direct load: the summary of the document is
    kept when it has one, whatever the records say. *)
Lemma loaded_summary_is_carried_over :
  exists r s d,
    import_document None (Some stale_payload) = Loaded r /\
    summary r = Some s /\ details r = Some d /\
    totalCost s = 999%float /\
    fold_left (fun acc c => (acc + ToNumber (cost c))%float) d 0%float
      = 100%float.
Proof. do 3 eexists. repeat split; vm_compute; reflexivity. Qed.

(** C2, as amended.  A merge installs a summary computed from the merged
    details (sums of cost and revenue, their difference, and the ratio
    guarded by a positive total cost); a direct load computes the summary
    from the details when the document has none, and keeps the summary of
    the document otherwise. *)
Theorem installed_summary :
  forall (imp : AnalysisResult float) (d : list (CountryData float)),
    details imp = Some d ->
    (forall base bd bb br,
       details base = Some bd -> badCountries base = Some bb ->
       recommendations base = Some br ->
       exists r md tc tr,
         import_document (Some base) (Some imp) = Merged r /\
         details r = Some md /\
         tc = fold_left (fun s i => (s + ToNumber (cost i))%float) md 0%float /\
         tr = fold_left (fun s i => (s + ToNumber (revenue i))%float) md 0%float /\
         summary r = Some {| totalCost := tc; totalRevenue := tr;
                             netProfit := (tr - tc)%float;
                             totalRoi := if (0 <? tc)%float
                                         then ((tr - tc) / tc * 100)%float
                                         else 0%float |}) /\
    (exists r,
       import_document None (Some imp) = Loaded r /\ details r = Some d /\
       summary r = match summary imp with
                   | Some s => Some s
                   | None => Some (aggregate d)
                   end).
Proof.
  intros imp d Hi. split.
  - intros base bd bb br Hd Hb Hr.
    rewrite (import_document_merged base imp bd bb br d Hd Hb Hr Hi).
    do 4 eexists. repeat split; reflexivity.
  - rewrite (import_document_loaded imp d Hi).
    eexists. repeat split; reflexivity.
Qed.

Lemma installed_summary_witness :
  exists r,
    import_document None (Some stale_payload) = Loaded r /\
    summary r = Some (totals 999 0 (-999) (-100)).
Proof.
  destruct (installed_summary stale_payload
              [record "India" 100 150 50 50 PROFITABLE] eq_refl)
    as [_ (r & Hr & _ & Hs)].
  exists r. split; [exact Hr | exact Hs].
Defined.

(** C4.  A document with details and no summary is loaded with the
    summary of its details: the sums of cost and revenue, an absent value
    counting as 0, their difference, and (difference / cost) * 100 when
    the total cost is positive, 0 otherwise.  The legacy example of the
    specification gives 100, 150, 50 and 50. *)
Theorem missing_summary_is_synthesized :
  (forall (imp : AnalysisResult float) (d : list (CountryData float)),
     details imp = Some d -> summary imp = None ->
     exists r tc tr,
       import_document None (Some imp) = Loaded r /\
       details r = Some d /\
       tc = fold_left (fun acc curr => (acc + or_zero (cost curr))%float) d 0%float /\
       tr = fold_left (fun acc curr => (acc + or_zero (revenue curr))%float) d 0%float /\
       summary r = Some {| totalCost := tc; totalRevenue := tr;
                           netProfit := (tr - tc)%float;
                           totalRoi := if (0 <? tc)%float
                                       then ((tr - tc) / tc * 100)%float
                                       else 0%float |} /\
       (forall c, or_zero (cost c) = or_zero (cost (with_defaults c))) /\
       (forall c, or_zero (revenue c) = or_zero (revenue (with_defaults c))))
  /\ exists r,
       import_document None (Some legacy_payload) = Loaded r /\
       summary r = Some (totals 100 150 50 50).
Proof.
  split.
  - intros imp d Hi Hs.
    rewrite (import_document_loaded imp d Hi).
    do 3 eexists. split; [reflexivity|]. split; [reflexivity|].
    split; [reflexivity|]. split; [reflexivity|]. split.
    + simpl. rewrite Hs. reflexivity.
    + split; intro c; symmetry; apply or_zero_with_defaults.
  - eexists. split; vm_compute; reflexivity.
Qed.

Lemma missing_summary_is_synthesized_witness :
  exists r,
    import_document None (Some legacy_payload) = Loaded r /\
    details r = Some [legacy_record "India" 100 150] /\
    summary r = Some (totals 100 150 50 50).
Proof.
  destruct (proj1 missing_summary_is_synthesized legacy_payload
              [legacy_record "India" 100 150] eq_refl eq_refl)
    as (r & tc & tr & Hr & Hd & -> & -> & Hs & _).
  exists r. split; [exact Hr|]. split; [exact Hd | exact Hs].
Defined.

(** * Records without a country *)

(** C3, as stated, fails: a record whose country is empty or absent is
    loaded, and merged, like any other. *)
Lemma nameless_records_are_kept :
  exists r d m md,
    import_document None (Some nameless_payload) = Loaded r /\
    details r = Some d /\ List.map country d = [Some EmptyString; None] /\
    import_document (Some example_base) (Some nameless_payload) = Merged m /\
    details m = Some md /\
    List.map country md = [Some "India"%string; Some EmptyString; None].
Proof. do 4 eexists. repeat split; vm_compute; reflexivity. Qed.

(** C3, as amended.  An import validates no record: a direct load keeps
    the details of the document as they are, and a merge keeps every
    country of the document, the empty and the absent one included, as a
    country of the merged details. *)
Theorem import_drops_no_record :
  forall (imp : AnalysisResult float) (d : list (CountryData float)),
    details imp = Some d ->
    (exists r, import_document None (Some imp) = Loaded r /\
               details r = Some d) /\
    (forall base bd bb br,
       details base = Some bd -> badCountries base = Some bb ->
       recommendations base = Some br ->
       exists r md,
         import_document (Some base) (Some imp) = Merged r /\
         details r = Some md /\
         forall y, In y d -> In (country y) (List.map country md)).
Proof.
  intros imp d Hi. split.
  - rewrite (import_document_loaded imp d Hi). eexists. split; reflexivity.
  - intros base bd bb br Hd Hb Hr.
    rewrite (import_document_merged base imp bd bb br d Hd Hb Hr Hi).
    do 2 eexists. split; [reflexivity|]. split; [reflexivity|].
    intros y Hy. apply merged_details_countries. right. now apply in_map.
Qed.

Lemma import_drops_no_record_witness :
  exists r, import_document None (Some nameless_payload) = Loaded r /\
            List.map country (or_nil (details r)) = [Some EmptyString; None].
Proof.
  destruct (import_drops_no_record nameless_payload
              (or_nil (details nameless_payload)) eq_refl)
    as [(r & Hr & Hd) _].
  exists r. split; [exact Hr|]. rewrite Hd. reflexivity.
Defined.

(** * Negative and missing amounts *)

(** C9, as stated, fails: a negative cost stays in the record and in the
    summary. *)
Lemma negative_cost_is_kept :
  exists r s d x,
    import_document None (Some negative_payload) = Loaded r /\
    summary r = Some s /\ details r = Some [d] /\
    totalCost s = (-5)%float /\ cost d = Some x /\
    (x <? 0)%float = true /\ (totalCost s <? 0)%float = true.
Proof. do 4 eexists. repeat split; vm_compute; reflexivity. Qed.

(** ** Amounts as numbers *)

Section AmountFacts.

(** [x || 0] on a binary64 number, written out. *)
Lemma or_zero_binary64 (v : option float) :
  or_zero v = match v with
              | Some x => if (x =? 0)%float || is_nan x then 0%float else x
              | None => 0%float
              end.
Proof.
  destruct v as [x|]; [|reflexivity]. simpl.
  now destruct ((x =? 0)%float || is_nan x).
Qed.

Lemma sum_ext (f g : CountryData float -> float)
  (l : list (CountryData float)) :
  (forall i, f i = g i) ->
  forall z, fold_left (fun s i => (s + f i)%float) l z
            = fold_left (fun s i => (s + g i)%float) l z.
Proof.
  intro E. induction l as [|x l IH]; intro z; simpl; [reflexivity|].
  now rewrite E, IH.
Qed.

(** A negative number is neither [0] nor [NaN]: [x || 0] keeps it. *)
Lemma negative_is_kept (x : float) :
  (x <? 0)%float = true -> ((x =? 0)%float || is_nan x) = false.
Proof.
  unfold is_nan. rewrite ltb_spec, !eqb_spec.
  change (Prim2SF 0) with (S754_zero false).
  destruct (Prim2SF x) as [s|s| |s m e]; try discriminate.
  - intros _. now destruct s.
  - intros _. unfold SFeqb, SFcompare.
    rewrite Z.compare_refl, Pos.compare_cont_refl. now destruct s.
Qed.

(** Adding a negative number to [0] gives that number. *)
Lemma zero_plus_negative (x : float) :
  (x <? 0)%float = true -> (0 + x)%float = x.
Proof.
  intro L. apply Prim2SF_inj. rewrite add_spec. rewrite ltb_spec in L.
  change (Prim2SF 0) with (S754_zero false) in *.
  destruct (Prim2SF x) as [s|s| |s m e]; try discriminate; reflexivity.
Qed.

End AmountFacts.

(** C9, as amended.  When the summary of a loaded document is computed,
    an absent cost or revenue counts as 0, and so do 0 and NaN; every
    other supplied amount enters the sum as it is.  A negative amount is
    such an amount: it is not replaced, and the total cost of a document
    whose one record has a negative cost is that cost.  The records are
    kept as supplied. *)
Theorem missing_amounts_count_as_zero :
  forall (imp : AnalysisResult float) (d : list (CountryData float)),
    details imp = Some d -> summary imp = None ->
    exists r s,
      import_document None (Some imp) = Loaded r /\
      details r = Some d /\
      summary r = Some s /\
      totalCost s
        = fold_left
            (fun acc curr =>
               (acc + match cost curr with
                      | Some v => if (v =? 0) || is_nan v then 0 else v
                      | None => 0
                      end)%float) d 0%float /\
      totalRevenue s
        = fold_left
            (fun acc curr =>
               (acc + match revenue curr with
                      | Some v => if (v =? 0) || is_nan v then 0 else v
                      | None => 0
                      end)%float) d 0%float /\
      (forall v : float,
         (v <? 0)%float = true -> ((v =? 0)%float || is_nan v) = false) /\
      (forall x v,
         d = [x] -> cost x = Some v -> (v <? 0)%float = true ->
         totalCost s = v /\ (totalCost s <? 0)%float = true).
Proof.
  intros imp d Hi Hs. rewrite (import_document_loaded imp d Hi).
  exists (repair imp d), (aggregate d).
  split; [reflexivity|]. split; [reflexivity|].
  split; [simpl; now rewrite Hs|].
  assert (C : totalCost (aggregate d)
              = fold_left
                  (fun acc curr =>
                     (acc + match cost curr with
                            | Some v => if (v =? 0) || is_nan v then 0 else v
                            | None => 0
                            end)%float) d 0%float).
  { unfold aggregate. cbn [totalCost].
    apply (sum_ext (fun curr => or_zero (cost curr))).
    intro i. apply or_zero_binary64. }
  split; [exact C|]. split.
  { unfold aggregate. cbn [totalRevenue].
    apply (sum_ext (fun curr => or_zero (revenue curr))).
    intro i. apply or_zero_binary64. }
  split; [exact negative_is_kept|].
  intros x v -> Hc L. rewrite C. simpl. rewrite Hc.
  rewrite (negative_is_kept v L), (zero_plus_negative v L). now split.
Qed.

Lemma missing_amounts_count_as_zero_witness :
  exists r s,
    import_document None (Some negative_payload) = Loaded r /\
    details r = Some [legacy_record "India" (-5) 3] /\
    summary r = Some s /\
    totalCost s = (-5)%float /\ (totalCost s <? 0)%float = true.
Proof.
  destruct (missing_amounts_count_as_zero negative_payload
              [legacy_record "India" (-5) 3] eq_refl eq_refl)
    as (r & s & Hr & Hd & Hs & _ & _ & _ & Hn).
  exists r, s. split; [exact Hr|]. split; [exact Hd|]. split; [exact Hs|].
  apply (Hn (legacy_record "India" (-5) 3) (-5)%float); reflexivity.
Defined.

(** * The visibility filter *)

(** C8.  The visible records are the records whose country is not
    hidden, in their order; with at least one hidden country the summary
    on screen is computed from the visible records: the sums of their
    costs and revenues (an absent amount, 0 and NaN counting as 0), the
    difference, and (difference / cost) * 100 when the total cost is
    positive, 0 otherwise; with none hidden it is the summary of the
    report.  The bad countries are filtered by the same list; hiding,
    unhiding and showing all leave the report of the dashboard as it
    is.  In the example of the specification, hiding India from three
    countries leaves Brazil and Chad, the totals 50, 75, 25 and 50, and
    the report as it was. *)
Theorem visibility_filter_is_a_projection :
  (forall (s : Dashboard float),
    subsequence (visibleData s) (or_nil (details (data s))) /\
    (forall d, In d (visibleData s) <->
               In d (or_nil (details (data s))) /\
               ~ In (country d) (hiddenCountries s)) /\
    dashboard_summary s =
      match hiddenCountries s with
      | [] => match summary (data s) with
              | Some x => x
              | None => zero_summary
              end
      | _ :: _ =>
          let amount := fun v : option float =>
                          match v with
                          | Some x => if (x =? 0) || is_nan x then 0 else x
                          | None => 0
                          end%float in
          let tc := fold_left (fun sum item => (sum + amount (cost item))%float)
                              (visibleData s) 0%float in
          let tr := fold_left (fun sum item => (sum + amount (revenue item))%float)
                              (visibleData s) 0%float in
          {| totalCost := tc; totalRevenue := tr;
             netProfit := (tr - tc)%float;
             totalRoi := if (0 <? tc)%float then ((tr - tc) / tc * 100)%float
                         else 0%float |}
      end /\
    subsequence (visibleBadCountries s) (or_nil (badCountries (data s))) /\
    (forall c, In c (visibleBadCountries s) <->
               In c (or_nil (badCountries (data s))) /\
               ~ In (Some c) (hiddenCountries s)) /\
    (forall c, data (toggleVisibility s c) = data s) /\
    data (showAll s) = data s)
  /\ visibleData india_hidden
     = [record "Brazil" 40 60 20 50 PROFITABLE;
        record "Chad" 10 15 5 50 PROFITABLE]
  /\ dashboard_summary india_hidden = totals 50 75 25 50
  /\ visibleBadCountries india_hidden = ["Chad"%string]
  /\ data india_hidden = three_countries
  /\ dashboard_summary (toggleVisibility india_hidden (Some "India"%string))
     = totals 150 125 (-25) (-16.666666666666664).
Proof.
  split; [|repeat (split; [vm_compute; reflexivity|]); vm_compute; reflexivity].
  intro s. split; [apply filter_subsequence|]. split.
  { intro d. unfold visibleData. rewrite filter_In, negb_true_iff.
    rewrite <- includes_In. destruct (includes (hiddenCountries s) (country d));
      intuition congruence. }
  split.
  { unfold dashboard_summary. destruct (hiddenCountries s); [reflexivity|].
    unfold aggregate. cbv zeta.
    rewrite (sum_ext (fun c => or_zero (cost c)) _ (visibleData s)
               (fun i => or_zero_binary64 (cost i))).
    rewrite (sum_ext (fun c => or_zero (revenue c)) _ (visibleData s)
               (fun i => or_zero_binary64 (revenue i))).
    reflexivity. }
  split; [apply filter_subsequence|]. split.
  { intro c. unfold visibleBadCountries. rewrite filter_In, negb_true_iff.
    rewrite <- includes_In. destruct (includes (hiddenCountries s) (Some c));
      intuition congruence. }
  split; reflexivity.
Qed.

(** * History *)


(** * The round trip through JSON text *)

Section JsonRoundTrip.

Import JSON.
#[local] Open Scope string_scope.
#[local] Opaque Number_toString parse_number.

Lemma append_assoc (a b c : string) : (a ++ b) ++ c = a ++ (b ++ c).
Proof. induction a as [|x a IH]; simpl; [reflexivity | now rewrite IH]. Qed.

Lemma length_append (a b : string) :
  String.length (a ++ b) = String.length a + String.length b.
Proof. induction a as [|x a IH]; simpl; [reflexivity | now rewrite IH]. Qed.

Lemma all_chars_append p (a b : string) :
  all_chars p (a ++ b) = all_chars p a && all_chars p b.
Proof.
  induction a as [|x a IH]; simpl; [reflexivity|].
  now rewrite IH, andb_assoc.
Qed.

Lemma skip_ws_append (w s : string) :
  all_chars is_ws w = true -> skip_ws (w ++ s) = skip_ws s.
Proof.
  induction w as [|c w IH]; simpl; [reflexivity|].
  intro E. apply andb_true_iff in E as [Hc Hw]. rewrite Hc. now apply IH.
Qed.

Lemma value_start_not_ws (c : ascii) : value_start c = true -> is_ws c = false.
Proof. destruct c as [[] [] [] [] [] [] [] []]; try discriminate; reflexivity. Qed.

Lemma value_start_not_close (c : ascii) :
  value_start c = true -> Ascii.eqb c "]" = false /\ Ascii.eqb c "}" = false.
Proof.
  destruct c as [[] [] [] [] [] [] [] []]; try discriminate; split; reflexivity.
Qed.

Lemma number_start_value_start (c : ascii) :
  is_number_start c = true -> value_start c = true.
Proof. intro E. unfold value_start. now rewrite E. Qed.

(** Whitespace, then a text that starts a value: the value is reached. *)
Lemma skip_ws_value (w s : string) :
  all_chars is_ws w = true -> starts_with value_start s = true ->
  skip_ws (w ++ s) = s.
Proof.
  intros Hw Hs. rewrite skip_ws_append by exact Hw.
  destruct s as [|c t]; [discriminate|]. simpl in *.
  now rewrite (value_start_not_ws c Hs).
Qed.

Lemma skip_ws_stop (w : string) (c : ascii) (t : string) :
  all_chars is_ws w = true -> is_ws c = false ->
  skip_ws (w ++ String c t) = String c t.
Proof.
  intros Hw Hc. rewrite skip_ws_append by exact Hw. simpl. now rewrite Hc.
Qed.

Lemma span_number_append (t rest : string) :
  all_chars is_number_char t = true -> stops_number rest = true ->
  span_number (t ++ rest) = (t, rest).
Proof.
  intros Ht Hr. induction t as [|c t IH]; simpl in *.
  - destruct rest as [|c r]; simpl; [reflexivity|].
    unfold stops_number in Hr. simpl in Hr.
    apply negb_true_iff in Hr. now rewrite Hr.
  - apply andb_true_iff in Ht as [Hc Ht]. rewrite Hc, (IH Ht). reflexivity.
Qed.

(** One character of a string literal, escaped and read back. *)
Lemma parse_chars_escape_char (c : ascii) (u : string) :
  parse_chars (escape_char c ++ u)
  = prepend (String c EmptyString) (parse_chars u).
Proof. destruct c as [[] [] [] [] [] [] [] []]; reflexivity. Qed.

Lemma parse_chars_escape (s rest : string) :
  parse_chars (escape s ++ dq ++ rest) = Some (s, rest).
Proof.
  induction s as [|c s IH]; [reflexivity|].
  cbn [escape]. rewrite append_assoc, parse_chars_escape_char, IH. reflexivity.
Qed.

Lemma parse_value_unfold (f : nat) (s : string) :
  parse_value (S f) s =
  match skip_ws s with
  | EmptyString => None
  | String c t =>
      if is_number_start c then
        let '(tok, rest) := span_number (String c t) in
        match parse_number tok with
        | Some x => Some (JNumber x, rest)
        | None => None
        end
      else if Ascii.eqb c dquote then
        match parse_chars t with
        | Some (str, rest) => Some (JString str, rest)
        | None => None
        end
      else if Ascii.eqb c "[" then
        match skip_ws t with
        | EmptyString => None
        | String c' rest =>
            if Ascii.eqb c' "]" then Some (JArray [], rest)
            else parse_elements f (String c' rest) []
        end
      else if Ascii.eqb c "{" then
        match skip_ws t with
        | EmptyString => None
        | String c' rest =>
            if Ascii.eqb c' "}" then Some (JObject [], rest)
            else parse_members f (String c' rest) []
        end
      else if Ascii.eqb c "t" then literal "true" (JBool true) (String c t)
      else if Ascii.eqb c "f" then literal "false" (JBool false) (String c t)
      else if Ascii.eqb c "n" then literal "null" JNull (String c t)
      else None
  end.
Proof. reflexivity. Qed.

(** *** The cases of [parse_value] *)

Lemma parse_value_number (f : nat) (w t rest : string) (x : float) :
  all_chars is_ws w = true ->
  starts_with is_number_start t = true ->
  all_chars is_number_char t = true -> stops_number rest = true ->
  parse_number t = Some x ->
  parse_value (S f) (w ++ t ++ rest) = Some (JNumber x, rest).
Proof.
  intros Hw Hs Ht Hr Hp. rewrite parse_value_unfold.
  rewrite skip_ws_value; [|exact Hw|].
  - destruct t as [|c t]; [discriminate|]. simpl in Hs.
    change (String c t ++ rest) with (String c (t ++ rest)). cbv iota beta.
    rewrite Hs.
    change (String c (t ++ rest)) with (String c t ++ rest).
    rewrite (span_number_append _ _ Ht Hr), Hp. reflexivity.
  - destruct t as [|c t]; [discriminate|]. simpl in *.
    now apply number_start_value_start.
Qed.

Lemma parse_value_string (f : nat) (w s rest : string) :
  all_chars is_ws w = true ->
  parse_value (S f) (w ++ QuoteJSONString s ++ rest) = Some (JString s, rest).
Proof.
  intro Hw. rewrite parse_value_unfold.
  rewrite skip_ws_value; [|exact Hw|reflexivity].
  unfold QuoteJSONString. rewrite !append_assoc.
  change (dq ++ escape s ++ dq ++ rest)
    with (String dquote (escape s ++ dq ++ rest)).
  cbv iota beta. change (is_number_start dquote) with false.
  change (Ascii.eqb dquote dquote) with true. cbv iota.
  now rewrite parse_chars_escape.
Qed.

Lemma parse_value_literal (f : nat) (w word rest : string) (v : value) :
  all_chars is_ws w = true ->
  (word = "null" /\ v = JNull) \/ (word = "true" /\ v = JBool true)
  \/ (word = "false" /\ v = JBool false) ->
  parse_value (S f) (w ++ word ++ rest) = Some (v, rest).
Proof.
  intros Hw [[-> ->]|[[-> ->]|[-> ->]]]; rewrite parse_value_unfold;
    (rewrite skip_ws_value; [reflexivity | exact Hw | reflexivity]).
Qed.

Lemma parse_value_empty_array (f : nat) (w rest : string) :
  all_chars is_ws w = true ->
  parse_value (S f) (w ++ "[]" ++ rest) = Some (JArray [], rest).
Proof.
  intro Hw. rewrite parse_value_unfold.
  rewrite skip_ws_value; [reflexivity | exact Hw | reflexivity].
Qed.

Lemma parse_value_empty_object (f : nat) (w rest : string) :
  all_chars is_ws w = true ->
  parse_value (S f) (w ++ "{}" ++ rest) = Some (JObject [], rest).
Proof.
  intro Hw. rewrite parse_value_unfold.
  rewrite skip_ws_value; [reflexivity | exact Hw | reflexivity].
Qed.

Lemma parse_value_array (f : nat) (w o body : string) :
  all_chars is_ws w = true -> all_chars is_ws o = true ->
  starts_with value_start body = true ->
  parse_value (S f) (w ++ "[" ++ o ++ body) = parse_elements f body [].
Proof.
  intros Hw Ho Hb. rewrite parse_value_unfold.
  rewrite skip_ws_value; [|exact Hw|reflexivity].
  change ("[" ++ o ++ body) with (String "[" (o ++ body)). cbv iota beta.
  change (is_number_start "[") with false.
  change (Ascii.eqb "[" dquote) with false.
  change (Ascii.eqb "[" "[") with true. cbv iota.
  rewrite (skip_ws_value _ _ Ho Hb).
  destruct body as [|c u]; [discriminate|]. simpl in Hb.
  now rewrite (proj1 (value_start_not_close c Hb)).
Qed.

Lemma parse_value_object (f : nat) (w o body : string) :
  all_chars is_ws w = true -> all_chars is_ws o = true ->
  starts_with value_start body = true ->
  parse_value (S f) (w ++ "{" ++ o ++ body) = parse_members f body [].
Proof.
  intros Hw Ho Hb. rewrite parse_value_unfold.
  rewrite skip_ws_value; [|exact Hw|reflexivity].
  change ("{" ++ o ++ body) with (String "{" (o ++ body)). cbv iota beta.
  change (is_number_start "{") with false.
  change (Ascii.eqb "{" dquote) with false.
  change (Ascii.eqb "{" "[") with false.
  change (Ascii.eqb "{" "{") with true. cbv iota.
  rewrite (skip_ws_value _ _ Ho Hb).
  destruct body as [|c u]; [discriminate|]. simpl in Hb.
  now rewrite (proj2 (value_start_not_close c Hb)).
Qed.


Lemma parse_elements_unfold (f : nat) (s : string) (acc : list value) :
  parse_elements (S f) s acc =
  match parse_value f s with
  | Some (v, r) =>
      match skip_ws r with
      | EmptyString => None
      | String c r' =>
          if Ascii.eqb c "," then parse_elements f r' (v :: acc)
          else if Ascii.eqb c "]" then Some (JArray (rev (v :: acc)), r')
          else None
      end
  | None => None
  end.
Proof. reflexivity. Qed.

Lemma parse_members_unfold (f : nat) (s : string) (acc : list (string * value)) :
  parse_members (S f) s acc =
  match skip_ws s with
  | String c t =>
      if Ascii.eqb c dquote then
        match parse_chars t with
        | Some (k, r) =>
            match skip_ws r with
            | EmptyString => None
            | String c1 r' =>
                if Ascii.eqb c1 ":" then
                  match parse_value f r' with
                  | Some (v, r'') =>
                      match skip_ws r'' with
                      | EmptyString => None
                      | String c2 r3 =>
                          if Ascii.eqb c2 ","
                          then parse_members f r3 ((k, v) :: acc)
                          else if Ascii.eqb c2 "}"
                          then Some (JObject (rev ((k, v) :: acc)), r3)
                          else None
                      end
                  | None => None
                  end
                else None
            end
        | None => None
        end
      else None
  | EmptyString => None
  end.
Proof. reflexivity. Qed.

Lemma parse_elements_last (f : nat) (s cl rest : string) (v : value) acc :
  parse_value f s = Some (v, cl ++ "]" ++ rest) ->
  all_chars is_ws cl = true ->
  parse_elements (S f) s acc = Some (JArray (rev (v :: acc)), rest).
Proof.
  intros E Hcl. rewrite parse_elements_unfold, E.
  change ("]" ++ rest) with (String "]" rest).
  rewrite skip_ws_stop; [reflexivity | exact Hcl | reflexivity].
Qed.

Lemma parse_elements_more (f : nat) (s more : string) (v : value) acc :
  parse_value f s = Some (v, "," ++ more) ->
  parse_elements (S f) s acc = parse_elements f more (v :: acc).
Proof. intro E. rewrite parse_elements_unfold, E. reflexivity. Qed.

(** A key and its colon are read; the value and what follows remain. *)
Lemma parse_members_key (f : nat) (w k cw s' : string) acc :
  all_chars is_ws w = true ->
  parse_members (S f) (w ++ QuoteJSONString k ++ ":" ++ cw ++ s') acc =
  match parse_value f (cw ++ s') with
  | Some (v, r'') =>
      match skip_ws r'' with
      | EmptyString => None
      | String c2 r3 =>
          if Ascii.eqb c2 "," then parse_members f r3 ((k, v) :: acc)
          else if Ascii.eqb c2 "}"
          then Some (JObject (rev ((k, v) :: acc)), r3)
          else None
      end
  | None => None
  end.
Proof.
  intro Hw. rewrite parse_members_unfold.
  rewrite skip_ws_value; [|exact Hw|reflexivity].
  unfold QuoteJSONString. rewrite !append_assoc.
  change (dq ++ escape k ++ dq ++ ":" ++ cw ++ s')
    with (String dquote (escape k ++ dq ++ ":" ++ cw ++ s')).
  cbv iota beta. change (Ascii.eqb dquote dquote) with true. cbv iota.
  rewrite parse_chars_escape. reflexivity.
Qed.

Lemma colon_split (gap : string) :
  colon gap = ":" ++ colon_space gap /\
  all_chars is_ws (colon_space gap) = true.
Proof. unfold colon, colon_space. destruct (is_empty gap); split; reflexivity. Qed.

Lemma ws_not_number_char (c : ascii) : is_ws c = true -> is_number_char c = false.
Proof. destruct c as [[] [] [] [] [] [] [] []]; try discriminate; reflexivity. Qed.

(** After whitespace and a closing bracket no number goes on. *)
Lemma stops_number_closing (cl b rest : string) :
  all_chars is_ws cl = true -> b = "]" \/ b = "}" ->
  stops_number (cl ++ b ++ rest) = true.
Proof.
  intros Hcl Hb. destruct cl as [|c cl]; simpl.
  - destruct Hb as [-> | ->]; reflexivity.
  - simpl in Hcl. apply andb_true_iff in Hcl as [Hc _].
    unfold stops_number. simpl. now rewrite (ws_not_number_char c Hc).
Qed.

Lemma starts_with_append p (a b : string) :
  starts_with p a = true -> starts_with p (a ++ b) = true.
Proof. destruct a; [discriminate | trivial]. Qed.

Lemma opening_ws (gap indent : string) :
  all_chars is_ws gap = true -> all_chars is_ws indent = true ->
  all_chars is_ws (opening gap indent) = true /\
  all_chars is_ws (closing gap indent) = true /\
  all_chars is_ws (indent ++ gap) = true.
Proof.
  intros Hg Hi. unfold opening, closing.
  rewrite all_chars_append, Hg, Hi.
  destruct (is_empty gap); simpl; rewrite ?Hi; auto.
Qed.

Lemma number_ok_inv (x : float) :
  number_ok x = true ->
  is_finite x = true /\
  starts_with is_number_start (Number_toString x) = true /\
  all_chars is_number_char (Number_toString x) = true /\
  parse_number (Number_toString x) = Some x.
Proof.
  unfold number_ok. rewrite !andb_true_iff. intros [[[Hf Hs] Ha] Hp].
  repeat split; try assumption.
  destruct (parse_number (Number_toString x)) as [y|]; [|discriminate].
  apply Leibniz.eqb_spec in Hp. now subst.
Qed.

(** A serialized value starts with a character that starts a value. *)
Lemma serialize_start (gap indent : string) (v : value) :
  clean v = true -> starts_with value_start (serialize gap indent v) = true.
Proof.
  destruct v as [|b|x|s|l|m]; simpl; intro Hc; try reflexivity.
  - now destruct b.
  - apply number_ok_inv in Hc as (Hf & Hs & _). rewrite Hf.
    destruct (Number_toString x) as [|c t]; [discriminate|].
    now apply number_start_value_start.
  - now destruct l.
  - now destruct m.
Qed.

Lemma length_start p (s : string) :
  starts_with p s = true -> 1 <= String.length s.
Proof. destruct s; [discriminate | simpl; lia]. Qed.

(** *** Induction on documents *)

Section ValueInduction.

Variable P : value -> Prop.
Hypothesis Hnull : P JNull.
Hypothesis Hbool : forall b, P (JBool b).
Hypothesis Hnumber : forall x, P (JNumber x).
Hypothesis Hstring : forall s, P (JString s).
Hypothesis Harray : forall l, Forall P l -> P (JArray l).
Hypothesis Hobject :
  forall m, Forall (fun kv => P (snd kv)) m -> P (JObject m).

Fixpoint value_induction (v : value) : P v :=
  match v with
  | JNull => Hnull
  | JBool b => Hbool b
  | JNumber x => Hnumber x
  | JString s => Hstring s
  | JArray l =>
      Harray l
        ((fix go (l : list value) : Forall P l :=
            match l with
            | [] => Forall_nil P
            | x :: l' => Forall_cons x (value_induction x) (go l')
            end) l)
  | JObject m =>
      Hobject m
        ((fix go (m : list (string * value))
            : Forall (fun kv => P (snd kv)) m :=
            match m with
            | [] => Forall_nil _
            | kv :: m' =>
                Forall_cons kv (value_induction (snd kv)) (go m')
            end) m)
  end.

End ValueInduction.

Lemma elements_text_single (gap indent : string) (x : value) :
  elements_text gap indent [x] = serialize gap indent x.
Proof. reflexivity. Qed.

Lemma elements_text_cons (gap indent : string) (x y : value) (l : list value) :
  elements_text gap indent (x :: y :: l)
  = serialize gap indent x ++ "," ++ opening gap indent
    ++ elements_text gap indent (y :: l).
Proof.
  unfold elements_text, separator. cbn [List.map String.concat].
  now rewrite !append_assoc.
Qed.

Lemma elements_read_back (gap indent cl rest : string) (l : list value) :
  all_chars is_ws gap = true -> all_chars is_ws indent = true ->
  all_chars is_ws cl = true ->
  Forall reads_back l -> l <> [] ->
  forall acc w fuel,
    all_chars is_ws w = true ->
    S (String.length (elements_text gap indent l)) <= fuel ->
    parse_elements fuel (w ++ elements_text gap indent l ++ cl ++ "]" ++ rest) acc
    = Some (JArray (rev acc ++ l), rest).
Proof.
  intros Hg Hi Hcl HF. induction HF as [|x l Hx HF IH]; [congruence|].
  intros _ acc w fuel Hw Hfuel.
  destruct fuel as [|f]; [lia|].
  destruct l as [|y l'].
  - rewrite elements_text_single in *.
    rewrite (parse_elements_last f _ cl rest x acc).
    + reflexivity.
    + apply Hx; try assumption; [|lia].
      apply stops_number_closing; auto.
    + exact Hcl.
  - rewrite elements_text_cons in *. rewrite !length_append in Hfuel.
    change (String.length ",") with 1 in Hfuel.
    rewrite !append_assoc.
    rewrite (parse_elements_more f _
               (opening gap indent ++ elements_text gap indent (y :: l')
                ++ cl ++ "]" ++ rest) x acc).
    + rewrite IH.
      * simpl. now rewrite <- app_assoc.
      * discriminate.
      * apply opening_ws; assumption.
      * lia.
    + apply Hx; try assumption; [reflexivity | lia].
Qed.


Lemma members_text_single (gap indent : string) (kv : string * value) :
  members_text gap indent [kv] = member_text gap indent kv.
Proof. reflexivity. Qed.

Lemma members_text_cons (gap indent : string) (kv kv' : string * value) m :
  members_text gap indent (kv :: kv' :: m)
  = member_text gap indent kv ++ "," ++ opening gap indent
    ++ members_text gap indent (kv' :: m).
Proof.
  unfold members_text, separator. cbn [List.map String.concat].
  now rewrite !append_assoc.
Qed.

Lemma parse_members_last (f : nat) (w k cw s' cl rest : string) (v : value) acc :
  all_chars is_ws w = true -> all_chars is_ws cl = true ->
  parse_value f (cw ++ s') = Some (v, cl ++ "}" ++ rest) ->
  parse_members (S f) (w ++ QuoteJSONString k ++ ":" ++ cw ++ s') acc
  = Some (JObject (rev ((k, v) :: acc)), rest).
Proof.
  intros Hw Hcl E. rewrite parse_members_key by exact Hw. rewrite E.
  change ("}" ++ rest) with (String "}" rest).
  rewrite skip_ws_stop; [reflexivity | exact Hcl | reflexivity].
Qed.

Lemma parse_members_more (f : nat) (w k cw s' more : string) (v : value) acc :
  all_chars is_ws w = true ->
  parse_value f (cw ++ s') = Some (v, "," ++ more) ->
  parse_members (S f) (w ++ QuoteJSONString k ++ ":" ++ cw ++ s') acc
  = parse_members f more ((k, v) :: acc).
Proof.
  intros Hw E. rewrite parse_members_key by exact Hw. rewrite E. reflexivity.
Qed.

Lemma members_read_back (gap indent cl rest : string)
  (m : list (string * value)) :
  all_chars is_ws gap = true -> all_chars is_ws indent = true ->
  all_chars is_ws cl = true ->
  Forall (fun kv => reads_back (snd kv)) m -> m <> [] ->
  forall acc w fuel,
    all_chars is_ws w = true ->
    S (String.length (members_text gap indent m)) <= fuel ->
    parse_members fuel (w ++ members_text gap indent m ++ cl ++ "}" ++ rest) acc
    = Some (JObject (rev acc ++ m), rest).
Proof.
  intros Hg Hi Hcl HF. induction HF as [|[k x] m Hx HF IH]; [congruence|].
  intros _ acc w fuel Hw Hfuel. simpl in Hx.
  destruct fuel as [|f]; [lia|].
  destruct (colon_split gap) as [Eco Hcw].
  destruct m as [|kv' m'].
  - rewrite members_text_single in *. unfold member_text in *.
    rewrite Eco in *. rewrite !length_append in Hfuel.
    rewrite !append_assoc.
    rewrite (parse_members_last f w k (colon_space gap) _ cl rest x acc).
    + reflexivity.
    + exact Hw.
    + exact Hcl.
    + apply Hx; try assumption; [|lia].
      apply stops_number_closing; auto.
  - rewrite members_text_cons in *. unfold member_text at 1.
    unfold member_text at 1 in Hfuel.
    rewrite Eco in *. rewrite !length_append in Hfuel.
    change (String.length ",") with 1 in Hfuel.
    rewrite !append_assoc.
    rewrite (parse_members_more f w k (colon_space gap) _
               (opening gap indent ++ members_text gap indent (kv' :: m')
                ++ cl ++ "}" ++ rest) x acc).
    + rewrite IH.
      * simpl. now rewrite <- app_assoc.
      * discriminate.
      * apply opening_ws; assumption.
      * lia.
    + exact Hw.
    + apply Hx; try assumption; [reflexivity | lia].
Qed.

Lemma serialize_array (gap indent : string) (x : value) (l : list value) :
  serialize gap indent (JArray (x :: l))
  = "[" ++ opening gap (indent ++ gap)
    ++ elements_text gap (indent ++ gap) (x :: l) ++ closing gap indent ++ "]".
Proof. reflexivity. Qed.

Lemma serialize_object (gap indent : string) kv (m : list (string * value)) :
  serialize gap indent (JObject (kv :: m))
  = "{" ++ opening gap (indent ++ gap)
    ++ members_text gap (indent ++ gap) (kv :: m) ++ closing gap indent ++ "}".
Proof. reflexivity. Qed.

Lemma elements_text_start (gap indent : string) (x : value) (l : list value) :
  clean x = true ->
  starts_with value_start (elements_text gap indent (x :: l)) = true.
Proof.
  intro Hc. destruct l as [|y l].
  - rewrite elements_text_single. now apply serialize_start.
  - rewrite elements_text_cons. now apply starts_with_append, serialize_start.
Qed.

Lemma members_text_start (gap indent : string) kv (m : list (string * value)) :
  starts_with value_start (members_text gap indent (kv :: m)) = true.
Proof.
  destruct kv as [k x]. destruct m as [|kv' m].
  - rewrite members_text_single. reflexivity.
  - rewrite members_text_cons. reflexivity.
Qed.

(** The text of a clean document is read back as the document. *)
Lemma serialize_reads_back (v : value) : clean v = true -> reads_back v.
Proof.
  induction v as [|b|x|s|l IH|m IH] using value_induction; intro Hc;
    intros gap indent w rest fuel Hg Hi Hw Hr Hfuel.
  - destruct fuel as [|f]; [simpl in Hfuel; lia|].
    apply parse_value_literal; auto.
  - destruct fuel as [|f]; [destruct b; simpl in Hfuel; lia|].
    apply parse_value_literal; [exact Hw|]. destruct b; auto.
  - simpl in Hc. apply number_ok_inv in Hc as (Hf & Hs & Ha & Hp).
    cbn [serialize] in *. rewrite Hf in *.
    destruct fuel as [|f]; [apply length_start in Hs; lia|].
    now apply parse_value_number.
  - destruct fuel as [|f]; [simpl in Hfuel; lia|].
    now apply parse_value_string.
  - destruct l as [|x l].
    + destruct fuel as [|f]; [simpl in Hfuel; lia|].
      now apply parse_value_empty_array.
    + rewrite serialize_array in *. rewrite !length_append in Hfuel.
      change (String.length "[") with 1 in Hfuel.
      change (String.length "]") with 1 in Hfuel.
      destruct fuel as [|f]; [lia|].
      destruct (opening_ws gap indent Hg Hi) as (_ & Hcl & Hin).
      destruct (opening_ws gap (indent ++ gap) Hg Hin) as (Hop & _ & _).
      simpl in Hc. apply andb_true_iff in Hc as [Hcx Hcl'].
      rewrite !append_assoc.
      rewrite parse_value_array; [|exact Hw|exact Hop|].
      * assert (HF : Forall reads_back (x :: l)).
        { assert (Hall : forallb clean (x :: l) = true)
            by (simpl; now rewrite Hcx, Hcl').
          clear - IH Hall. revert Hall.
          induction IH as [|y l' Hy _ IH']; intro Hall; constructor;
            simpl in Hall; apply andb_true_iff in Hall as [? ?]; auto. }
        refine (elements_read_back gap (indent ++ gap) (closing gap indent)
                  rest (x :: l) Hg Hin Hcl HF _ [] EmptyString f eq_refl _);
          [discriminate | lia].
      * now apply starts_with_append, elements_text_start.
  - destruct m as [|kv m].
    + destruct fuel as [|f]; [simpl in Hfuel; lia|].
      now apply parse_value_empty_object.
    + rewrite serialize_object in *. rewrite !length_append in Hfuel.
      change (String.length "{") with 1 in Hfuel.
      change (String.length "}") with 1 in Hfuel.
      destruct fuel as [|f]; [lia|].
      destruct (opening_ws gap indent Hg Hi) as (_ & Hcl & Hin).
      destruct (opening_ws gap (indent ++ gap) Hg Hin) as (Hop & _ & _).
      rewrite !append_assoc.
      rewrite parse_value_object; [|exact Hw|exact Hop|].
      * assert (HF : Forall (fun kv => reads_back (snd kv)) (kv :: m)).
        { clear - IH Hc. cbn [clean] in Hc. revert Hc.
          induction IH as [|[k y] m' Hy _ IH']; intro Hall; constructor;
            simpl in Hall; apply andb_true_iff in Hall as [? ?]; auto. }
        refine (members_read_back gap (indent ++ gap) (closing gap indent)
                  rest (kv :: m) Hg Hin Hcl HF _ [] EmptyString f eq_refl _);
          [discriminate | lia].
      * apply starts_with_append, members_text_start.
Qed.

(** [JSON.parse (JSON.stringify v)] is [v] when every number of [v] is
    one that the text can carry. *)
Lemma parse_stringify (gap : string) (v : value) :
  all_chars is_ws gap = true -> clean v = true ->
  parse (stringify gap v) = Some v.
Proof.
  intros Hg Hc. unfold parse, stringify.
  pose proof (serialize_reads_back v Hc gap EmptyString EmptyString
                EmptyString (String.length (serialize gap EmptyString v))
                Hg eq_refl eq_refl eq_refl (le_n _)) as E.
  cbn [append] in E.
  replace (serialize gap EmptyString v ++ EmptyString)
    with (serialize gap EmptyString v) in E
    by (generalize (serialize gap EmptyString v); intro t;
        induction t as [|c t IHt]; simpl; [reflexivity | now rewrite <- IHt]).
  now rewrite E.
Qed.

End JsonRoundTrip.

Section DocumentRoundTrip.

#[local] Open Scope string_scope.

Lemma decode_encode_record (r : CountryData float) :
  decode_record (encode_record r) = Some r.
Proof.
  destruct r as [[c|] [co|] [re|] [p|] [ro|] [st|]]; reflexivity.
Qed.

Lemma decode_encode_summary (s : Summary float) :
  decode_summary (encode_summary s) = Some s.
Proof. destruct s; reflexivity. Qed.

Lemma decode_encode_details (d : list (CountryData float)) :
  decode_array decode_record (encode_details d) = Some d.
Proof.
  unfold encode_details, decode_array.
  induction d as [|r d IH]; cbn [List.map decode_list]; [reflexivity|].
  now rewrite decode_encode_record, IH.
Qed.

Lemma decode_encode_strings (l : list string) :
  decode_array decode_string (encode_strings l) = Some l.
Proof.
  unfold encode_strings, decode_array.
  induction l as [|s l IH]; simpl; [reflexivity|]. now rewrite IH.
Qed.


Lemma read_json_file (name text : string) :
  endsWith name ".json" = true ->
  read_file name text = match JSON.parse text with
                        | Some v => Parsed (Some v)
                        | None => Threw
                        end.
Proof. intro E. unfold read_file. now rewrite E. Qed.

Lemma repair_complete (R : AnalysisResult float) s d b r :
  summary R = Some s -> details R = Some d ->
  badCountries R = Some b -> recommendations R = Some r ->
  repair R d = R.
Proof.
  destruct R as [s' d' b' r']; simpl. intros -> -> -> ->. reflexivity.
Qed.

End DocumentRoundTrip.

(** Outside such reports the text does not give the report back: a
    number that is not finite is written [null], and lists that are
    absent come back empty. *)
Lemma stringify_not_finite :
  JSON.stringify two_spaces (JSON.JNumber PrimFloat.nan) = "null"%string /\
  JSON.stringify two_spaces (JSON.JNumber PrimFloat.infinity) = "null"%string /\
  JSON.parse "null" = Some JSON.JNull.
Proof.
  split; [vm_compute; reflexivity|].
  split; vm_compute; reflexivity.
Qed.

Lemma absent_lists_come_back_empty :
  exists r,
    handleImportFile None "AdArbitrage-Data-2026-11-03.json"
      (handleDownloadJson negative_payload) = Some (Loaded r) /\
    badCountries negative_payload = None /\ badCountries r = Some [] /\
    recommendations negative_payload = None /\ recommendations r = Some [].
Proof.
  eexists. split; [vm_compute; reflexivity|].
  split; [reflexivity|]. split; [reflexivity|].
  split; reflexivity.
Qed.



(** * The HTML export read back *)

Section HtmlRoundTrip.

#[local] Open Scope string_scope.

Lemma until_close_more (s more b : string) :
  until_close s = Some b -> until_close (s ++ more) = Some b.
Proof.
  revert b. induction s as [|c t IH]; intros b E; [discriminate|].
  cbn [until_close] in E. cbn [append until_close].
  destruct t as [|c' t'].
  - assert (S1 : JSON.strip_prefix "};" (String c EmptyString) = None)
      by (cbn [JSON.strip_prefix]; destruct (Ascii.eqb _ c); reflexivity).
    rewrite S1 in E. discriminate E.
  - change (String c (String c' t' ++ more))
      with (String c (String c' (t' ++ more))).
    assert (S2 : JSON.strip_prefix "};" (String c (String c' (t' ++ more)))
                 = match JSON.strip_prefix "};" (String c (String c' t')) with
                   | Some r => Some (r ++ more)
                   | None => None
                   end).
    { cbn [JSON.strip_prefix].
      destruct (Ascii.eqb "}"%char c); [|reflexivity].
      destruct (Ascii.eqb ";"%char c'); reflexivity. }
    rewrite S2.
    destruct (JSON.strip_prefix "};" (String c (String c' t'))); [exact E|].
    destruct (until_close (String c' t')) as [body|] eqn:U; [|discriminate].
    change (String c' (t' ++ more)) with (String c' t' ++ more).
    now rewrite (IH body eq_refl).
Qed.

(** The template has the marker once, right before the payload. *)
Lemma match_DATA_head (body : string) :
  match_DATA (html_head ++ String "{" body) =
  match until_close body with
  | Some b => Some (String "{" (b ++ "}"))
  | None => match_DATA body
  end.
Proof. vm_compute. reflexivity. Qed.

Lemma html_tail_starts : exists more, html_tail = ";" ++ more.
Proof. eexists. vm_compute. reflexivity. Qed.

Lemma match_DATA_export (J : string) :
  closes_only_at_end J = true -> JSON.starts_with (Ascii.eqb "{") J = true ->
  match_DATA (html_head ++ J ++ html_tail) = Some J.
Proof.
  intros Hsafe Hstart. destruct J as [|c body]; [discriminate|].
  cbn [JSON.starts_with] in Hstart. apply Ascii.eqb_eq in Hstart. subst c.
  unfold closes_only_at_end in Hsafe.
  destruct (until_close (body ++ ";")) as [b|] eqn:U; [|discriminate].
  apply String.eqb_eq in Hsafe.
  destruct html_tail_starts as [more ->].
  change (String "{" body ++ ";" ++ more) with (String "{" (body ++ ";" ++ more)).
  rewrite match_DATA_head.
  rewrite <- append_assoc.
  rewrite (until_close_more _ more b U). now rewrite Hsafe.
Qed.


Lemma html_payload_starts (R : AnalysisResult float) (g : string) :
  JSON.starts_with (Ascii.eqb "{")
    (JSON.stringify EmptyString (html_payload R g)) = true.
Proof. reflexivity. Qed.

(** The payload of a report that has its four fields is read as the
    report: the time stamp is not a property of a report. *)
Lemma decode_html_payload (R : AnalysisResult float) (g : string) s d b r :
  summary R = Some s -> details R = Some d ->
  badCountries R = Some b -> recommendations R = Some r ->
  decode_document (html_payload R g) = Some (Some R).
Proof.
  destruct R as [s' d' b' r'].
  cbn [summary details badCountries recommendations]. intros -> -> -> ->.
  unfold decode_document, html_payload, tested_property.
  cbn [JSON.get summary details badCountries recommendations or_nil
       String.eqb Ascii.eqb Bool.eqb].
  cbn [JSON.falsy encode_summary encode_details encode_strings].
  change (JSON.JArray (List.map encode_record d)) with (encode_details d).
  change (JSON.JArray (List.map JSON.JString b)) with (encode_strings b).
  change (JSON.JArray (List.map JSON.JString r)) with (encode_strings r).
  rewrite decode_encode_details, !decode_encode_strings.
  destruct s; reflexivity.
Qed.

(** The HTML export is imported unchanged when the payload has no
    closing brace followed by a semicolon before its end. *)
Lemma html_export_import_round_trip
  (R : AnalysisResult float) (name generatedAt : string) s d b r :
  summary R = Some s -> details R = Some d ->
  badCountries R = Some b -> recommendations R = Some r ->
  JSON.clean (html_payload R generatedAt) = true ->
  closes_only_at_end
    (JSON.stringify EmptyString (html_payload R generatedAt)) = true ->
  endsWith name ".json" = false -> endsWith name ".html" = true ->
  handleImportFile None name (handleDownloadHtml R generatedAt)
  = Some (Loaded R).
Proof.
  intros Hs Hd Hb Hr Hc Hsafe Hj Hh.
  unfold handleImportFile, read_file, handleDownloadHtml.
  rewrite Hj, Hh.
  rewrite (match_DATA_export _ Hsafe (html_payload_starts R generatedAt)).
  rewrite (parse_stringify EmptyString _ eq_refl Hc).
  rewrite (decode_html_payload R generatedAt s d b r Hs Hd Hb Hr).
  rewrite (import_document_loaded R d Hd).
  now rewrite (repair_complete R s d b r Hs Hd Hb Hr).
Qed.

Lemma html_export_import_example :
  handleImportFile None "AdArbitrage-Interactive-2026-11-03.html"
    (handleDownloadHtml example_merged "11/3/2026, 10:00:00 AM")
  = Some (Loaded example_merged).
Proof.
  apply (html_export_import_round_trip example_merged _ _
           (totals 160 175 15 9.375)
           [record "India" 150 170 20 13.333333333333334 PROFITABLE;
            record "Brazil" 10 5 (-5) (-50) LOSS] [] []);
    vm_compute; reflexivity.
Qed.

End HtmlRoundTrip.

(** C7 at a report with a recommendation that holds a closing brace
    followed by a semicolon: the group of the regular expression ends
    inside that string, [JSON.parse] fails on it and the import of the
    HTML export is abandoned, whatever the time stamp; the JSON export of
    the same report is imported unchanged. *)
Theorem html_import_stops_at_brace_semicolon :
  forall generatedAt : string,
    match_DATA (handleDownloadHtml braces_report generatedAt)
      = Some braces_group /\
    JSON.parse braces_group = None /\
    handleImportFile None "AdArbitrage-Interactive-2026-11-03.html"
      (handleDownloadHtml braces_report generatedAt)
      = Some LoadFailed /\
    handleImportFile None "AdArbitrage-Data-2026-11-03.json"
      (handleDownloadJson braces_report)
      = Some (Loaded braces_report).
Proof.
  intro generatedAt.
  assert (E : match_DATA (handleDownloadHtml braces_report generatedAt)
              = Some braces_group) by (vm_compute; reflexivity).
  assert (P : JSON.parse braces_group = None) by (vm_compute; reflexivity).
  split; [exact E|]. split; [exact P|]. split.
  - unfold handleImportFile, read_file.
    change (endsWith "AdArbitrage-Interactive-2026-11-03.html" ".json")
      with false.
    change (endsWith "AdArbitrage-Interactive-2026-11-03.html" ".html")
      with true.
    cbv iota. rewrite E, P. reflexivity.
  - vm_compute. reflexivity.
Qed.

(** * More facts *)

(** ** Lists without repetition *)

Section DistinctFacts.

Context {A : Type} (eqb : A -> A -> bool).
Hypothesis eqb_spec : forall x y, eqb x y = true <-> x = y.

Lemma filter_filter (f g : A -> bool) (l : list A) :
  filter f (filter g l) = filter (fun x => f x && g x) l.
Proof.
  induction l as [|x l IH]; simpl; [reflexivity|].
  destruct (g x); simpl; destruct (f x); simpl; now rewrite IH.
Qed.

Lemma filter_nothing (f : A -> bool) (l : list A) :
  (forall x, In x l -> f x = false) -> filter f l = [].
Proof.
  induction l as [|x l IH]; intro Hall; [reflexivity|]. simpl.
  rewrite (Hall x) by now left. apply IH. intros y Hy. apply Hall. now right.
Qed.

Lemma existsb_eqb_In (x : A) (l : list A) :
  existsb (eqb x) l = true <-> In x l.
Proof.
  rewrite existsb_exists. split.
  - intros (y & Hy & E). apply eqb_spec in E. now subst.
  - intro Hx. exists x. split; [exact Hx | now apply eqb_spec].
Qed.

Lemma distinct_In (l : list A) (x : A) : In x (distinct eqb l) <-> In x l.
Proof.
  induction l as [|y l IH]; simpl; [tauto|].
  rewrite filter_In, IH, negb_true_iff. split.
  - intros [->|[Hx _]]; tauto.
  - intros [->|Hx]; [now left|].
    destruct (eqb x y) eqn:E.
    + apply eqb_spec in E. now left.
    + right. now split.
Qed.

Lemma filter_keeps_NoDup (f : A -> bool) (l : list A) :
  NoDup l -> NoDup (filter f l).
Proof.
  induction 1 as [|x l Hx Hn IH]; simpl; [constructor|].
  destruct (f x); [|exact IH].
  constructor; [|exact IH]. rewrite filter_In. tauto.
Qed.

Lemma distinct_NoDup (l : list A) : NoDup (distinct eqb l).
Proof.
  induction l as [|y l IH]; simpl; constructor.
  - rewrite filter_In, negb_true_iff. intros [_ E].
    assert (eqb y y = true) by now apply eqb_spec. congruence.
  - now apply filter_keeps_NoDup.
Qed.

Lemma distinct_id (l : list A) : NoDup l -> distinct eqb l = l.
Proof.
  induction 1 as [|x l Hx Hn IH]; simpl; [reflexivity|].
  rewrite IH. f_equal. apply filter_all.
  intros y Hy. apply negb_true_iff.
  destruct (eqb y x) eqn:E; [|reflexivity].
  apply eqb_spec in E. now subst.
Qed.

Lemma distinct_app (l1 l2 : list A) :
  distinct eqb (l1 ++ l2) =
  distinct eqb l1
  ++ filter (fun y => negb (existsb (eqb y) l1)) (distinct eqb l2).
Proof.
  induction l1 as [|x l1 IH]; simpl.
  - symmetry. apply filter_all. reflexivity.
  - f_equal. rewrite IH, filter_app, filter_filter.
    apply (f_equal (app _)).
    apply filter_ext. intro y.
    now rewrite negb_orb.
Qed.

Lemma distinct_twice (l : list A) : NoDup l -> distinct eqb (l ++ l) = l.
Proof.
  intro Hn. rewrite distinct_app, (distinct_id l Hn).
  rewrite filter_nothing; [apply app_nil_r|].
  intros x Hx. apply negb_false_iff. now apply existsb_eqb_In.
Qed.

(** Adding the elements one by one to a list without repetition. *)
Lemma fold_add_distinct (add_one : list A -> A -> list A) :
  (forall acc x, add_one acc x = if existsb (eqb x) acc then acc else acc ++ [x]) ->
  forall l acc,
    fold_left add_one l acc =
    acc ++ filter (fun y => negb (existsb (eqb y) acc)) (distinct eqb l).
Proof.
  intros Hadd. induction l as [|x l IH]; intro acc; simpl.
  - now rewrite app_nil_r.
  - rewrite IH, Hadd. destruct (existsb (eqb x) acc) eqn:E; simpl.
    + f_equal. rewrite filter_filter.
      apply filter_ext_in. intros y _.
      destruct (existsb (eqb y) acc) eqn:Ey; simpl; [reflexivity|].
      destruct (eqb y x) eqn:Eyx; [|reflexivity].
      apply eqb_spec in Eyx. subst. congruence.
    + rewrite <- app_assoc. simpl. do 2 f_equal.
      rewrite filter_filter. apply filter_ext. intro y.
      rewrite existsb_app. simpl. rewrite orb_false_r, negb_orb.
      reflexivity.
Qed.

End DistinctFacts.

(** ** The merge for arbitrary details *)

Section MergeOrderFacts.

Context {num : Type} `{Number num}.

Lemma Map_set_keys (m : Map num) (k : option string) (v : CountryData num) :
  List.map fst (Map_set m k v) = add_key (List.map fst m) k.
Proof.
  unfold add_key. induction m as [|[k0 v0] m IH]; simpl; [reflexivity|].
  rewrite (key_eqb_sym k k0).
  destruct (key_eqb k0 k); simpl; [reflexivity|].
  rewrite IH. destruct (existsb (key_eqb k) (List.map fst m)); reflexivity.
Qed.

Lemma merge_item_key_list (m : Map num) (y : CountryData num) :
  List.map fst (merge_item m y) = add_key (List.map fst m) (country y).
Proof.
  rewrite merge_item_get.
  destruct (Map_get m (country y)); apply Map_set_keys.
Qed.

Lemma merge_items_key_list (l : list (CountryData num)) (m : Map num) :
  List.map fst (fold_left merge_item l m)
  = fold_left add_key (List.map country l) (List.map fst m).
Proof.
  revert m. induction l as [|y l IH]; intro m; simpl; [reflexivity|].
  now rewrite IH, merge_item_key_list.
Qed.

Lemma base_key_list (l : list (CountryData num)) (m : Map num) :
  List.map fst (fold_left base_step l m)
  = fold_left add_key (List.map country l) (List.map fst m).
Proof.
  revert m. induction l as [|y l IH]; intro m; simpl; [reflexivity|].
  rewrite IH. unfold base_step. now rewrite Map_set_keys.
Qed.

(** The countries of the merged details: those of the session first,
    then the new ones of the import, each once. *)
Lemma merged_details_order (bd d : list (CountryData num)) :
  List.map country (merged_details bd d)
  = distinct key_eqb (List.map country bd ++ List.map country d).
Proof.
  unfold merged_details.
  rewrite values_countries by apply mergedDetailsMap_well_keyed.
  unfold mergedDetailsMap.
  rewrite merge_items_key_list, base_key_list, <- fold_left_app.
  rewrite (fold_add_distinct key_eqb key_eqb_eq add_key) by reflexivity.
  simpl. apply filter_all. reflexivity.
Qed.

Lemma Map_get_merge_items (l : list (CountryData num)) (m : Map num) k :
  Map_get (fold_left merge_item l m) k
  = accumulate (Map_get m k) (records_of l k).
Proof.
  unfold accumulate, records_of.
  revert m. induction l as [|y l IH]; intro m; simpl; [reflexivity|].
  rewrite IH, Map_get_merge_item.
  destruct (key_eqb (country y) k) eqn:E; [|reflexivity].
  apply key_eqb_eq in E. now subst k.
Qed.

Lemma Map_get_base_steps (l : list (CountryData num)) (m : Map num) k :
  Map_get (fold_left base_step l m) k
  = match last_record l k with
    | Some x => Some x
    | None => Map_get m k
    end.
Proof.
  unfold last_record.
  induction l as [|x l IH] using rev_ind; [reflexivity|].
  rewrite fold_left_app, rev_app_distr. simpl.
  unfold base_step at 1. rewrite Map_get_set.
  unfold find_country. simpl.
  destruct (key_eqb (country x) k); [reflexivity | exact IH].
Qed.

Lemma merged_details_accumulate (bd d : list (CountryData num)) k :
  find_country (merged_details bd d) k
  = accumulate (last_record bd k) (records_of d k).
Proof.
  unfold merged_details.
  rewrite find_country_values by apply mergedDetailsMap_well_keyed.
  unfold mergedDetailsMap.
  rewrite Map_get_merge_items, Map_get_base_steps. simpl.
  now destruct (last_record bd k).
Qed.

Lemma Map_set_fresh (m : Map num) k v :
  ~ In k (List.map fst m) -> Map_set m k v = m ++ [(k, v)].
Proof.
  induction m as [|[k0 v0] m IH]; simpl; intro Hn; [reflexivity|].
  destruct (key_eqb k0 k) eqn:E.
  - apply key_eqb_eq in E. tauto.
  - rewrite IH by tauto. reflexivity.
Qed.

Lemma base_steps_fresh (l : list (CountryData num)) (m : Map num) :
  NoDup (List.map fst m ++ List.map country l) ->
  fold_left base_step l m = m ++ List.map (fun x => (country x, x)) l.
Proof.
  revert m. induction l as [|x l IH]; intros m Hn; simpl.
  - now rewrite app_nil_r.
  - unfold base_step at 2.
    rewrite Map_set_fresh.
    + rewrite IH.
      * now rewrite <- app_assoc.
      * rewrite map_app. simpl. rewrite <- app_assoc. exact Hn.
    + simpl in Hn. apply NoDup_remove_2 in Hn.
      intro Hin. apply Hn. apply in_or_app. now left.
Qed.

Lemma merged_details_nil_r (bd : list (CountryData num)) :
  NoDup (List.map country bd) -> merged_details bd [] = bd.
Proof.
  intro Hn. unfold merged_details, mergedDetailsMap. simpl.
  rewrite base_steps_fresh by exact Hn. simpl.
  unfold Map_values. rewrite map_map. simpl. apply map_id.
Qed.

Lemma Array_from_Set_distinct (l : list string) :
  Array_from_Set l = distinct String.eqb l.
Proof.
  unfold Array_from_Set.
  rewrite (fold_add_distinct String.eqb String.eqb_eq Set_add) by reflexivity.
  simpl. apply filter_all. reflexivity.
Qed.

End MergeOrderFacts.

(** X1.  Whatever the details of the two reports are, the merged details
    list every country once: the countries of the session in the order
    of their first occurrence, then the countries that only the import
    has, in the order of their first occurrence. *)
Theorem merged_countries_in_order :
  forall (base imp : AnalysisResult float) bd bb br d,
    details base = Some bd -> badCountries base = Some bb ->
    recommendations base = Some br -> details imp = Some d ->
    exists r md,
      import_document (Some base) (Some imp) = Merged r /\
      details r = Some md /\
      List.map country md
        = distinct key_eqb (List.map country bd ++ List.map country d) /\
      NoDup (List.map country md) /\
      (forall k, In k (List.map country md) <->
                 In k (List.map country bd) \/ In k (List.map country d)).
Proof.
  intros base imp bd bb br d Hd Hb Hr Hi.
  rewrite (import_document_merged base imp bd bb br d Hd Hb Hr Hi).
  do 2 eexists. split; [reflexivity|]. split; [reflexivity|].
  split; [apply merged_details_order|].
  split; [apply merged_details_NoDup | apply merged_details_countries].
Qed.

Lemma merged_countries_in_order_witness :
  exists r md,
    import_document (Some example_base) (Some nameless_payload) = Merged r /\
    details r = Some md /\
    List.map country md = [Some "India"%string; Some EmptyString; None].
Proof.
  destruct (merged_countries_in_order example_base nameless_payload
              (or_nil (details example_base)) [] []
              (or_nil (details nameless_payload))
              eq_refl eq_refl eq_refl eq_refl)
    as (r & md & Hr & Hmd & Ho & _).
  exists r, md. split; [exact Hr|]. split; [exact Hmd|].
  rewrite Ho. reflexivity.
Defined.

(** X2.  Whatever the details of the two reports are, the record that a
    merge leaves for a country is the last record that the session has
    for it, with the records that the import has for it added one after
    the other; when the session has none, it is the first record of the
    import with the later ones added. *)
Theorem merge_accumulates_repeated_countries :
  forall (base imp : AnalysisResult float) bd bb br d,
    details base = Some bd -> badCountries base = Some bb ->
    recommendations base = Some br -> details imp = Some d ->
    exists r md,
      import_document (Some base) (Some imp) = Merged r /\
      details r = Some md /\
      forall k, find_country md k
                = accumulate (last_record bd k) (records_of d k).
Proof.
  intros base imp bd bb br d Hd Hb Hr Hi.
  rewrite (import_document_merged base imp bd bb br d Hd Hb Hr Hi).
  do 2 eexists. split; [reflexivity|]. split; [reflexivity|].
  intro k. apply merged_details_accumulate.
Qed.

Lemma merge_accumulates_repeated_countries_witness :
  exists r md,
    import_document (Some repeated_base) (Some repeated_incoming) = Merged r /\
    details r = Some md /\
    find_country md (Some "India"%string)
      = Some (record "India" 151 171 20 13.245033112582782 PROFITABLE) /\
    find_country md (Some "Brazil"%string)
      = Some (record "Brazil" 20 10 (-10) (-50) LOSS).
Proof.
  destruct (merge_accumulates_repeated_countries repeated_base repeated_incoming
              (or_nil (details repeated_base)) [] []
              (or_nil (details repeated_incoming))
              eq_refl eq_refl eq_refl eq_refl)
    as (r & md & Hr & Hmd & Hk).
  exists r, md. split; [exact Hr|]. split; [exact Hmd|].
  split; rewrite Hk; vm_compute; reflexivity.
Defined.

(** X3.  The bad countries of a merge are those of the session followed
    by those of the import, each kept at its first occurrence only, and
    so are the recommendations: no entry occurs twice, every entry of
    either report is there, and a list of the session that has no
    repetition is the beginning of the merged one. *)
Theorem merged_lists_are_unions :
  forall (base imp : AnalysisResult float) bd bb br d,
    details base = Some bd -> badCountries base = Some bb ->
    recommendations base = Some br -> details imp = Some d ->
    exists r lb lr,
      import_document (Some base) (Some imp) = Merged r /\
      badCountries r = Some lb /\ recommendations r = Some lr /\
      lb = distinct String.eqb (bb ++ or_nil (badCountries imp)) /\
      lr = distinct String.eqb (br ++ or_nil (recommendations imp)) /\
      NoDup lb /\ NoDup lr /\
      (forall c, In c lb <-> In c bb \/ In c (or_nil (badCountries imp))) /\
      (forall c, In c lr <-> In c br \/ In c (or_nil (recommendations imp))) /\
      (NoDup bb -> exists new, lb = bb ++ new) /\
      (NoDup br -> exists new, lr = br ++ new).
Proof.
  intros base imp bd bb br d Hd Hb Hr Hi.
  rewrite (import_document_merged base imp bd bb br d Hd Hb Hr Hi).
  do 3 eexists. split; [reflexivity|].
  split; [reflexivity|]. split; [reflexivity|].
  split; [apply Array_from_Set_distinct|].
  split; [apply Array_from_Set_distinct|].
  rewrite !Array_from_Set_distinct.
  split; [apply (distinct_NoDup String.eqb String.eqb_eq)|].
  split; [apply (distinct_NoDup String.eqb String.eqb_eq)|].
  split; [intro c; rewrite (distinct_In String.eqb String.eqb_eq); apply in_app_iff|].
  split; [intro c; rewrite (distinct_In String.eqb String.eqb_eq); apply in_app_iff|].
  split; intro Hn; rewrite distinct_app,
    (distinct_id String.eqb String.eqb_eq _ Hn); eexists; reflexivity.
Qed.

Lemma merged_lists_are_unions_witness :
  exists r,
    import_document (Some blocklist_base) (Some blocklist_incoming) = Merged r /\
    badCountries r = Some ["Brazil"; "Chad"; "Peru"]%string /\
    recommendations r = Some ["Pause Brazil"]%string.
Proof.
  destruct (merged_lists_are_unions blocklist_base blocklist_incoming
              [] ["Brazil"; "Chad"]%string ["Pause Brazil"]%string []
              eq_refl eq_refl eq_refl eq_refl)
    as (r & lb & lr & Hr & Hb & Hl & -> & -> & _).
  exists r. split; [exact Hr|]. split; [exact Hb | exact Hl].
Defined.

(** X4.  Importing a report without records and without entries in its
    lists into a session whose report has unique countries and lists
    without repetition leaves the records and the lists as they are; the
    summary is replaced by the totals of the records. *)
Theorem merging_an_empty_report :
  forall (base imp : AnalysisResult float) bd bb br,
    details base = Some bd -> badCountries base = Some bb ->
    recommendations base = Some br ->
    details imp = Some [] ->
    or_nil (badCountries imp) = [] -> or_nil (recommendations imp) = [] ->
    NoDup (List.map country bd) -> NoDup bb -> NoDup br ->
    import_document (Some base) (Some imp)
    = Merged {| summary := Some (merged_summary bd);
                details := Some bd;
                badCountries := Some bb;
                recommendations := Some br |}.
Proof.
  intros base imp bd bb br Hd Hb Hr Hi Eb Er Nd Nb Nr.
  rewrite (import_document_merged base imp bd bb br [] Hd Hb Hr Hi).
  rewrite Eb, Er, !app_nil_r, !Array_from_Set_distinct.
  rewrite (distinct_id String.eqb String.eqb_eq bb Nb).
  rewrite (distinct_id String.eqb String.eqb_eq br Nr).
  now rewrite (merged_details_nil_r bd Nd).
Qed.

Lemma merging_an_empty_report_witness :
  import_document (Some stale_payload) (Some empty_report)
  = Merged (report (Some (totals 100 150 50 50))
                   [record "India" 100 150 50 50 PROFITABLE]).
Proof.
  apply (merging_an_empty_report stale_payload empty_report
           [record "India" 100 150 50 50 PROFITABLE] [] []);
    try reflexivity; repeat constructor; simpl; tauto.
Defined.

(** X5.  A document with unique countries that is loaded and then
    imported again is counted twice: the merged details have the same
    countries in the same order, and each record has its cost and its
    revenue added to themselves. *)
Theorem importing_twice_counts_twice :
  forall (imp : AnalysisResult float) (d : list (CountryData float)),
    details imp = Some d -> NoDup (List.map country d) ->
    exists first second md,
      import_document None (Some imp) = Loaded first /\
      import_document (Some first) (Some imp) = Merged second /\
      details second = Some md /\
      List.map country md = List.map country d /\
      (forall x, In x d ->
         exists z, find_country md (country x) = Some z /\
           cost z = Some (ToNumber (cost x) + ToNumber (cost x))%float /\
           revenue z
             = Some (ToNumber (revenue x) + ToNumber (revenue x))%float).
Proof.
  intros imp d Hi Hn.
  exists (repair imp d). do 2 eexists.
  split; [apply (import_document_loaded imp d Hi)|].
  split.
  { apply (import_document_merged (repair imp d) imp d
             (or_nil (badCountries imp)) (or_nil (recommendations imp)) d
             eq_refl eq_refl eq_refl Hi). }
  split; [reflexivity|]. split.
  - rewrite merged_details_order.
    now apply (distinct_twice key_eqb key_eqb_eq).
  - intros x Hx. exists (merge_existing x x).
    rewrite (merged_details_find d d (country x) Hn Hn).
    rewrite (find_country_In d x Hn Hx). simpl. repeat split.
Qed.

Lemma importing_twice_counts_twice_witness :
  exists first second md z,
    import_document None (Some example_incoming) = Loaded first /\
    import_document (Some first) (Some example_incoming) = Merged second /\
    details second = Some md /\
    List.map country md = [Some "India"%string; Some "Brazil"%string] /\
    find_country md (Some "India"%string) = Some z /\
    cost z = Some 100%float /\ revenue z = Some 40%float.
Proof.
  destruct (importing_twice_counts_twice example_incoming
              (or_nil (details example_incoming)) eq_refl)
    as (first & second & md & H1 & H2 & H3 & H4 & H5).
  - repeat constructor; simpl; intuition discriminate.
  - destruct (H5 (record "India" 50 20 (-30) (-60) LOSS)) as (z & Hz & Hc & Hr);
      [simpl; now left|].
    exists first, second, md, z.
    split; [exact H1|]. split; [exact H2|]. split; [exact H3|].
    split; [exact H4|]. split; [exact Hz|]. split; [exact Hc | exact Hr].
Defined.

(** ** Amounts that are not there *)

Section NotANumber.

Lemma Prim2SF_nan : Prim2SF PrimFloat.nan = S754_nan.
Proof. reflexivity. Qed.

Lemma add_nan_l (y : float) : (PrimFloat.nan + y)%float = PrimFloat.nan.
Proof. apply Prim2SF_inj. now rewrite add_spec, Prim2SF_nan. Qed.

Lemma add_nan_r (x : float) : (x + PrimFloat.nan)%float = PrimFloat.nan.
Proof.
  apply Prim2SF_inj. rewrite add_spec, Prim2SF_nan.
  destruct (Prim2SF x); reflexivity.
Qed.

Lemma sub_nan_r (x : float) : (x - PrimFloat.nan)%float = PrimFloat.nan.
Proof.
  apply Prim2SF_inj. rewrite sub_spec, Prim2SF_nan.
  destruct (Prim2SF x); reflexivity.
Qed.

Lemma ltb_nan_l (y : float) : (PrimFloat.nan <? y)%float = false.
Proof. rewrite ltb_spec, Prim2SF_nan. reflexivity. Qed.

Lemma ltb_nan_r (x : float) : (x <? PrimFloat.nan)%float = false.
Proof.
  rewrite ltb_spec, Prim2SF_nan. unfold SFltb.
  destruct (Prim2SF x); reflexivity.
Qed.

Lemma sum_nan (f : CountryData float -> float) (l : list (CountryData float)) :
  fold_left (fun s i => (s + f i)%float) l PrimFloat.nan = PrimFloat.nan.
Proof.
  induction l as [|x l IH]; simpl; [reflexivity|]. now rewrite add_nan_l.
Qed.

Lemma sum_with_nan (f : CountryData float -> float)
  (l : list (CountryData float)) (z : float) :
  (exists x, In x l /\ f x = PrimFloat.nan) ->
  fold_left (fun s i => (s + f i)%float) l z = PrimFloat.nan.
Proof.
  revert z. induction l as [|y l IH]; intros z [x [Hx E]]; [destruct Hx|].
  simpl. destruct Hx as [->|Hx].
  - rewrite E, add_nan_r. apply sum_nan.
  - apply IH. now exists x.
Qed.

End NotANumber.

(** X6.  When one of two records of a country has no cost, the merged
    record has the cost NaN and the profit NaN, the roi 0 and the status
    BREAK_EVEN, and the summary of any details that hold it has the
    total cost NaN, the net profit NaN and the total roi 0: an absent
    amount counts as 0 when a document is loaded, not when it is
    merged. *)
Theorem merging_a_record_without_a_cost :
  forall (existing newItem : CountryData float),
    cost existing = None \/ cost newItem = None ->
    cost (merge_existing existing newItem) = Some PrimFloat.nan /\
    profit (merge_existing existing newItem) = Some PrimFloat.nan /\
    roi (merge_existing existing newItem) = Some 0%float /\
    status (merge_existing existing newItem) = Some BREAK_EVEN /\
    (forall d, In (merge_existing existing newItem) d ->
       totalCost (merged_summary d) = PrimFloat.nan /\
       netProfit (merged_summary d) = PrimFloat.nan /\
       totalRoi (merged_summary d) = 0%float).
Proof.
  intros x y H.
  assert (C : (ToNumber (cost x) + ToNumber (cost y))%float = PrimFloat.nan).
  { destruct H as [E|E]; rewrite E; simpl;
      [apply add_nan_l | apply add_nan_r]. }
  unfold merge_existing. cbn [cost profit roi status].
  change (@add float float_Number) with PrimFloat.add.
  change (@sub float float_Number) with PrimFloat.sub.
  rewrite C, sub_nan_r.
  unfold roi_of, status_of, gt.
  change (@lt float float_Number) with PrimFloat.ltb.
  change (@zero float float_Number) with 0%float.
  rewrite !ltb_nan_r, ltb_nan_l.
  split; [reflexivity|]. split; [reflexivity|].
  split; [reflexivity|]. split; [reflexivity|].
  intros d Hd.
  assert (S : fold_left (fun s i => (s + ToNumber (cost i))%float) d 0%float
              = PrimFloat.nan).
  { apply (sum_with_nan (fun i => ToNumber (cost i))).
    eexists. split; [exact Hd | reflexivity]. }
  unfold merged_summary, ratio_of, gt. cbn [totalCost netProfit totalRoi].
  change (@add float float_Number) with PrimFloat.add.
  change (@sub float float_Number) with PrimFloat.sub.
  change (@lt float float_Number) with PrimFloat.ltb.
  change (@zero float float_Number) with 0%float.
  rewrite S, sub_nan_r, ltb_nan_r. repeat split.
Qed.

Lemma merging_a_record_without_a_cost_witness :
  cost (merge_existing costless_record (record "India" 50 20 (-30) (-60) LOSS))
  = Some PrimFloat.nan.
Proof.
  apply (merging_a_record_without_a_cost costless_record
           (record "India" 50 20 (-30) (-60) LOSS)).
  now left.
Defined.

(** ** Files that the import reads or refuses *)

Section FileFacts.

#[local] Open Scope string_scope.

Lemma parse_rejects (c : ascii) (t : string) :
  JSON.is_ws c = false -> JSON.value_start c = false ->
  JSON.parse (String c t) = None.
Proof.
  destruct c as [[] [] [] [] [] [] [] []]; try discriminate; reflexivity.
Qed.

Lemma html_head_starts : exists rest, html_head = String "<" rest.
Proof. eexists. vm_compute. reflexivity. Qed.

(** The text of the HTML export is no JSON text. *)
Lemma html_export_is_not_json (R : AnalysisResult float) (g : string) :
  JSON.parse (handleDownloadHtml R g) = None.
Proof.
  unfold handleDownloadHtml. destruct html_head_starts as [rest ->].
  change (String "<" rest ++ ?x) with (String "<" (rest ++ x)).
  now apply parse_rejects.
Qed.

Lemma substring_skip (p s : string) (n : nat) :
  String.substring (String.length p) n (p ++ s) = String.substring 0 n s.
Proof. induction p as [|a p IH]; [reflexivity | exact IH]. Qed.

Lemma substring_prefix (J q : string) :
  String.substring 0 (String.length J) (J ++ q) = J.
Proof.
  induction J as [|a J IH]; simpl.
  - destruct q; reflexivity.
  - now rewrite IH.
Qed.

Lemma substring_all (s : string) :
  String.substring 0 (String.length s) s = s.
Proof. induction s as [|c s IH]; simpl; [reflexivity | now rewrite IH]. Qed.

Lemma endsWith_append (a t u : string) :
  String.length t = String.length u ->
  endsWith (a ++ t) u = String.eqb t u.
Proof.
  intro L. unfold endsWith. rewrite length_append, <- L.
  replace (String.length a + String.length t - String.length t)
    with (String.length a) by lia.
  rewrite substring_skip, substring_all.
  replace (String.length t <=? String.length a + String.length t)%nat
    with true by (symmetry; apply Nat.leb_le; lia).
  apply andb_true_r.
Qed.

Lemma json_file_name_ends (date : string) :
  endsWith (json_file_name date) ".json" = true.
Proof.
  unfold json_file_name. rewrite <- append_assoc.
  now rewrite endsWith_append.
Qed.

Lemma html_file_name_ends (date : string) :
  endsWith (html_file_name date) ".json" = false /\
  endsWith (html_file_name date) ".html" = true.
Proof.
  unfold html_file_name. rewrite <- append_assoc.
  now rewrite !endsWith_append.
Qed.

Lemma last_character (c : ascii) (s : string) :
  exists a d, String c s = a ++ String d EmptyString.
Proof.
  revert c. induction s as [|c' s IH]; intro c.
  - now exists EmptyString, c.
  - destruct (IH c') as (a & d & E). exists (String c a), d.
    simpl. now rewrite E.
Qed.

Lemma image_file_name_ends (date : string) :
  endsWith (image_file_name date) ".json" = false /\
  endsWith (image_file_name date) ".html" = false.
Proof.
  unfold image_file_name. rewrite <- append_assoc.
  destruct (last_character "A" ("dArbitrage-Report-" ++ date)) as (a & d & E).
  change ("AdArbitrage-Report-" ++ date)
    with (String "A" ("dArbitrage-Report-" ++ date)).
  rewrite E, append_assoc.
  change (String d EmptyString ++ ".png") with (String d ".png").
  rewrite !endsWith_append by reflexivity.
  simpl. destruct (Ascii.eqb d "."); split; reflexivity.
Qed.




(** X7.  What the import does with a file it cannot use, whatever the
    session holds: a name that ends neither in .json nor in .html, an
    HTML text without the constant, and a document that is no object or
    has no details (or falsy ones) are answered with the alert of an
    invalid format; a JSON text that does not parse, and an HTML text
    whose constant does not parse, with the alert of a failed load; the
    text of an HTML export under a name in .json is a failed load. *)
Theorem import_refuses_unreadable_files :
  forall (current : option (AnalysisResult float)) (name text : string),
    (endsWith name ".json" = false -> endsWith name ".html" = false ->
     handleImportFile current name text = Some InvalidFormat) /\
    (endsWith name ".json" = true -> JSON.parse text = None ->
     handleImportFile current name text = Some LoadFailed) /\
    (endsWith name ".json" = false -> endsWith name ".html" = true ->
     match_DATA text = None ->
     handleImportFile current name text = Some InvalidFormat) /\
    (endsWith name ".json" = false -> endsWith name ".html" = true ->
     forall group, match_DATA text = Some group -> JSON.parse group = None ->
     handleImportFile current name text = Some LoadFailed) /\
    (forall v, read_file name text = Parsed (Some v) ->
       (decode_document v = Some None \/
        exists imp, decode_document v = Some (Some imp) /\ details imp = None) ->
     handleImportFile current name text = Some InvalidFormat) /\
    (endsWith name ".json" = true ->
     forall R generatedAt,
       handleImportFile current name (handleDownloadHtml R generatedAt)
       = Some LoadFailed).
Proof.
  intros current name text. unfold handleImportFile.
  split; [unfold read_file; intros -> ->; reflexivity|].
  split; [unfold read_file; intros -> ->; reflexivity|].
  split; [unfold read_file; intros -> -> ->; reflexivity|].
  split; [unfold read_file; intros -> -> group -> ->; reflexivity|].
  split.
  - intros v Hv [E|(imp & E & Hd)]; rewrite Hv, E; [reflexivity|].
    unfold import_document. now rewrite Hd.
  - intros Hn R g. rewrite (read_json_file name _ Hn).
    now rewrite html_export_is_not_json.
Qed.

Lemma import_refuses_unreadable_files_witness :
  handleImportFile (Some example_base) "report.txt"
    (handleDownloadJson example_incoming) = Some InvalidFormat /\
  handleImportFile (Some example_base) "report.json" "{details: []}"
    = Some LoadFailed /\
  handleImportFile (Some example_base) "report.html" "<html></html>"
    = Some InvalidFormat /\
  handleImportFile (Some example_base) "report.html"
    "<script>const DATA = {details: []};</script>" = Some LoadFailed /\
  handleImportFile (Some example_base) "report.json" "null"
    = Some InvalidFormat /\
  handleImportFile (Some example_base) "report.json" "{}"
    = Some InvalidFormat /\
  handleImportFile (Some example_base) "report.json"
    (handleDownloadHtml example_incoming "11/3/2026, 10:00:00 AM")
    = Some LoadFailed.
Proof.
  split.
  { apply (proj1 (import_refuses_unreadable_files (Some example_base)
                    "report.txt" (handleDownloadJson example_incoming)));
      reflexivity. }
  split.
  { apply (proj1 (proj2 (import_refuses_unreadable_files (Some example_base)
                    "report.json" "{details: []}"))); reflexivity. }
  split.
  { apply (proj1 (proj2 (proj2 (import_refuses_unreadable_files
                    (Some example_base) "report.html" "<html></html>"))));
      reflexivity. }
  split.
  { apply (proj1 (proj2 (proj2 (proj2 (import_refuses_unreadable_files
                    (Some example_base) "report.html"
                    "<script>const DATA = {details: []};</script>"))))
             eq_refl eq_refl "{details: []}"); reflexivity. }
  split.
  { apply (proj1 (proj2 (proj2 (proj2 (proj2 (import_refuses_unreadable_files
                    (Some example_base) "report.json" "null")))))
             JSON.JNull); [reflexivity|]. left. reflexivity. }
  split.
  { apply (proj1 (proj2 (proj2 (proj2 (proj2 (import_refuses_unreadable_files
                    (Some example_base) "report.json" "{}")))))
             (JSON.JObject [])); [reflexivity|]. right.
    eexists. split; reflexivity. }
  { apply (proj2 (proj2 (proj2 (proj2 (proj2 (import_refuses_unreadable_files
                    (Some example_base) "report.json" EmptyString)))))
             eq_refl). }
Defined.

(** X8.  The names that the downloads give their files send each file
    to its reader, whatever the date in the name is: the JSON export is
    read by [JSON.parse], the HTML export through the regular
    expression, and the image is refused as an invalid format. *)
Theorem exported_files_are_routed_by_name :
  forall (date text : string) (current : option (AnalysisResult float)),
    read_file (json_file_name date) text
      = match JSON.parse text with
        | Some v => Parsed (Some v)
        | None => Threw
        end /\
    read_file (html_file_name date) text
      = match match_DATA text with
        | Some group =>
            match JSON.parse group with
            | Some v => Parsed (Some v)
            | None => Threw
            end
        | None => Parsed None
        end /\
    handleImportFile current (image_file_name date) text = Some InvalidFormat.
Proof.
  intros date text current. split; [|split].
  - apply read_json_file, json_file_name_ends.
  - destruct (html_file_name_ends date) as [Hj Hh].
    unfold read_file. now rewrite Hj, Hh.
  - destruct (image_file_name_ends date) as [Hj Hh].
    unfold handleImportFile, read_file. now rewrite Hj, Hh.
Qed.



End FileFacts.

(** ** Hiding and showing countries *)

Section ToggleFacts.

Context {num : Type} `{Number num}.

Lemma includes_app (l1 l2 : list (option string)) x :
  includes (l1 ++ l2) x = includes l1 x || includes l2 x.
Proof.
  induction l1 as [|y l1 IH]; simpl; [reflexivity|].
  now rewrite IH, orb_assoc.
Qed.

Lemma includes_filter_other (l : list (option string)) c x :
  includes (filter (fun y => negb (key_eqb y c)) l) x
  = includes l x && negb (key_eqb x c).
Proof.
  induction l as [|y l IH]; simpl; [reflexivity|].
  destruct (key_eqb y c) eqn:E; simpl; rewrite IH.
  - apply key_eqb_eq in E. subst y.
    destruct (key_eqb c x) eqn:E'; simpl; [|reflexivity].
    rewrite key_eqb_sym, E'. simpl. now rewrite andb_false_r.
  - destruct (key_eqb y x) eqn:E'; simpl; [|reflexivity].
    apply key_eqb_eq in E'. subst y. now rewrite E.
Qed.

(** What is hidden after a toggle: the country changes sides, the
    others stay. *)
Lemma includes_toggle (s : Dashboard num) c x :
  includes (hiddenCountries (toggleVisibility s c)) x
  = if key_eqb x c then negb (includes (hiddenCountries s) c)
    else includes (hiddenCountries s) x.
Proof.
  unfold toggleVisibility. simpl.
  destruct (includes (hiddenCountries s) c) eqn:E.
  - rewrite includes_filter_other.
    destruct (key_eqb x c); simpl; [apply andb_false_r | apply andb_true_r].
  - rewrite includes_app. simpl. rewrite orb_false_r, (key_eqb_sym c x).
    destruct (key_eqb x c) eqn:E'; simpl; [|apply orb_false_r].
    apply orb_true_r.
Qed.

Lemma includes_toggle_twice (s : Dashboard num) c x :
  includes (hiddenCountries (toggleVisibility (toggleVisibility s c) c)) x
  = includes (hiddenCountries s) x.
Proof.
  rewrite !includes_toggle, key_eqb_refl.
  destruct (key_eqb x c) eqn:E; [|reflexivity].
  apply key_eqb_eq in E. subst x. apply negb_involutive.
Qed.

Lemma toggle_twice_empty (s : Dashboard num) c :
  hiddenCountries (toggleVisibility (toggleVisibility s c) c) = [] <->
  hiddenCountries s = [].
Proof.
  split; intro E.
  - destruct (hiddenCountries s) as [|y l] eqn:Hs; [reflexivity|].
    exfalso.
    pose proof (includes_toggle_twice s c y) as I.
    rewrite E, Hs in I. simpl in I. now rewrite key_eqb_refl in I.
  - unfold toggleVisibility. simpl. rewrite E. simpl.
    now rewrite key_eqb_refl.
Qed.

Lemma NoDup_toggle (s : Dashboard num) c :
  NoDup (hiddenCountries s) -> NoDup (hiddenCountries (toggleVisibility s c)).
Proof.
  intro Hn. unfold toggleVisibility. simpl.
  destruct (includes (hiddenCountries s) c) eqn:E.
  - now apply filter_keeps_NoDup.
  - apply NoDup_app; [exact Hn | repeat constructor; simpl; tauto |].
    intros x Hx [<-|[]].
    apply includes_In in Hx. congruence.
Qed.

Lemma includes_toggles (cs : list (option string)) (s : Dashboard num) c :
  includes (hiddenCountries (fold_left toggleVisibility cs s)) c
  = xorb (includes (hiddenCountries s) c) (Nat.odd (toggles_of cs c)).
Proof.
  unfold toggles_of. revert s. induction cs as [|x cs IH]; intro s; simpl.
  - now rewrite xorb_false_r.
  - rewrite IH, includes_toggle, (key_eqb_sym c x).
    destruct (key_eqb x c) eqn:E; [|reflexivity].
    apply key_eqb_eq in E. subst x. cbn [Datatypes.length].
    rewrite Nat.odd_succ, <- Nat.negb_odd.
    destruct (includes (hiddenCountries s) c), (Nat.odd _); reflexivity.
Qed.

Lemma NoDup_toggles (cs : list (option string)) (s : Dashboard num) :
  NoDup (hiddenCountries s) ->
  NoDup (hiddenCountries (fold_left toggleVisibility cs s)).
Proof.
  revert s. induction cs as [|x cs IH]; intros s Hn; simpl; [exact Hn|].
  apply IH. now apply NoDup_toggle.
Qed.

Lemma data_toggles (cs : list (option string)) (s : Dashboard num) :
  data (fold_left toggleVisibility cs s) = data s.
Proof.
  revert s. induction cs as [|x cs IH]; intro s; simpl; [reflexivity|].
  now rewrite IH.
Qed.

End ToggleFacts.

(** X10.  Toggling a country twice brings back what is on the screen:
    the visible records, the visible bad countries and the summary are
    the same as before, and the list of hidden countries itself when the
    country was not hidden. *)
Theorem toggling_twice_restores_the_view :
  forall (s : Dashboard float) (c : option string),
    visibleData (toggleVisibility (toggleVisibility s c) c) = visibleData s /\
    visibleBadCountries (toggleVisibility (toggleVisibility s c) c)
      = visibleBadCountries s /\
    dashboard_summary (toggleVisibility (toggleVisibility s c) c)
      = dashboard_summary s /\
    (includes (hiddenCountries s) c = false ->
     toggleVisibility (toggleVisibility s c) c = s).
Proof.
  intros s c.
  assert (V : visibleData (toggleVisibility (toggleVisibility s c) c)
              = visibleData s).
  { unfold visibleData. apply filter_ext. intro d.
    now rewrite includes_toggle_twice. }
  split; [exact V|]. split.
  { unfold visibleBadCountries. apply filter_ext. intro d.
    now rewrite includes_toggle_twice. }
  split.
  { unfold dashboard_summary. rewrite V.
    destruct (hiddenCountries (toggleVisibility (toggleVisibility s c) c))
      as [|y l] eqn:E.
    - apply toggle_twice_empty in E. now rewrite E.
    - destruct (hiddenCountries s) as [|y' l'] eqn:E'; [|reflexivity].
      apply (toggle_twice_empty s c) in E'. congruence. }
  intro E. destruct s as [d h]. unfold toggleVisibility. simpl in *.
  rewrite E. rewrite includes_app. simpl. rewrite key_eqb_refl, orb_true_r.
  f_equal. rewrite filter_app. simpl. rewrite key_eqb_refl. simpl.
  rewrite app_nil_r. apply filter_all. intros x Hx.
  apply negb_true_iff, key_eqb_neq. intros ->.
  apply includes_In in Hx. congruence.
Qed.

Lemma toggling_twice_restores_the_view_witness :
  toggleVisibility
    (toggleVisibility {| data := example_merged; hiddenCountries := [] |}
                      (Some "Brazil"%string))
    (Some "Brazil"%string)
  = {| data := example_merged; hiddenCountries := [] |}.
Proof.
  apply (proj2 (proj2 (proj2 (toggling_twice_restores_the_view
           {| data := example_merged; hiddenCountries := [] |}
           (Some "Brazil"%string))))).
  reflexivity.
Defined.

(** X11.  After any sequence of toggles from the state in which nothing
    is hidden, no country is twice in the list of hidden countries, the
    report is the same, a country is hidden when it was toggled an odd
    number of times, and a record is visible when its country was
    toggled an even number of times. *)
Theorem hidden_after_toggles :
  forall (d : AnalysisResult float) (cs : list (option string)),
    NoDup (hiddenCountries (toggled d cs)) /\
    data (toggled d cs) = d /\
    (forall c, In c (hiddenCountries (toggled d cs)) <->
               Nat.odd (toggles_of cs c) = true) /\
    (forall x, In x (visibleData (toggled d cs)) <->
               In x (or_nil (details d)) /\
               Nat.even (toggles_of cs (country x)) = true).
Proof.
  intros d cs. unfold toggled.
  split; [apply NoDup_toggles; constructor|].
  split; [apply data_toggles|].
  assert (I : forall c, In c (hiddenCountries
                     (fold_left toggleVisibility cs
                        {| data := d; hiddenCountries := [] |})) <->
                   Nat.odd (toggles_of cs c) = true).
  { intro c. rewrite <- includes_In, includes_toggles. simpl. reflexivity. }
  split; [exact I|].
  intro x. unfold visibleData. rewrite filter_In, data_toggles. simpl.
  rewrite negb_true_iff, <- Nat.negb_odd, negb_true_iff.
  rewrite includes_toggles. simpl. reflexivity.
Qed.

(** X12.  When every country of the details is hidden, no record is
    visible and the summary on the screen is 0, 0, 0 and 0. *)
Theorem hiding_everything_shows_zero_totals :
  forall (s : Dashboard float),
    hiddenCountries s <> [] ->
    (forall d, In d (or_nil (details (data s))) ->
               In (country d) (hiddenCountries s)) ->
    visibleData s = [] /\ dashboard_summary s = zero_summary.
Proof.
  intros s Hne Hall.
  assert (V : visibleData s = []).
  { unfold visibleData.
    induction (or_nil (details (data s))) as [|x l IH]; [reflexivity|].
    simpl. assert (Hx : includes (hiddenCountries s) (country x) = true)
      by (apply includes_In, Hall; now left).
    rewrite Hx. simpl. apply IH. intros d Hd. apply Hall. now right. }
  split; [exact V|].
  unfold dashboard_summary. rewrite V.
  destruct (hiddenCountries s); [congruence | reflexivity].
Qed.

Lemma hiding_everything_shows_zero_totals_witness :
  dashboard_summary {| data := example_merged;
                       hiddenCountries := [Some "Brazil"; Some "India"]%string |}
  = totals 0 0 0 0.
Proof.
  apply (hiding_everything_shows_zero_totals
           {| data := example_merged;
              hiddenCountries := [Some "Brazil"; Some "India"]%string |}).
  - discriminate.
  - simpl. intros d [<-|[<-|[]]]; simpl; tauto.
Defined.

(** ** What the screens print *)

Section ViewFacts.

Import View.
#[local] Open Scope string_scope.

Lemma substring_length (s : string) (n m : nat) :
  n + m <= String.length s -> String.length (String.substring n m s) = m.
Proof.
  revert n m. induction s as [|c s IH]; intros n m Hl; simpl in *.
  - assert (n = 0) by lia. assert (m = 0) by lia. subst. reflexivity.
  - destruct n as [|n].
    + destruct m as [|m]; [reflexivity|]. simpl. f_equal. apply IH. simpl. lia.
    + apply IH. lia.
Qed.

Lemma zeros_length (n : nat) : String.length (JSON.zeros n) = n.
Proof. induction n as [|n IH]; simpl; [reflexivity | now rewrite IH]. Qed.

Lemma place_point_shape (f : nat) (m : string) :
  1 <= String.length m ->
  exists a b, place_point (S f) m = a ++ "." ++ b /\
              1 <= String.length a /\ String.length b = S f.
Proof.
  intro Hm. unfold place_point.
  set (k := String.length m).
  set (m' := if (k <=? S f)%nat then JSON.zeros (S f + 1 - k) ++ m else m).
  set (k' := if (k <=? S f)%nat then S f + 1 else k).
  assert (Hk : String.length m' = k' /\ S f + 1 <= k').
  { subst m' k'. destruct (k <=? S f)%nat eqn:E.
    - apply Nat.leb_le in E. rewrite length_append, zeros_length.
      fold k. split; lia.
    - apply Nat.leb_gt in E. fold k. split; [reflexivity | lia]. }
  destruct Hk as [Hl Hk].
  exists (String.substring 0 (k' - S f) m'), (String.substring (k' - S f) (S f) m').
  split; [reflexivity|].
  rewrite !substring_length by lia. lia.
Qed.

Lemma digits_fuel_length (fuel : nat) (z : Z) (acc : string) :
  String.length acc <= String.length (JSON.digits_fuel fuel z acc).
Proof.
  revert z acc. induction fuel as [|fuel IH]; intros z acc; simpl; [lia|].
  destruct (z <? 10)%Z; simpl; [lia|].
  specialize (IH (z / 10)%Z (String (JSON.digit_char (z mod 10)) acc)).
  simpl in IH. lia.
Qed.

Lemma digits_of_length (z : Z) : 1 <= String.length (JSON.digits_of z).
Proof.
  unfold JSON.digits_of. cbn [JSON.digits_fuel].
  destruct (z <? 10)%Z; simpl; [lia|].
  pose proof (digits_fuel_length (Z.to_nat (Z.log2 z)) (z / 10)
                (String (JSON.digit_char (z mod 10)) EmptyString)) as L.
  simpl in L. lia.
Qed.

Lemma toFixed_shape (f : nat) (x : float) :
  below_1e21 x = true ->
  exists s a b, toFixed (S f) x = s ++ a ++ "." ++ b /\
                (s = EmptyString \/ s = "-") /\
                1 <= String.length a /\ String.length b = S f.
Proof.
  unfold below_1e21, toFixed. intro B.
  destruct (Prim2SF x) as [sg|sg| |sg m e]; try discriminate.
  - destruct (place_point_shape f "0") as (a & b & E & Ha & Hb); [simpl; lia|].
    exists EmptyString, a, b. rewrite E. repeat split; try assumption. now left.
  - apply negb_true_iff in B. rewrite B.
    set (n := ((2 * _ * 10 ^ Z.of_nat (S f) + _) / _)%Z).
    destruct (place_point_shape f (if (n =? 0)%Z then "0" else JSON.digits_of n))
      as (a & b & E & Ha & Hb).
    { destruct (n =? 0)%Z; [simpl; lia | apply digits_of_length]. }
    exists (if sg then "-" else EmptyString), a, b. rewrite E.
    repeat split; try assumption. destruct sg; [now right | now left].
Qed.

Lemma table_body_some (rows : list (CountryData float)) :
  (exists rs, table_body rows = Some rs) <->
  (forall r, In r rows -> exists x, roi r = Some x).
Proof.
  induction rows as [|row rows IH]; simpl.
  - split; [intros _ r [] | intros _; now eexists].
  - unfold table_row. destruct (roi row) as [x|] eqn:E.
    + destruct (table_body rows) as [rs|].
      * split; [|intros _; now eexists].
        intros _ r [<-|Hr]; [now exists x|].
        now apply (proj1 IH); [eexists|].
      * split; [intros [rs F]; discriminate|].
        intro Hall. exfalso.
        destruct (proj2 IH) as [rs F]; [|discriminate].
        intros r Hr. apply Hall. now right.
    + split; [intros [rs F]; discriminate|].
      intro Hall. destruct (Hall row) as [x F]; [now left | congruence].
Qed.

(** *** The digits of an amount *)

Lemma Z_of_digits_append (s1 s2 : string) (a : Z) :
  JSON.Z_of_digits (s1 ++ s2) a = JSON.Z_of_digits s2 (JSON.Z_of_digits s1 a).
Proof.
  revert a. induction s1 as [|c s1 IH]; intro a; [reflexivity|]. apply IH.
Qed.

Lemma digit_char_value (d : Z) :
  (0 <= d < 10)%Z ->
  JSON.is_digit (JSON.digit_char d) = true /\
  Z.of_nat (nat_of_ascii (JSON.digit_char d) - 48) = d.
Proof.
  intro Hd. unfold JSON.is_digit, JSON.digit_char.
  rewrite nat_ascii_embedding by lia.
  split; [apply andb_true_iff; split; apply Nat.leb_le; lia | lia].
Qed.

Lemma digits_fuel_value (fuel : nat) :
  forall (z : Z) (acc : string),
    (0 <= z < 2 ^ Z.of_nat fuel)%Z ->
    exists D, JSON.digits_fuel fuel z acc = D ++ acc /\
              JSON.all_chars JSON.is_digit D = true /\
              JSON.Z_of_digits D 0 = z.
Proof.
  induction fuel as [|fuel IH]; intros z acc Hz.
  - exists EmptyString. simpl in *. repeat split. lia.
  - cbn [JSON.digits_fuel]. destruct (z <? 10)%Z eqn:E.
    + apply Z.ltb_lt in E.
      destruct (digit_char_value z) as [Hd Hv]; [lia|].
      rewrite Z.mod_small by lia.
      exists (String (JSON.digit_char z) EmptyString).
      split; [reflexivity|]. split.
      * cbn [JSON.all_chars]. rewrite Hd. reflexivity.
      * cbn [JSON.Z_of_digits]. rewrite Hv. lia.
    + apply Z.ltb_ge in E.
      destruct (digit_char_value (z mod 10)) as [Hd Hv];
        [apply Z.mod_pos_bound; lia|].
      destruct (IH (z / 10)%Z (String (JSON.digit_char (z mod 10)) acc))
        as (D & ED & HD & VD).
      { split; [apply Z.div_pos; lia|].
        apply Z.div_lt_upper_bound; [lia|].
        rewrite Nat2Z.inj_succ, Z.pow_succ_r in Hz by lia. lia. }
      exists (D ++ String (JSON.digit_char (z mod 10)) EmptyString).
      split; [rewrite ED; now rewrite append_assoc|].
      split.
      * rewrite all_chars_append, HD. cbn [JSON.all_chars].
        rewrite Hd. reflexivity.
      * rewrite Z_of_digits_append, VD. cbn [JSON.Z_of_digits]. rewrite Hv.
        pose proof (Z.div_mod z 10). lia.
Qed.

Lemma digits_of_value (z : Z) :
  (0 <= z)%Z ->
  JSON.all_chars JSON.is_digit (JSON.digits_of z) = true /\
  JSON.Z_of_digits (JSON.digits_of z) 0 = z.
Proof.
  intro Hz. unfold JSON.digits_of.
  destruct (digits_fuel_value (S (Z.to_nat (Z.log2 z))) z EmptyString)
    as (D & ED & HD & VD).
  { split; [exact Hz|].
    rewrite Nat2Z.inj_succ, Z2Nat.id by apply Z.log2_nonneg.
    destruct (Z.eq_dec z 0) as [->|Hn]; [reflexivity|].
    apply Z.log2_spec. lia. }
  rewrite ED. replace (D ++ EmptyString) with D; [now split|].
  clear. induction D as [|c D IH]; simpl; [reflexivity | now rewrite <- IH].
Qed.

Lemma zeros_value (n : nat) :
  JSON.all_chars JSON.is_digit (JSON.zeros n) = true /\
  JSON.Z_of_digits (JSON.zeros n) 0 = 0%Z.
Proof.
  induction n as [|n [IH1 IH2]]; [now split|].
  cbn [JSON.zeros JSON.all_chars JSON.Z_of_digits]. split; [exact IH1|].
  exact IH2.
Qed.

Lemma substring_split (s : string) (n f : nat) :
  n + f = String.length s ->
  String.substring 0 n s ++ String.substring n f s = s.
Proof.
  revert n f. induction s as [|c s IH]; intros n f Hn; simpl in *.
  - assert (n = 0) as -> by lia. assert (f = 0) as -> by lia. reflexivity.
  - destruct n as [|n]; simpl.
    + destruct f as [|f]; [discriminate Hn|].
      injection Hn as ->. now rewrite substring_all.
    + f_equal. apply IH. lia.
Qed.

(** [place_point] cuts the digits, with zeros in front of them when
    they are too few, [f] places from their end. *)
Lemma place_point_digits (f : nat) (m : string) :
  1 <= String.length m ->
  exists a b, place_point (S f) m = a ++ "." ++ b /\
              1 <= String.length a /\ String.length b = S f /\
              exists z, a ++ b = JSON.zeros z ++ m.
Proof.
  intro Hm. unfold place_point.
  set (k := String.length m).
  set (m' := if (k <=? S f)%nat then JSON.zeros (S f + 1 - k) ++ m else m).
  set (k' := if (k <=? S f)%nat then S f + 1 else k).
  assert (Hk : String.length m' = k' /\ S f + 1 <= k').
  { subst m' k'. destruct (k <=? S f)%nat eqn:E.
    - apply Nat.leb_le in E. rewrite length_append, zeros_length.
      fold k. split; lia.
    - apply Nat.leb_gt in E. fold k. split; [reflexivity | lia]. }
  destruct Hk as [Hl Hk].
  exists (String.substring 0 (k' - S f) m'), (String.substring (k' - S f) (S f) m').
  split; [reflexivity|].
  rewrite !substring_length by lia.
  split; [lia|]. split; [reflexivity|].
  exists (if (k <=? S f)%nat then S f + 1 - k else 0).
  rewrite (substring_split m' (k' - S f) (S f)) by lia.
  subst m'. now destruct (k <=? S f)%nat.
Qed.

(** The sign of a number that is not zero. *)
Lemma ltb_zero_sign (x : float) (sg : bool) (m : positive) (e : Z) :
  Prim2SF x = S754_finite sg m e -> (x <? 0)%float = sg.
Proof.
  intro E. rewrite ltb_spec, E. change (Prim2SF 0) with (S754_zero false).
  now destruct sg.
Qed.

Lemma ltb_zero_zero (x : float) (s : bool) :
  Prim2SF x = S754_zero s -> (x <? 0)%float = false.
Proof.
  intro E. rewrite ltb_spec, E. change (Prim2SF 0) with (S754_zero false).
  now destruct s.
Qed.

(** What [toFixed] writes for a number below [10 ^ 21] in size: the
    sign, and the digits of the integer nearest to [|x| * 10 ^ f], the
    larger one of two, with the point [f] places from their end. *)
Lemma toFixed_value (f : nat) (x : float) :
  below_1e21 x = true ->
  exists a b,
    toFixed (S f) x
      = (if (x <? 0)%float then "-" else EmptyString) ++ a ++ "." ++ b /\
    1 <= String.length a /\ String.length b = S f /\
    JSON.all_chars JSON.is_digit (a ++ b) = true /\
    forall N D, fraction x = Some (N, D) ->
      (2 * D * JSON.Z_of_digits (a ++ b) 0
         <= 2 * N * 10 ^ Z.of_nat (S f) + D
         < 2 * D * (JSON.Z_of_digits (a ++ b) 0 + 1))%Z.
Proof.
  unfold below_1e21, toFixed, fraction. intro B.
  destruct (Prim2SF x) as [sg|sg| |sg m e] eqn:E; try discriminate.
  - destruct (place_point_digits f "0") as (a & b & P & Ha & Hb & z & Hz);
      [simpl; lia|].
    exists a, b. rewrite (ltb_zero_zero x sg E), P.
    split; [reflexivity|]. split; [exact Ha|]. split; [exact Hb|].
    rewrite Hz, all_chars_append, Z_of_digits_append.
    destruct (zeros_value z) as [-> ->].
    split; [reflexivity|].
    intros N D H. injection H as <- <-. simpl. lia.
  - apply negb_true_iff in B. rewrite B.
    set (N := if (0 <=? e)%Z then (Zpos m * 2 ^ e)%Z else Zpos m) in *.
    set (D := if (0 <=? e)%Z then 1%Z else (2 ^ (- e))%Z) in *.
    assert (HN : (0 <= N)%Z).
    { subst N. destruct (0 <=? e)%Z eqn:L; [|lia].
      apply Z.leb_le in L. apply Z.mul_nonneg_nonneg; [lia|].
      now apply Z.pow_nonneg. }
    assert (HD : (0 < D)%Z).
    { subst D. destruct (0 <=? e)%Z eqn:L; [lia|].
      apply Z.leb_gt in L. apply Z.pow_pos_nonneg; lia. }
    set (X := (2 * N * 10 ^ Z.of_nat (S f) + D)%Z).
    set (n := (X / (2 * D))%Z).
    assert (HX : (0 <= X)%Z).
    { subst X. assert (0 <= 10 ^ Z.of_nat (S f))%Z by (apply Z.pow_nonneg; lia).
      nia. }
    assert (Hn : (0 <= n)%Z) by (apply Z.div_pos; lia).
    assert (Hfloor : (2 * D * n <= X < 2 * D * (n + 1))%Z).
    { subst n. split.
      - apply Z.mul_div_le. lia.
      - replace (X / (2 * D) + 1)%Z with (Z.succ (X / (2 * D))) by lia.
        apply Z.mul_succ_div_gt. lia. }
    set (ds := if (n =? 0)%Z then "0" else JSON.digits_of n).
    assert (Hds : 1 <= String.length ds /\
                  JSON.all_chars JSON.is_digit ds = true /\
                  JSON.Z_of_digits ds 0 = n).
    { subst ds. destruct (n =? 0)%Z eqn:Z0.
      - apply Z.eqb_eq in Z0. rewrite Z0. simpl. repeat split. lia.
      - split; [apply digits_of_length|]. now apply digits_of_value. }
    destruct Hds as (Hl & Hall & Hval).
    destruct (place_point_digits f ds Hl) as (a & b & P & Ha & Hb & z & Hz).
    exists a, b. rewrite (ltb_zero_sign x sg m e E), P.
    split; [reflexivity|]. split; [exact Ha|]. split; [exact Hb|].
    rewrite Hz, all_chars_append, Z_of_digits_append.
    destruct (zeros_value z) as [-> ->]. rewrite Hall, Hval.
    split; [reflexivity|].
    intros N' D' H.
    assert (N' = N /\ D' = D) as [-> ->].
    { subst N D. destruct (0 <=? e)%Z; injection H as <- <-; now split. }
    exact Hfloor.
Qed.

(** X13.  An amount on the screens: an absent amount, NaN and 0 are
    printed $0.00; a number below 10^21 in size is printed as a dollar
    sign, a minus sign when it is below 0 and only then, at least one
    digit for the whole part, a point and two digits behind it; the
    digits are those of the number of cents nearest to the size of the
    amount, the larger one of two. *)
Theorem formatCurrency_prints_an_amount :
  forall (val : option float),
    (val = None -> formatCurrency val = "$0.00") /\
    (forall x, val = Some x -> truthy x = false ->
               formatCurrency val = "$0.00") /\
    (below_1e21 (or_zero val) = true ->
     exists a b,
       formatCurrency val
         = "$" ++ (if (or_zero val <? 0)%float then "-" else EmptyString)
               ++ a ++ "." ++ b /\
       1 <= String.length a /\ String.length b = 2 /\
       JSON.all_chars JSON.is_digit (a ++ b) = true /\
       forall N D, fraction (or_zero val) = Some (N, D) ->
         (2 * D * JSON.Z_of_digits (a ++ b) 0
            <= 200 * N + D
            < 2 * D * (JSON.Z_of_digits (a ++ b) 0 + 1))%Z).
Proof.
  intro val. unfold formatCurrency.
  split; [intros ->; reflexivity|].
  split.
  { intros x -> T. simpl in *. rewrite T. reflexivity. }
  intro B. destruct (toFixed_value 1 _ B) as (a & b & E & Ha & Hb & Hd & Hv).
  exists a, b. rewrite E. repeat split; try assumption.
  - specialize (Hv N D H). change (10 ^ Z.of_nat 2)%Z with 100%Z in Hv. lia.
  - specialize (Hv N D H). change (10 ^ Z.of_nat 2)%Z with 100%Z in Hv. lia.
Qed.

Lemma formatCurrency_prints_an_amount_witness :
  formatCurrency None = "$0.00" /\
  formatCurrency (Some PrimFloat.nan) = "$0.00" /\
  exists a b,
    formatCurrency (Some (-1234.5)%float) = "$-" ++ a ++ "." ++ b /\
    1 <= String.length a /\ String.length b = 2 /\
    JSON.Z_of_digits (a ++ b) 0 = 123450%Z.
Proof.
  split; [apply (proj1 (formatCurrency_prints_an_amount None) eq_refl)|].
  split.
  - apply (proj1 (proj2 (formatCurrency_prints_an_amount
                           (Some PrimFloat.nan))) PrimFloat.nan);
      reflexivity.
  - destruct (proj2 (proj2 (formatCurrency_prints_an_amount
                              (Some (-1234.5)%float))))
      as (a & b & E & Ha & Hb & _ & Hv); [vm_compute; reflexivity|].
    exists a, b. split; [exact E|]. split; [exact Ha|]. split; [exact Hb|].
    destruct (fraction (or_zero (Some (-1234.5)%float))) as [[N D]|] eqn:F;
      [|discriminate F].
    specialize (Hv N D eq_refl).
    vm_compute in F. injection F as <- <-. lia.
Defined.

(** X14.  The table of the dashboard is rendered when every visible
    record has a roi, and only then: a visible record without one makes
    the render throw.  The exported page prints 0.0% for such a
    record. *)
Theorem dashboard_table_needs_roi :
  forall (s : Dashboard float),
    ((exists rows, table_body (visibleData s) = Some rows) <->
     (forall r, In r (visibleData s) -> exists x, roi r = Some x)) /\
    (forall r, In r (visibleData s) -> roi r = None ->
               table_body (visibleData s) = None /\
               roi_cell (page_row r) = "0.0%").
Proof.
  intro s. split; [apply table_body_some|].
  intros r Hr E. split.
  - destruct (table_body (visibleData s)) as [rows|] eqn:T; [|reflexivity].
    destruct (proj1 (table_body_some (visibleData s)) (ex_intro _ rows T) r Hr)
      as [x F].
    congruence.
  - unfold page_row. simpl. rewrite E. reflexivity.
Qed.

Lemma dashboard_table_needs_roi_witness :
  exists r,
    import_document None (Some legacy_payload) = Loaded r /\
    table_body (visibleData {| data := r; hiddenCountries := [] |}) = None.
Proof.
  eexists. split; [reflexivity|].
  apply (proj2 (dashboard_table_needs_roi
                  {| data := repair legacy_payload
                               [legacy_record "India" 100 150];
                     hiddenCountries := [] |})
           (legacy_record "India" 100 150)).
  - simpl. now left.
  - reflexivity.
Defined.

End ViewFacts.

(** ** The history *)



Section StoredHistoryFacts.

#[local] Open Scope string_scope.

Lemma decode_result_encode (R : AnalysisResult float) :
  decode_result (encode_result R) = Some R.
Proof.
  destruct R as [[s|] [d|] [b|] [r|]];
    unfold decode_result, encode_result, property;
    cbn [present app JSON.get summary details badCountries recommendations];
    repeat (cbn [String.eqb Ascii.eqb Bool.eqb encode_summary
                 encode_details encode_strings];
            rewrite ?decode_encode_summary;
            try change (JSON.JArray (List.map encode_record d))
              with (encode_details d);
            try change (JSON.JArray (List.map JSON.JString b))
              with (encode_strings b);
            try change (JSON.JArray (List.map JSON.JString r))
              with (encode_strings r);
            rewrite ?decode_encode_details, ?decode_encode_strings);
    reflexivity.
Qed.

Lemma decode_encode_item (i : HistoryItem float) :
  exact_timestamp i = true -> decode_item (encode_item i) = Some i.
Proof.
  unfold exact_timestamp, decode_item, encode_item. intro E.
  cbn [JSON.get String.eqb Ascii.eqb Bool.eqb].
  rewrite decode_result_encode.
  destruct (Z_of_number (number_of_Z (timestamp i))) as [z|]; [|discriminate].
  apply Z.eqb_eq in E. subst z. now destruct i.
Qed.

Lemma decode_encode_history (h : list (HistoryItem float)) :
  forallb exact_timestamp h = true ->
  decode_array decode_item (encode_history h) = Some h.
Proof.
  unfold encode_history, decode_array.
  induction h as [|i h IH]; intro E; [reflexivity|].
  simpl in E. apply andb_true_iff in E as [Ei Eh].
  cbn [List.map decode_list].
  now rewrite (decode_encode_item i Ei), (IH Eh).
Qed.

Lemma stored_text_not_empty (h : list (HistoryItem float)) :
  JSON.is_empty (stored_text h) = false.
Proof. destruct h; reflexivity. Qed.

(** X16.  The text that saving and deleting store is read back as the
    same history when the component is mounted again, for a history
    whose numbers are ones that JSON text carries and whose time stamps
    are integers that a number holds exactly. *)
Theorem stored_history_is_read_back :
  forall (h : list (HistoryItem float)),
    JSON.clean (encode_history h) = true ->
    forallb exact_timestamp h = true ->
    load_history (Some (stored_text h)) = Some h.
Proof.
  intros h Hc Ht. unfold load_history.
  rewrite stored_text_not_empty. unfold stored_text.
  rewrite (parse_stringify EmptyString _ eq_refl Hc).
  now apply decode_encode_history.
Qed.

Lemma stored_history_is_read_back_witness :
  load_history (Some (stored_text [second_item; first_item]))
  = Some [second_item; first_item].
Proof.
  apply stored_history_is_read_back; vm_compute; reflexivity.
Defined.

End StoredHistoryFacts.

Section SortFacts.

Import HistoryList.

Context {A : Type} (comparefn : A -> A -> Z).

Lemma insert_perm (x : A) (l : list A) :
  Permutation (insert comparefn x l) (x :: l).
Proof.
  induction l as [|y l IH]; simpl; [reflexivity|].
  destruct (0 <? comparefn x y)%Z; [|reflexivity].
  rewrite IH. apply perm_swap.
Qed.

Lemma sort_perm (l : list A) : Permutation (sort comparefn l) l.
Proof.
  induction l as [|x l IH]; simpl; [reflexivity|].
  rewrite insert_perm. now constructor.
Qed.

(** Filtering by a class that the comparator does not cross. *)
Lemma filter_insert (p : A -> bool) (x : A) (l : list A) :
  (forall y, p x = true -> p y = true -> (comparefn x y <= 0)%Z) ->
  filter p (insert comparefn x l) = filter p (x :: l).
Proof.
  intro Hp. induction l as [|y l IH]; [reflexivity|].
  cbn [insert]. destruct (0 <? comparefn x y)%Z eqn:E; [|reflexivity].
  apply Z.ltb_lt in E. cbn [filter] in *. rewrite IH.
  destruct (p x) eqn:Px; [|reflexivity].
  destruct (p y) eqn:Py; [|reflexivity].
  specialize (Hp y eq_refl Py). lia.
Qed.

Lemma sort_stable (p : A -> bool) (l : list A) :
  (forall x y, p x = true -> p y = true -> (comparefn x y <= 0)%Z) ->
  filter p (sort comparefn l) = filter p l.
Proof.
  intro Hp. induction l as [|x l IH]; [reflexivity|].
  cbn [sort fold_right]. fold (sort comparefn l).
  rewrite filter_insert by (intro y; apply Hp).
  cbn [filter]. now rewrite IH.
Qed.

Variable R : A -> A -> Prop.
Hypothesis before : forall x y, (comparefn x y <= 0)%Z -> R x y.
Hypothesis behind : forall x y, (0 < comparefn x y)%Z -> R y x.
Hypothesis R_trans : forall x y z, R x y -> R y z -> R x z.

Lemma insert_sorted (x : A) (l : list A) :
  StronglySorted R l -> StronglySorted R (insert comparefn x l).
Proof.
  induction 1 as [|y l Hs IH Hy]; simpl.
  - repeat constructor.
  - destruct (0 <? comparefn x y)%Z eqn:E.
    + apply Z.ltb_lt in E. constructor; [exact IH|].
      apply Forall_forall. intros z Hz.
      apply (Permutation_in _ (insert_perm x l)) in Hz.
      destruct Hz as [<-|Hz]; [now apply behind|].
      rewrite Forall_forall in Hy. now apply Hy.
    + apply Z.ltb_ge in E. constructor; [now constructor|].
      constructor; [now apply before|].
      apply Forall_forall. intros z Hz. rewrite Forall_forall in Hy.
      apply (R_trans x y z); [now apply before | now apply Hy].
Qed.

Lemma sort_sorted (l : list A) : StronglySorted R (sort comparefn l).
Proof.
  induction l as [|x l IH]; simpl; [constructor|].
  now apply insert_sorted.
Qed.

End SortFacts.

(** X17.  The list of the history screen has the entries of the
    history, each as often as the history has it, by falling time stamp
    for "newest" and by rising time stamp for "oldest"; entries with the
    same time stamp stay in the order of the history, in both cases. *)
Theorem sortedHistory_is_a_stable_sort :
  forall (history : list (HistoryItem float)),
    Permutation (HistoryList.sortedHistory HistoryList.newest history) history /\
    Permutation (HistoryList.sortedHistory HistoryList.oldest history) history /\
    StronglySorted (fun a b => (timestamp b <= timestamp a)%Z)
      (HistoryList.sortedHistory HistoryList.newest history) /\
    StronglySorted (fun a b => (timestamp a <= timestamp b)%Z)
      (HistoryList.sortedHistory HistoryList.oldest history) /\
    (forall t order,
       filter (fun x => (timestamp x =? t)%Z)
              (HistoryList.sortedHistory order history)
       = filter (fun x => (timestamp x =? t)%Z) history).
Proof.
  intro history. unfold HistoryList.sortedHistory.
  split; [apply sort_perm|]. split; [apply sort_perm|].
  split; [apply sort_sorted; simpl; intros; lia|].
  split; [apply sort_sorted; simpl; intros; lia|].
  intros t order. apply sort_stable. intros x y Hx Hy.
  apply Z.eqb_eq in Hx, Hy. destruct order; simpl; lia.
Qed.

(** ** The analysis service *)

Section GeminiFacts.

Import Gemini.
#[local] Open Scope string_scope.

Lemma strip_prefix_app (p s r x : string) :
  JSON.strip_prefix p s = Some r -> JSON.strip_prefix p (s ++ x) = Some (r ++ x).
Proof.
  revert s. induction p as [|a p IH]; intros s E; simpl in *.
  - now injection E as ->.
  - destruct s as [|b s]; [discriminate|]. simpl.
    destruct (Ascii.eqb a b); [now apply IH | discriminate].
Qed.

Lemma strip_prefix_length (p s r : string) :
  JSON.strip_prefix p s = Some r ->
  String.length s = String.length p + String.length r.
Proof.
  revert s. induction p as [|a p IH]; intros s E; simpl in *.
  - now injection E as ->.
  - destruct s as [|b s]; [discriminate|]. simpl.
    destruct (Ascii.eqb a b); [|discriminate]. f_equal. now apply IH.
Qed.

(** A pattern without [c] does not match across a [c]. *)
Lemma strip_prefix_boundary (c : ascii) (p s r : string) :
  free_of c p = true -> JSON.strip_prefix p s = None ->
  JSON.strip_prefix p (s ++ String c r) = None.
Proof.
  unfold free_of. revert s. induction p as [|a p IH]; intros s F E; simpl in *.
  - discriminate.
  - apply andb_true_iff in F as [Fa Fp]. apply negb_true_iff in Fa.
    destruct s as [|b s]; simpl.
    + now rewrite Fa.
    + destruct (Ascii.eqb a b); [now apply IH | reflexivity].
Qed.

Lemma strip_prefix_other (p : string) (a c : ascii) (p' t : string) :
  p = String a p' -> Ascii.eqb c a = false ->
  JSON.strip_prefix p (String c t) = None.
Proof. intros -> E. simpl. now rewrite Ascii.eqb_sym, E. Qed.

(** *** [replace] *)

Lemma remove_all_boundary (c : ascii) (pat r : string) :
  free_of c pat = true ->
  forall (pre : string) (k : nat), k <= String.length pre ->
    remove_all pat k (pre ++ String c r)
    = remove_all pat k pre ++ remove_all pat 0 (String c r).
Proof.
  intros F. induction pre as [|a pre IH]; intros k Hk.
  - simpl in Hk. assert (k = 0) as -> by lia. reflexivity.
  - change (String a pre ++ String c r) with (String a (pre ++ String c r)).
    destruct k as [|k].
    + cbn [remove_all].
      destruct (JSON.strip_prefix pat (String a pre)) as [rest|] eqn:E.
      * change (String a (pre ++ String c r))
          with (String a pre ++ String c r).
        rewrite (strip_prefix_app _ _ _ (String c r) E).
        apply IH. apply strip_prefix_length in E. simpl in E. lia.
      * change (String a (pre ++ String c r))
          with (String a pre ++ String c r).
        rewrite (strip_prefix_boundary c _ _ r F E).
        simpl. f_equal. apply IH. lia.
    + cbn [remove_all]. apply IH. simpl in Hk. lia.
Qed.

Lemma remove_all_keep (pat p' : string) (a : ascii) (J post : string) :
  pat = String a p' -> free_of a J = true ->
  remove_all pat 0 (J ++ post) = J ++ remove_all pat 0 post.
Proof.
  intros Hp. unfold free_of. induction J as [|c J IH]; intro F; [reflexivity|].
  simpl in F. apply andb_true_iff in F as [Fc FJ]. apply negb_true_iff in Fc.
  change (String c J ++ post) with (String c (J ++ post)).
  cbn [remove_all]. rewrite (strip_prefix_other pat a c p' _ Hp Fc).
  simpl. f_equal. now apply IH.
Qed.

Lemma remove_all_chars (q : ascii -> bool) (pat s : string) (k : nat) :
  JSON.all_chars q s = true -> JSON.all_chars q (remove_all pat k s) = true.
Proof.
  revert k. induction s as [|c s IH]; intros k F; [reflexivity|].
  simpl in F. apply andb_true_iff in F as [Fc Fs].
  destruct k as [|k]; cbn [remove_all]; [|now apply IH].
  destruct (JSON.strip_prefix pat (String c s)); [now apply IH|].
  simpl. rewrite Fc. now apply IH.
Qed.

(** A pattern that starts with [a] and has no [c] leaves alone a text
    that starts with [c] and has no [a]. *)
Lemma remove_all_around (pat p' : string) (a c : ascii) (pre J' post : string) :
  pat = String a p' -> free_of c pat = true ->
  free_of a (String c J') = true ->
  remove_all pat 0 (pre ++ String c J' ++ post)
  = remove_all pat 0 pre ++ String c J' ++ remove_all pat 0 post.
Proof.
  intros Hp Fc Fa.
  change (String c J' ++ post) with (String c (J' ++ post)).
  rewrite (remove_all_boundary c pat _ Fc pre 0) by lia.
  f_equal.
  change (String c (J' ++ post)) with (String c J' ++ post).
  now apply (remove_all_keep pat p' a).
Qed.

(** *** [trim] *)

Lemma matched_boundary (c : ascii) (pats : list string) (s r : string) :
  forallb (free_of c) pats = true ->
  matched pats (s ++ String c r) = matched pats s.
Proof.
  induction pats as [|p pats IH]; intro F; [reflexivity|].
  simpl in F. apply andb_true_iff in F as [Fp Fs]. simpl.
  destruct (JSON.strip_prefix p s) as [rest|] eqn:E.
  - now rewrite (strip_prefix_app _ _ _ (String c r) E).
  - rewrite (strip_prefix_boundary c _ _ r Fp E). now apply IH.
Qed.

Lemma matched_length (pats : list string) (s : string) (n : nat) :
  matched pats s = Some n -> n <= String.length s.
Proof.
  induction pats as [|p pats IH]; [discriminate|]. simpl.
  destruct (JSON.strip_prefix p s) as [rest|] eqn:E; [|exact IH].
  intro H. injection H as <-. apply strip_prefix_length in E. lia.
Qed.

Lemma white_space_free (c : ascii) :
  (c = "{" \/ c = "}")%char -> forallb (free_of c) white_space = true.
Proof. intros [->| ->]; vm_compute; reflexivity. Qed.

Lemma not_white_space (c : ascii) (r : string) :
  (c = "{" \/ c = "}")%char -> matched white_space (String c r) = None.
Proof. intros [->| ->]; vm_compute; reflexivity. Qed.

Lemma trimStart_from_boundary (c : ascii) (r : string) :
  (c = "{" \/ c = "}")%char ->
  forall (p : string) (k : nat), k <= String.length p ->
    trimStart_from k (p ++ String c r) = trimStart_from k p ++ String c r.
Proof.
  intro Hc. induction p as [|a p IH]; intros k Hk.
  - simpl in Hk. assert (k = 0) as -> by lia.
    cbn [append trimStart_from]. now rewrite (not_white_space c r Hc).
  - change (String a p ++ String c r) with (String a (p ++ String c r)).
    destruct k as [|k]; cbn [trimStart_from].
    + change (String a (p ++ String c r)) with (String a p ++ String c r).
      rewrite (matched_boundary c _ _ r (white_space_free c Hc)).
      destruct (matched white_space (String a p)) as [n|] eqn:E; [|reflexivity].
      apply IH. apply matched_length in E. simpl in E. lia.
    + apply IH. simpl in Hk. lia.
Qed.

Lemma trimStart_from_chars (q : ascii -> bool) (s : string) (k : nat) :
  JSON.all_chars q s = true -> JSON.all_chars q (trimStart_from k s) = true.
Proof.
  revert k. induction s as [|c s IH]; intros k F; [reflexivity|].
  pose proof F as F'. simpl in F. apply andb_true_iff in F as [Fc Fs].
  destruct k as [|k]; cbn [trimStart_from]; [|now apply IH].
  destruct (matched white_space (String c s)); [now apply IH | exact F'].
Qed.

Lemma is_empty_append (a : string) (c : ascii) (r : string) :
  JSON.is_empty (a ++ String c r) = false.
Proof. destruct a; reflexivity. Qed.

Lemma trimEnd_boundary (c : ascii) (q : string) :
  (c = "{" \/ c = "}")%char ->
  forall X, trimEnd (X ++ String c q) = X ++ String c (trimEnd q).
Proof.
  intro Hc. induction X as [|a X IH].
  - cbn [append trimEnd]. unfold trimStart. cbn [trimStart_from].
    now rewrite (not_white_space c q Hc).
  - change (String a X ++ String c q) with (String a (X ++ String c q)).
    cbn [trimEnd]. unfold trimStart.
    change (String a (X ++ String c q)) with (String a X ++ String c q).
    rewrite (trimStart_from_boundary c q Hc (String a X) 0) by lia.
    rewrite is_empty_append.
    change (String a X ++ String c (trimEnd q))
      with (String a (X ++ String c (trimEnd q))).
    f_equal. exact IH.
Qed.

Lemma trimEnd_chars (q : ascii -> bool) (s : string) :
  JSON.all_chars q s = true -> JSON.all_chars q (trimEnd s) = true.
Proof.
  induction s as [|c s IH]; intro F; [reflexivity|].
  simpl in F. apply andb_true_iff in F as [Fc Fs]. cbn [trimEnd].
  destruct (JSON.is_empty (trimStart (String c s))); [reflexivity|].
  simpl. rewrite Fc. now apply IH.
Qed.

(** *** From the first opening brace to the last closing one *)

Lemma indexOf_first (c : ascii) (p r : string) :
  free_of c p = true -> indexOf c (p ++ String c r) = Some (String.length p).
Proof.
  unfold free_of. induction p as [|a p IH]; intro F; simpl.
  - now rewrite Ascii.eqb_refl.
  - simpl in F. apply andb_true_iff in F as [Fa Fp].
    apply negb_true_iff in Fa. now rewrite Fa, IH.
Qed.

Lemma lastIndexOf_none (c : ascii) (q : string) :
  free_of c q = true -> lastIndexOf c q = None.
Proof.
  unfold free_of. induction q as [|a q IH]; intro F; [reflexivity|].
  simpl in *. apply andb_true_iff in F as [Fa Fq].
  apply negb_true_iff in Fa. now rewrite IH, Fa.
Qed.

Lemma lastIndexOf_last (c : ascii) (X q : string) :
  free_of c q = true -> lastIndexOf c (X ++ String c q) = Some (String.length X).
Proof.
  intro F. induction X as [|a X IH]; simpl.
  - now rewrite (lastIndexOf_none c q F), Ascii.eqb_refl.
  - now rewrite IH.
Qed.

Lemma locate_braces (p M q : string) :
  free_of "{" p = true -> free_of "}" q = true ->
  locate (p ++ String "{" (M ++ String "}" q)) = Some (String "{" (M ++ "}")).
Proof.
  intros Fp Fq. unfold locate.
  rewrite (indexOf_first "{" p _ Fp).
  replace (p ++ String "{" (M ++ String "}" q))
    with ((p ++ String "{" M) ++ String "}" q)
    by (rewrite append_assoc; reflexivity).
  rewrite (lastIndexOf_last "}" _ q Fq).
  unfold substring. rewrite length_append. cbn [String.length].
  rewrite Nat.min_l, Nat.max_r by lia.
  rewrite append_assoc. rewrite substring_skip.
  replace (String.length p + S (String.length M) + 1 - String.length p)
    with (String.length (String "{" (M ++ "}")))
    by (cbn [String.length]; rewrite length_append; simpl; lia).
  f_equal.
  change (String "{" M ++ String "}" q) with (String "{" (M ++ "}" ++ q)).
  rewrite <- append_assoc.
  change (String "{" ((M ++ "}") ++ q)) with (String "{" (M ++ "}") ++ q).
  apply substring_prefix.
Qed.

Lemma object_text (gap indent : string) (m : list (string * JSON.value)) :
  exists M, JSON.serialize gap indent (JSON.JObject m) = String "{" (M ++ "}").
Proof.
  destruct m as [|kv m].
  - exists EmptyString. reflexivity.
  - cbn [JSON.serialize]. eexists.
    change ("{" ++ ?x) with (String "{" x). f_equal.
    rewrite <- !append_assoc. reflexivity.
Qed.

(** The clean-up leaves the document in its place. *)
Lemma clean_up_around (pre M post : string) :
  free_of "`" (String "{" (M ++ "}")) = true ->
  exists p q,
    clean_up (pre ++ String "{" (M ++ "}") ++ post)
    = p ++ String "{" (M ++ String "}" q) /\
    (free_of "{" pre = true -> free_of "{" p = true) /\
    (free_of "}" post = true -> free_of "}" q = true).
Proof.
  intro F. unfold clean_up.
  rewrite (remove_all_around "```json" "``json" "`" "{" pre (M ++ "}") post
             eq_refl eq_refl F).
  rewrite (remove_all_around "```" "``" "`" "{" _ (M ++ "}") _
             eq_refl eq_refl F).
  set (p2 := remove_all "```" 0 (remove_all "```json" 0 pre)).
  set (q2 := remove_all "```" 0 (remove_all "```json" 0 post)).
  unfold trim, trimStart.
  change (String "{" (M ++ "}") ++ q2) with (String "{" ((M ++ "}") ++ q2)).
  rewrite (trimStart_from_boundary "{" _ (or_introl eq_refl) p2 0) by lia.
  rewrite (append_assoc M "}" q2).
  change ("}" ++ q2) with (String "}" q2).
  replace (trimStart_from 0 p2 ++ String "{" (M ++ String "}" q2))
    with ((trimStart_from 0 p2 ++ String "{" M) ++ String "}" q2)
    by (rewrite append_assoc; reflexivity).
  rewrite (trimEnd_boundary "}" q2 (or_intror eq_refl)).
  rewrite append_assoc.
  exists (trimStart_from 0 p2), (trimEnd q2).
  split; [reflexivity|]. split; intro H.
  - apply trimStart_from_chars. subst p2. now do 2 apply remove_all_chars.
  - apply trimEnd_chars. subst q2. now do 2 apply remove_all_chars.
Qed.

(** The messages of a rejection. *)
Lemma rejection_messages (API_KEY p k pm km : string) (response : Response)
  (message : string) :
  analyzeArbitrageImages API_KEY p k pm km response = Rejected message ->
  (message = missing_key /\ API_KEY = EmptyString) \/
  (message = connection_failed /\
   exists e, response = Fault e /\
             (includes e "code: 6" || includes e "xhr error") = true) \/
  message = analysis_failed.
Proof.
  intro E. unfold analyzeArbitrageImages in E.
  destruct API_KEY as [|k0 key]; simpl in E.
  - injection E as <-. now left.
  - right. destruct response as [t|e].
    + destruct (locate _) as [text'|].
      * destruct (JSON.parse text'); [discriminate|].
        injection E as <-. now right.
      * injection E as <-. now right.
    + unfold catch in E. simpl in E.
      destruct (includes e "code: 6" || includes e "xhr error") eqn:I;
        injection E as <-.
      * left. split; [reflexivity|]. now exists e.
      * now right.
Qed.

(** X18.  When the analysis fails, its message is one of three: the one
    of the missing key (the key is empty), the one of the failed
    connection (the request threw, and the text of its exception holds
    "code: 6" or "xhr error"), or the one of the failed analysis.  The
    message of the invalid format, which the function throws when the
    reply has no braces, never leaves the function. *)
Theorem analysis_failure_messages :
  forall (API_KEY propellerImgBase64 kadamImgBase64 propellerMime kadamMime
            : string) (response : Response) (message : string),
    analyzeArbitrageImages API_KEY propellerImgBase64 kadamImgBase64
      propellerMime kadamMime response = Rejected message ->
    ((message = missing_key /\ API_KEY = EmptyString) \/
     (message = connection_failed /\
      exists e, response = Fault e /\
                (includes e "code: 6" || includes e "xhr error") = true) \/
     message = analysis_failed) /\
    message <> invalid_format.
Proof.
  intros key p k pm km response message E.
  pose proof (rejection_messages key p k pm km response message E) as D.
  split; [exact D|].
  destruct D as [[-> _]|[[-> _]| ->]]; discriminate.
Qed.

Lemma analysis_failure_messages_witness :
  analyzeArbitrageImages "key" "/9j/4AAQ" "/9j/4AAQ" "image/jpeg" "image/jpeg"
    (Reply (Some "no braces"))
    = Rejected analysis_failed /\
  ((analysis_failed = missing_key /\ "key" = EmptyString) \/
   (analysis_failed = connection_failed /\
    exists e, Reply (Some "no braces") = Fault e /\
              (includes e "code: 6" || includes e "xhr error") = true) \/
   analysis_failed = analysis_failed).
Proof.
  split; [vm_compute; reflexivity|].
  apply (analysis_failure_messages "key" "/9j/4AAQ" "/9j/4AAQ" "image/jpeg"
           "image/jpeg" (Reply (Some "no braces")) analysis_failed).
  vm_compute. reflexivity.
Defined.

(** X19.  A reply that holds the JSON text of an object, with or
    without indentation, is analysed to that object whatever stands
    around the text (a code fence, a sentence), provided that the key is
    there, that the numbers of the object are ones that JSON text
    carries, that the text of the object has no backquote, that what
    stands before it has no opening brace and that what stands behind it
    has no closing brace. *)
Theorem wrapped_reply_is_parsed :
  forall (API_KEY propellerImgBase64 kadamImgBase64 propellerMime kadamMime
            pre post gap : string) (m : list (string * JSON.value)),
    JSON.is_empty API_KEY = false ->
    JSON.all_chars JSON.is_ws gap = true ->
    JSON.clean (JSON.JObject m) = true ->
    free_of "`" (JSON.stringify gap (JSON.JObject m)) = true ->
    free_of "{" pre = true -> free_of "}" post = true ->
    analyzeArbitrageImages API_KEY propellerImgBase64 kadamImgBase64
      propellerMime kadamMime
      (Reply (Some (pre ++ JSON.stringify gap (JSON.JObject m) ++ post)))
    = Fulfilled (JSON.JObject m).
Proof.
  intros key pi ki pm km pre post gap m Hk Hg Hc Hb Hpre Hpost.
  unfold analyzeArbitrageImages. rewrite Hk.
  pose proof (parse_stringify gap (JSON.JObject m) Hg Hc) as P.
  unfold JSON.stringify in *.
  destruct (object_text gap EmptyString m) as [M EM].
  rewrite EM in *.
  change (String "{" (M ++ "}") ++ post)
    with (String "{" ((M ++ "}") ++ post)).
  rewrite is_empty_append.
  change (String "{" ((M ++ "}") ++ post))
    with (String "{" (M ++ "}") ++ post).
  destruct (clean_up_around pre M post Hb) as (p & q & -> & Fp & Fq).
  rewrite (locate_braces p M q (Fp Hpre) (Fq Hpost)).
  now rewrite P.
Qed.

Lemma wrapped_reply_is_parsed_witness :
  analyzeArbitrageImages "key" "/9j/4AAQ" "/9j/4AAQ" "image/jpeg" "image/jpeg"
    (Reply (Some ("Here is the analysis: ```json" ++ JSON.newline
                  ++ handleDownloadJson example_merged
                  ++ JSON.newline ++ "``` ")))
  = Fulfilled (encode_result example_merged).
Proof.
  rewrite <- append_assoc.
  apply (wrapped_reply_is_parsed "key" "/9j/4AAQ" "/9j/4AAQ" "image/jpeg"
           "image/jpeg"
           ("Here is the analysis: ```json" ++ JSON.newline)
           (JSON.newline ++ "``` ") two_spaces);
    vm_compute; reflexivity.
Defined.

End GeminiFacts.

(** ** The component *)

Section AppFacts.

Import App.
#[local] Open Scope string_scope.

(** What holds after the first render and is kept by every step holds
    for every state with its waiting handlers. *)
Lemma reachable_configuration (P : state * list Pending -> Prop)
  (env : Environment) saved :
  (forall st0, mounted saved = Some st0 -> P (st0, [])) ->
  (forall c c', step env c c' -> P c -> P c') ->
  forall c, reachable env saved c -> P c.
Proof.
  intros Hinit Hstep c (st0 & M & R).
  induction R as [|c1 c2 S R IH]; [now apply Hinit|].
  now apply (Hstep c1 c2).
Qed.

Lemma reachable_invariant (P : state -> Prop) (env : Environment) saved :
  (forall st0, mounted saved = Some st0 -> P st0) ->
  (forall st ps st' ps', step env (st, ps) (st', ps') -> P st -> P st') ->
  forall st ps, reachable env saved (st, ps) -> P st.
Proof.
  intros Hinit Hstep st ps R.
  apply (reachable_configuration (fun c => P (fst c)) env saved)
    with (c := (st, ps)); [exact Hinit| |exact R].
  intros [st1 ps1] [st2 ps2]. apply Hstep.
Qed.

Lemma mounted_initial (saved : option string) (st0 : state) :
  mounted saved = Some st0 ->
  exists h, load_history saved = Some h /\ st0 = initial h saved.
Proof.
  unfold mounted. destruct (load_history saved) as [h|]; [|discriminate].
  intro E. injection E as <-. now exists h.
Qed.

Lemma handleAnalyze_begin_history (st : state) :
  history (fst (handleAnalyze_begin st)) = history st /\
  ad_arbitrage_history (fst (handleAnalyze_begin st))
    = ad_arbitrage_history st.
Proof.
  unfold handleAnalyze_begin.
  destruct (propellerFile st), (kadamFile st); split; reflexivity.
Qed.

Lemma handleAnalyze_begin_request (st : state) (request : Request) :
  snd (handleAnalyze_begin st) = Some request ->
  appState (fst (handleAnalyze_begin st)) = ANALYZING.
Proof.
  unfold handleAnalyze_begin.
  destruct (propellerFile st), (kadamFile st); simpl; try discriminate.
  reflexivity.
Qed.

(** The four ways in which [handleAnalyze] ends. *)
Lemma handleAnalyze_settled_cases captured awaited randomUUID now setI st st' :
  handleAnalyze_settled captured awaited randomUUID now setI st = Some st' ->
  (exists v data uuid u,
     awaited = Value v /\ decode_result v = Some data /\
     randomUUID = Returns uuid /\ setI = Returns u /\
     st' = setAppState RESULTS
             (setItem (stored_text (newItem uuid now data :: captured))
                (setHistory (newItem uuid now data :: captured)
                   (setResult (Some data) st)))) \/
  (exists v data message,
     awaited = Value v /\ decode_result v = Some data /\
     randomUUID = Throws message /\
     st' = handleAnalyze_catch (IsError message) (setResult (Some data) st)) \/
  (exists v data uuid message,
     awaited = Value v /\ decode_result v = Some data /\
     randomUUID = Returns uuid /\ setI = Throws message /\
     st' = handleAnalyze_catch (IsError message)
             (setHistory (newItem uuid now data :: captured)
                (setResult (Some data) st))) \/
  (exists err, awaited = Exception err /\ st' = handleAnalyze_catch err st).
Proof.
  unfold handleAnalyze_settled, saveToHistory.
  destruct awaited as [v|err].
  - destruct (decode_result v) as [data|] eqn:D; [|discriminate].
    destruct randomUUID as [uuid|message].
    + destruct setI as [u|message]; intro E; injection E as <-.
      * left. now exists v, data, uuid, u.
      * right. right. left. now exists v, data, uuid, message.
    + intro E. injection E as <-. right. left. now exists v, data, message.
  - intro E. injection E as <-. right. right. right. now exists err.
Qed.

Lemma handleImportFile_settled_cases captured name text st st' :
  handleImportFile_settled captured name text st = Some st' ->
  exists o, st' = install o st.
Proof.
  unfold handleImportFile_settled.
  destruct (handleImportFile captured name text) as [o|]; [|discriminate].
  intro E. injection E as <-. now exists o.
Qed.

Lemma results_step (env : Environment) st ps st' ps' :
  step env (st, ps) (st', ps') ->
  (appState st = RESULTS -> exists r, App.result st = Some r) ->
  appState st' = RESULTS -> exists r, App.result st' = Some r.
Proof.
  intros S IH. inversion S; subst; simpl; try discriminate; try exact IH;
    try (intros _; eexists; reflexivity).
  - match goal with H : snd _ = Some _ |- _ =>
      rewrite (handleAnalyze_begin_request _ _ H) end.
    discriminate.
  - match goal with H : handleAnalyze_settled _ _ _ _ _ _ = Some _ |- _ =>
      apply handleAnalyze_settled_cases in H;
      destruct H as [(v & d & u & x & _ & _ & _ & _ & ->)
                    |[(v & d & m & _ & _ & _ & ->)
                     |[(v & d & u & m & _ & _ & _ & _ & ->)
                      |(err & _ & ->)]]] end;
      simpl; try discriminate.
    intros _. eexists. reflexivity.
  - match goal with H : handleImportFile_settled _ _ _ _ = Some _ |- _ =>
      apply handleImportFile_settled_cases in H; destruct H as [[r|r| |] ->]
    end; simpl; try exact IH; intros _; eexists; reflexivity.
  - unfold deleteHistoryItem.
    match goal with |- context [match ?c with Returns _ => _ | Throws _ => _ end] =>
      destruct c end; exact IH.
Qed.

Lemma error_step (env : Environment) st ps st' ps' :
  step env (st, ps) (st', ps') ->
  (appState st = ERROR ->
   In (errorMsg st) [Gemini.missing_key; Gemini.connection_failed;
                     Gemini.analysis_failed] \/ thrown env (errorMsg st)) ->
  appState st' = ERROR ->
  In (errorMsg st') [Gemini.missing_key; Gemini.connection_failed;
                     Gemini.analysis_failed] \/ thrown env (errorMsg st').
Proof.
  intros S IH. inversion S; subst; simpl; try discriminate; try exact IH.
  - match goal with H : snd _ = Some _ |- _ =>
      rewrite (handleAnalyze_begin_request _ _ H) end.
    discriminate.
  - match goal with H : handleAnalyze_settled _ _ _ _ _ _ = Some _ |- _ =>
      apply handleAnalyze_settled_cases in H;
      destruct H as [(v & d & u & x & _ & _ & _ & _ & ->)
                    |[(v & d & m & _ & _ & -> & ->)
                     |[(v & d & u & m & _ & _ & _ & -> & ->)
                      |(err & A & ->)]]] end;
      simpl; try discriminate; intros _.
    + now right.
    + now right.
    + left. unfold await in A.
      destruct (Gemini.analyzeArbitrageImages _ _ _ _ _ _) as [v|m] eqn:G;
        [discriminate A|].
      injection A as <-.
      destruct (rejection_messages _ _ _ _ _ _ _ G) as [[-> _]|[[-> _]| ->]];
        simpl; tauto.
  - match goal with H : handleImportFile_settled _ _ _ _ = Some _ |- _ =>
      apply handleImportFile_settled_cases in H; destruct H as [[r|r| |] ->]
    end; simpl; try exact IH; discriminate.
  - unfold deleteHistoryItem.
    match goal with |- context [match ?c with Returns _ => _ | Throws _ => _ end] =>
      destruct c end; exact IH.
Qed.

Lemma in_step_step (env : Environment) saved st ps st' ps' :
  (forall message, ~ thrown env message) ->
  step env (st, ps) (st', ps') -> in_step saved st -> in_step saved st'.
Proof.
  intros Q S IH. inversion S; subst; try exact IH.
  - unfold in_step.
    destruct (handleAnalyze_begin_history st) as [-> ->]. exact IH.
  - match goal with H : handleAnalyze_settled _ _ _ _ _ _ = Some _ |- _ =>
      apply handleAnalyze_settled_cases in H;
      destruct H as [(v & d & u & x & _ & _ & _ & _ & ->)
                    |[(v & d & m & _ & _ & -> & ->)
                     |[(v & d & u & m & _ & _ & _ & -> & ->)
                      |(err & _ & ->)]]] end.
    + now left.
    + match goal with H : possible _ (Throws _) |- _ =>
        now destruct (Q _ H) end.
    + match goal with H : possible _ (Throws _) |- _ =>
        now destruct (Q _ H) end.
    + exact IH.
  - match goal with H : handleImportFile_settled _ _ _ _ = Some _ |- _ =>
      apply handleImportFile_settled_cases in H; destruct H as [[r|r| |] ->]
    end; exact IH.
  - match goal with H : possible _ ?c |- _ =>
      destruct c as [u|m]; [now left | now destruct (Q _ H)] end.
Qed.

Lemma ready_reachable (env : Environment) h saved :
  load_history saved = Some h -> reachable env saved (ready h saved, []).
Proof.
  intro L. exists (initial h saved). split; [unfold mounted; now rewrite L|].
  unfold ready.
  eapply Relation_Operators.rtn1_trans; [apply select_kadam|].
  eapply Relation_Operators.rtn1_trans; [apply select_propeller|].
  apply rtn1_refl.
Qed.

Lemma reachable_step (env : Environment) saved c c' :
  step env c c' -> reachable env saved c -> reachable env saved c'.
Proof.
  intros S (st0 & M & R). exists st0. split; [exact M|].
  now apply Relation_Operators.rtn1_trans with (y := c).
Qed.

(** An empty reply is analysed to a report without fields. *)
Lemma empty_reply_is_analysed (key p k pm km : string) :
  JSON.is_empty key = false ->
  exists v data,
    Gemini.analyzeArbitrageImages key p k pm km (Gemini.Reply None)
      = Gemini.Fulfilled v /\
    decode_result v = Some data.
Proof.
  intro Hk. unfold Gemini.analyzeArbitrageImages. rewrite Hk.
  eexists. eexists. split; vm_compute; reflexivity.
Qed.

(** X20.  In every state that the component can reach, from any stored
    history and with any answers of the service, any files and any
    exceptions of the browser, the state RESULTS comes with a result:
    the screen of the results is never without its report. *)
Theorem results_screen_has_a_result :
  forall env saved st ps,
    reachable env saved (st, ps) ->
    appState st = RESULTS -> exists r, App.result st = Some r.
Proof.
  intros env saved st ps R.
  apply (reachable_invariant
           (fun st => appState st = RESULTS -> exists r, App.result st = Some r)
           env saved) with (ps := ps); [| |exact R].
  - intros st0 M. apply mounted_initial in M as (h & _ & ->). discriminate.
  - intros st1 ps1 st2 ps2. apply results_step.
Qed.

Lemma results_screen_has_a_result_witness :
  exists r,
    App.result (install (Loaded example_merged) (initial [] None)) = Some r.
Proof.
  apply (results_screen_has_a_result (quiet "key") None _ []); [|reflexivity].
  apply (reachable_step _ _ (initial [] None, [PendingImport None "report.json"])).
  - apply (file_read (quiet "key") (initial [] None) [] [] None "report.json"
             (handleDownloadJson example_merged)).
    vm_compute. reflexivity.
  - apply (reachable_step _ _ (initial [] None, [])).
    + apply (choose_file (quiet "key") (initial [] None) [] "report.json").
    + exists (initial [] None). split; [reflexivity | apply rtn1_refl].
Defined.

(** X21.  In every state that the component can reach, the state ERROR
    comes with one of the three messages of the analysis service, or
    with the message of an exception that [crypto.randomUUID] or
    [localStorage.setItem] threw inside [saveToHistory].  Such an
    exception does get there: with a key, whatever the browser can throw
    is shown on the error screen after an analysis that succeeded, the
    result being set. *)
Theorem error_screen_message :
  forall env saved,
    (forall st ps,
       reachable env saved (st, ps) ->
       appState st = ERROR ->
       errorMsg st = Gemini.missing_key \/
       errorMsg st = Gemini.connection_failed \/
       errorMsg st = Gemini.analysis_failed \/
       thrown env (errorMsg st)) /\
    (forall st0 message,
       mounted saved = Some st0 -> thrown env message ->
       JSON.is_empty (API_KEY env) = false ->
       exists st ps r,
         reachable env saved (st, ps) /\ appState st = ERROR /\
         errorMsg st = message /\ App.result st = Some r).
Proof.
  intros env saved. split.
  - intros st ps R E.
    assert (I : In (errorMsg st) [Gemini.missing_key; Gemini.connection_failed;
                                 Gemini.analysis_failed]
                \/ thrown env (errorMsg st)).
    { revert E.
      apply (reachable_invariant
               (fun st => appState st = ERROR ->
                  In (errorMsg st) [Gemini.missing_key;
                                    Gemini.connection_failed;
                                    Gemini.analysis_failed]
                  \/ thrown env (errorMsg st))
               env saved) with (ps := ps); [| |exact R].
      - intros st0 M. apply mounted_initial in M as (h & _ & ->).
        discriminate.
      - intros st1 ps1 st2 ps2. apply error_step. }
    simpl in I. intuition congruence.
  - intros st0 message M T Hk.
    apply mounted_initial in M as (h & L & ->).
    destruct (empty_reply_is_analysed (API_KEY env)
                (propellerImgBase64 ready_request)
                (kadamImgBase64 ready_request)
                (propellerMime ready_request) (kadamMime ready_request) Hk)
      as (v & data & G & D).
    exists (handleAnalyze_catch (IsError message)
              (setResult (Some data)
                 (fst (handleAnalyze_begin (ready h saved))))),
           [], data.
    split; [|repeat split].
    apply (reachable_step _ _
             (fst (handleAnalyze_begin (ready h saved)),
              [PendingAnalysis (history (ready h saved)) ready_request])).
    + apply (analysis_settled env _ [] [] _ ready_request (Gemini.Reply None)
               (Throws message) 0%Z (Returns tt)); [exact T | exact I|].
      unfold handleAnalyze_settled, await. rewrite G, D. reflexivity.
    + apply (reachable_step _ _ (ready h saved, [])).
      * apply (click_analyze env (ready h saved) [] ready_request);
          reflexivity.
      * now apply ready_reachable.
Qed.

Lemma error_screen_message_witness :
  errorMsg (handleAnalyze_catch (IsError not_a_function)
              (setResult (Some empty_document)
                 (fst (handleAnalyze_begin (ready [] None)))))
    = Gemini.missing_key \/
  errorMsg (handleAnalyze_catch (IsError not_a_function)
              (setResult (Some empty_document)
                 (fst (handleAnalyze_begin (ready [] None)))))
    = Gemini.connection_failed \/
  errorMsg (handleAnalyze_catch (IsError not_a_function)
              (setResult (Some empty_document)
                 (fst (handleAnalyze_begin (ready [] None)))))
    = Gemini.analysis_failed \/
  errorMsg (handleAnalyze_catch (IsError not_a_function)
              (setResult (Some empty_document)
                 (fst (handleAnalyze_begin (ready [] None)))))
    = not_a_function.
Proof.
  apply (proj1 (error_screen_message (insecure "key") None) _ []);
    [|reflexivity].
  apply (reachable_step _ _
           (fst (handleAnalyze_begin (ready [] None)),
            [PendingAnalysis [] ready_request])).
  - apply (analysis_settled (insecure "key") _ [] [] _ ready_request
             (Gemini.Reply None) (Throws not_a_function) 0%Z (Returns tt));
      [reflexivity | exact I | reflexivity].
  - apply (reachable_step _ _ (ready [] None, [])).
    + apply (click_analyze (insecure "key") (ready [] None) [] ready_request);
        reflexivity.
    + now apply ready_reachable.
Defined.

(** X22.  In a browser in which [crypto.randomUUID] and
    [localStorage.setItem] do not throw, in every state that the
    component can reach what is stored is the text that [JSON.stringify]
    makes of the history that is shown, or it is what was stored when
    the component was mounted, the history being the one read from it.
    Mounting the component again then gives the history that is shown,
    when its numbers are ones that JSON text carries and its time
    stamps are integers that a number holds exactly. *)
Theorem reload_shows_the_same_history :
  forall env saved st ps,
    (forall message, ~ thrown env message) ->
    reachable env saved (st, ps) ->
    (ad_arbitrage_history st = Some (stored_text (history st)) \/
     (ad_arbitrage_history st = saved /\
      load_history saved = Some (history st))) /\
    (JSON.clean (encode_history (history st)) = true ->
     forallb exact_timestamp (history st) = true ->
     exists st0,
       mounted (ad_arbitrage_history st) = Some st0 /\
       history st0 = history st).
Proof.
  intros env saved st ps Q R.
  assert (I : in_step saved st).
  { apply (reachable_invariant (in_step saved) env saved) with (ps := ps);
      [| |exact R].
    - intros st0 M. apply mounted_initial in M as (h & L & ->). now right.
    - intros st1 ps1 st2 ps2. now apply in_step_step. }
  split; [exact I|]. intros Hc Ht.
  exists (initial (history st) (ad_arbitrage_history st)).
  split; [|reflexivity]. unfold mounted.
  destruct I as [E|[E L]].
  - rewrite E. unfold load_history.
    rewrite stored_text_not_empty. unfold stored_text.
    rewrite (parse_stringify EmptyString _ eq_refl Hc).
    now rewrite (decode_encode_history _ Ht).
  - now rewrite E, L.
Qed.

Lemma reload_shows_the_same_history_witness :
  exists st0,
    mounted (Some (stored_text [first_item])) = Some st0 /\
    history st0 = [first_item].
Proof.
  apply (proj2 (reload_shows_the_same_history (quiet "key")
                  (Some (stored_text [first_item]))
                  (ready [first_item] (Some (stored_text [first_item]))) []
                  (fun message F => F)
                  (ready_reachable (quiet "key") [first_item]
                     (Some (stored_text [first_item]))
                     ltac:(vm_compute; reflexivity))));
    vm_compute; reflexivity.
Defined.

(** X23.  An entry that is deleted while an analysis is running comes
    back when the analysis succeeds: from a state on the first screen
    with both screenshots, the user can start the analysis, open the
    history and delete an entry, after which the history does not have
    it; when the promise is fulfilled, the history that is shown and
    stored is the new entry followed by the history of the moment the
    analysis was started, the deleted entry included. *)
Theorem deletion_during_analysis_is_undone :
  forall env saved st ps item request response v data uuid now,
    reachable env saved (st, ps) ->
    appState st = UPLOAD -> snd (handleAnalyze_begin st) = Some request ->
    In item (history st) ->
    Gemini.analyzeArbitrageImages (API_KEY env)
      (propellerImgBase64 request) (kadamImgBase64 request)
      (propellerMime request) (kadamMime request) response
      = Gemini.Fulfilled v ->
    decode_result v = Some data ->
    exists mid st',
      reachable env saved
        (mid, PendingAnalysis (history st) request :: ps) /\
      ~ In item (history mid) /\
      step env (mid, PendingAnalysis (history st) request :: ps)
        (st', ps) /\
      history st' = newItem uuid now data :: history st /\
      In item (history st') /\
      ad_arbitrage_history st' = Some (stored_text (history st')).
Proof.
  intros env saved st ps item request response v data uuid now
    R Hs Hb Hi Hg Hd.
  set (st1 := fst (handleAnalyze_begin st)).
  set (st2 := setAppState HISTORY st1).
  set (st3 := deleteHistoryItem (id item) (Returns tt) st2).
  assert (H1 : history st1 = history st)
    by apply handleAnalyze_begin_history.
  exists st3.
  exists (setAppState RESULTS
            (setItem (stored_text (newItem uuid now data :: history st))
               (setHistory (newItem uuid now data :: history st)
                  (setResult (Some data) st3)))).
  split.
  { apply (reachable_step _ _
             (st2, PendingAnalysis (history st) request :: ps)).
    - apply delete_item; [reflexivity| |exact I]. simpl. now rewrite H1.
    - apply (reachable_step _ _
               (st1, PendingAnalysis (history st) request :: ps)).
      + apply click_history.
      + apply (reachable_step _ _ (st, ps)); [|exact R].
        now apply click_analyze. }
  split.
  { simpl. rewrite filter_In, String.eqb_refl. simpl. intros [_ F].
    discriminate F. }
  split.
  { apply (analysis_settled env st3 [] ps (history st) request response
             (Returns uuid) now (Returns tt)); [exact I | exact I|].
    unfold handleAnalyze_settled. rewrite Hg. simpl. now rewrite Hd. }
  split; [reflexivity|]. split; [simpl; now right | reflexivity].
Qed.

Lemma deletion_during_analysis_is_undone_witness :
  exists mid st',
    reachable (quiet "key") (Some (stored_text [first_item]))
      (mid, [PendingAnalysis [first_item] ready_request]) /\
    ~ In first_item (history mid) /\
    step (quiet "key")
      (mid, [PendingAnalysis [first_item] ready_request])
      (st', []) /\
    history st' = [second_item; first_item].
Proof.
  destruct (deletion_during_analysis_is_undone (quiet "key")
              (Some (stored_text [first_item]))
              (ready [first_item] (Some (stored_text [first_item]))) []
              first_item ready_request
              (Gemini.Reply (Some (handleDownloadJson example_merged)))
              (encode_result example_merged) example_merged
              "9b2d7a40-1c3e-4f5a-8d6b-2e1f0a9c8b7d" 1793700600000%Z
              (ready_reachable (quiet "key") [first_item]
                 (Some (stored_text [first_item]))
                 ltac:(vm_compute; reflexivity))
              eq_refl eq_refl)
    as (mid & st' & Hr & Hn & Hstep & Hh & _).
  - simpl. now left.
  - vm_compute. reflexivity.
  - vm_compute. reflexivity.
  - exists mid, st'. split; [exact Hr|]. split; [exact Hn|].
    split; [exact Hstep | exact Hh].
Defined.

Lemma waiting_analysis_kept (ps1 ps2 : list Pending) (p : Pending) :
  (forall c r, p <> PendingAnalysis c r) ->
  (exists c r, In (PendingAnalysis c r) (ps1 ++ p :: ps2)) ->
  exists c r, In (PendingAnalysis c r) (ps1 ++ ps2).
Proof.
  intros Hp (c & r & I). exists c, r.
  apply in_app_or in I as [I|[I|I]].
  - apply in_or_app. now left.
  - now destruct (Hp c r).
  - apply in_or_app. now right.
Qed.

Lemma spinner_step (env : Environment) st ps st' ps' :
  step env (st, ps) (st', ps') ->
  (appState st = ANALYZING -> exists c r, In (PendingAnalysis c r) ps) ->
  appState st' = ANALYZING -> exists c r, In (PendingAnalysis c r) ps'.
Proof.
  intros S IH. inversion S; subst; simpl; try discriminate; try exact IH.
  - intros _. eexists _, _. left. reflexivity.
  - match goal with H : handleAnalyze_settled _ _ _ _ _ _ = Some _ |- _ =>
      apply handleAnalyze_settled_cases in H;
      destruct H as [(v & d & u & x & _ & _ & _ & _ & ->)
                    |[(v & d & m & _ & _ & _ & ->)
                     |[(v & d & u & m & _ & _ & _ & _ & ->)
                      |(err & _ & ->)]]] end;
      simpl; discriminate.
  - intro E. destruct (IH E) as (c & r & I). exists c, r. now right.
  - match goal with H : handleImportFile_settled _ _ _ _ = Some _ |- _ =>
      apply handleImportFile_settled_cases in H; destruct H as [[r|r| |] ->]
    end; simpl; try discriminate;
      intro E; apply (waiting_analysis_kept _ _ (PendingImport captured name));
      try (intros; discriminate); now apply IH.
  - unfold deleteHistoryItem.
    match goal with |- context [match ?c with Returns _ => _ | Throws _ => _ end] =>
      destruct c end; exact IH.
Qed.

(** X25.  In every state that the component can reach, the screen of
    the analysis is shown only while a call of the analysis service is
    waiting for its answer: no step leaves the component on that screen
    with nothing to end it. *)
Theorem analysis_screen_has_a_request :
  forall env saved st ps,
    reachable env saved (st, ps) ->
    appState st = ANALYZING ->
    exists captured request, In (PendingAnalysis captured request) ps.
Proof.
  intros env saved st ps R.
  apply (reachable_configuration
           (fun c => appState (fst c) = ANALYZING ->
                     exists captured request,
                       In (PendingAnalysis captured request) (snd c))
           env saved) with (c := (st, ps)); [| |exact R].
  - intros st0 M. apply mounted_initial in M as (h & _ & ->). discriminate.
  - intros [st1 ps1] [st2 ps2]. apply spinner_step.
Qed.

Lemma analysis_screen_has_a_request_witness :
  exists captured request,
    In (PendingAnalysis captured request)
       [PendingAnalysis (history (ready [] None)) ready_request].
Proof.
  apply (analysis_screen_has_a_request (quiet "key") None
           (fst (handleAnalyze_begin (ready [] None)))); [|reflexivity].
  apply (reachable_step _ _ (ready [] None, [])).
  - apply (click_analyze (quiet "key") (ready [] None) [] ready_request);
      reflexivity.
  - now apply ready_reachable.
Defined.

End AppFacts.

(** ** The exported page *)

Section PageFacts.

#[local] Open Scope string_scope.







End PageFacts.
